(** * hive.py: the Python bridge to the Hive Node.js worker

    A shallow embedding of [src/hive.py] (class [Hive]) together with the
    parts of the Python runtime it calls: [json.dumps], [json.loads], the
    pipes of [subprocess.Popen] and the process life cycle.

    Python text is a sequence of Unicode code points, values are the dynamic
    values that cross the bridge, exceptions are data, and every method of
    [Hive] is a state transformer over the object it is called on.

    The limits of the interpreter that the data can reach are part of the
    model: the recursion limit, which bounds the nesting of what
    [json.dumps] and [json.loads] handle, and the limit on the digits of an
    [int] converted from or to text.  The levels are counted as CPython
    3.11 counts them, where the C encoder and decoder draw on the same
    counter as the calls of the interpreter: one level for each container,
    and the levels that the calls back into Python take ([default] of the
    encoder, [parse_constant] and the construction of a [JSONDecodeError]
    in the decoder).

    Left out: the decoding of the bytes of the pipe into text, signals
    sent to the parent, the capacity of the pipes (the child reads what is
    written to an open pipe, so that a write never blocks), the order in
    which the child sees the end of its input and a signal sent right after
    (it reacts to the first before the second arrives), the room the
    calls of the bridge themselves take on the stack of the interpreter,
    and reference cycles in the values to encode (values are trees). *)

From Stdlib Require Import ZArith NArith List Bool String Ascii Lia.
From Stdlib Require Import DecimalString Floats.PrimFloat.
From Stdlib Require DecimalFacts DecimalPos.
Import ListNotations.

Set Implicit Arguments.

(* ================================================================= *)
(** ** Python text *)

(** A Python [str]: its code points, in order. *)
Definition str := list N.

(** The [str] of an ASCII literal. *)
Definition py (s : string) : str := map N_of_ascii (list_ascii_of_string s).

(** JSON text written with an apostrophe where the wire has a quotation
    mark: [jsn "{'data': null}"] is the ten-odd code points of
    [{"data": null}]. *)
Definition jsn (s : string) : str :=
  map (fun c => if N.eqb c 39 then 34%N else c) (py s).

Definition LF : N := 10.
Definition QUOTE : N := 34.
Definition BACKSLASH : N := 92.

Fixpoint str_eqb (a b : str) : bool :=
  match a, b with
  | [], [] => true
  | x :: a', y :: b' => N.eqb x y && str_eqb a' b'
  | _, _ => false
  end.

(** [s.startswith(p)], returning what follows the prefix. *)
Fixpoint strip_prefix (p s : str) : option str :=
  match p, s with
  | [], _ => Some s
  | x :: p', y :: s' => if N.eqb x y then strip_prefix p' s' else None
  | _ :: _, [] => None
  end.

(** [sep.join(parts)] *)
Fixpoint join (sep : str) (parts : list str) : str :=
  match parts with
  | [] => []
  | [p] => p
  | p :: rest => p ++ sep ++ join sep rest
  end.

(** [s.endswith("/")] *)
Definition ends_with_slash (s : str) : bool :=
  match rev s with
  | c :: _ => N.eqb c 47
  | [] => false
  end.

(** [posixpath.join(a, b)] *)
Definition os_path_join (a b : str) : str :=
  match b with
  | 47%N :: _ => b
  | _ => if (match a with [] => true | _ => false end) || ends_with_slash a
         then a ++ b
         else a ++ py "/" ++ b
  end.

(** The decimal text of an integer. *)
Definition decimal (n : Z) : str := py (NilZero.string_of_int (Z.to_int n)).

(* ================================================================= *)
(** ** Python values *)

(** The values that travel through the bridge.  A dictionary keeps its
    items in insertion order; its keys are values as well.  [PyObject]
    stands for an instance of any other class (a set, bytes, a user
    object): all that matters here is its truth value. *)
Unset Elimination Schemes.
Inductive value : Type :=
| PyNone
| PyBool (b : bool)
| PyInt (n : Z)
| PyFloat (x : float)
| PyStr (s : str)
| PyList (items : list value)
| PyTuple (items : list value)
| PyDict (items : list (value * value))
| PyObject (truth : bool).
Set Elimination Schemes.

(** Induction on a value, with the property at hand for every element of
    a list or tuple and for every value stored in a dictionary. *)
Section ValueInduction.
Variable P : value -> Prop.
Hypothesis case_None : P PyNone.
Hypothesis case_Bool : forall b, P (PyBool b).
Hypothesis case_Int : forall n, P (PyInt n).
Hypothesis case_Float : forall x, P (PyFloat x).
Hypothesis case_Str : forall s, P (PyStr s).
Hypothesis case_List : forall l, Forall P l -> P (PyList l).
Hypothesis case_Tuple : forall l, Forall P l -> P (PyTuple l).
Hypothesis case_Dict :
  forall d, Forall (fun kv => P (snd kv)) d -> P (PyDict d).
Hypothesis case_Object : forall t, P (PyObject t).

Fixpoint value_ind (v : value) : P v :=
  match v with
  | PyNone => case_None
  | PyBool b => case_Bool b
  | PyInt n => case_Int n
  | PyFloat x => case_Float x
  | PyStr s => case_Str s
  | PyList l =>
      case_List
        ((fix all (l : list value) : Forall P l :=
            match l with
            | [] => Forall_nil P
            | x :: r => Forall_cons x (value_ind x) (all r)
            end) l)
  | PyTuple l =>
      case_Tuple
        ((fix all (l : list value) : Forall P l :=
            match l with
            | [] => Forall_nil P
            | x :: r => Forall_cons x (value_ind x) (all r)
            end) l)
  | PyDict d =>
      case_Dict
        ((fix all (d : list (value * value)) : Forall (fun kv => P (snd kv)) d :=
            match d with
            | [] => Forall_nil _
            | kv :: r => Forall_cons kv (value_ind (snd kv)) (all r)
            end) d)
  | PyObject t => case_Object t
  end.
End ValueInduction.

(** [bool(v)] *)
Definition truthy (v : value) : bool :=
  match v with
  | PyNone => false
  | PyBool b => b
  | PyInt n => negb (Z.eqb n 0)
  | PyFloat x => negb (PrimFloat.eqb x PrimFloat.zero)
  | PyStr s => match s with [] => false | _ => true end
  | PyList l => match l with [] => false | _ => true end
  | PyTuple l => match l with [] => false | _ => true end
  | PyDict d => match d with [] => false | _ => true end
  | PyObject t => t
  end.

(** [a or b] *)
Definition py_or (a b : value) : value := if truthy a then a else b.

(** Equality of a dictionary key with a [str]: only a [str] key with the
    same code points is equal to it. *)
Definition key_is (k : str) (v : value) : bool :=
  match v with
  | PyStr s => str_eqb s k
  | _ => false
  end.

(** [d.get(k)] on the items of a dictionary, for a [str] key. *)
Fixpoint dict_get (d : list (value * value)) (k : str) : option value :=
  match d with
  | [] => None
  | (k', v) :: rest => if key_is k k' then Some v else dict_get rest k
  end.

(** [d[k] = v] for a [str] key: an existing key keeps its place. *)
Fixpoint dict_set (d : list (value * value)) (k : str) (v : value)
  : list (value * value) :=
  match d with
  | [] => [(PyStr k, v)]
  | (k', v') :: rest =>
      if key_is k k' then (k', v) :: rest else (k', v') :: dict_set rest k v
  end.

(* ================================================================= *)
(** ** Exceptions *)

(** The exception classes that occur.  The two classes [hive.py] raises
    itself carry their message; for those raised by the libraries only the
    class is kept. *)
Inductive exn : Type :=
| FileNotFoundError (msg : str)
| RuntimeError (msg : str)
| TypeError
| ValueError
| AttributeError
| KeyError
| OSError
| BrokenPipeError
| JSONDecodeError
| RecursionError.

(** [isinstance(e, RuntimeError)]: [RecursionError] is a subclass of
    [RuntimeError]. *)
Definition is_RuntimeError (e : exn) : bool :=
  match e with
  | RuntimeError _ | RecursionError => true
  | _ => false
  end.

(** A computation without side effects: a value, or an exception. *)
Inductive result (A : Type) : Type :=
| Ok (a : A)
| Err (e : exn).
Arguments Ok {A} a.
Arguments Err {A} e.

Definition rbind {A B} (r : result A) (k : A -> result B) : result B :=
  match r with
  | Ok a => k a
  | Err e => Err e
  end.

Declare Scope result_scope.
Delimit Scope result_scope with result.
Notation "x <- r ;; k" := (rbind r (fun x => k))
  (at level 61, r at next level, right associativity) : result_scope.
Notation "' p <- r ;; k" := (rbind r (fun x => let p := x in k))
  (at level 61, p pattern, r at next level, right associativity) : result_scope.

(** [f] on every element in turn; the first exception ends the loop. *)
Fixpoint result_map {A B} (f : A -> result B) (l : list A) : result (list B) :=
  match l with
  | [] => Ok []
  | a :: rest => (b <- f a ;; bs <- result_map f rest ;; Ok (b :: bs))%result
  end.

(* ================================================================= *)
(** ** What the Python runtime provides *)

(** Three functions of the interpreter and one of the platform are used
    but not defined here, and two limits of the interpreter are
    parameters. *)
Class PyRuntime : Type := {
  (** [float.__repr__] *)
  float_repr : float -> str;
  (** [float(text)] for the text of a JSON number *)
  float_of_str : str -> float;
  (** [repr] of a list, tuple, dictionary or other object *)
  object_repr : value -> str;
  (** [os.path.abspath], for the working directory of the parent *)
  os_path_abspath : str -> str;
  (** what is left of [sys.getrecursionlimit()] where the bridge calls
      [json.dumps] and [json.loads], counted in containers that can be
      entered one inside the other, beyond the two of an envelope with its
      arguments: the bridge is taken to be called with room on the stack
      for its own calls and for these two *)
  nesting_room : nat;
  (** [sys.get_int_max_str_digits()]; zero is no limit *)
  int_max_str_digits : nat
}.

Section Limits.
Context {runtime : PyRuntime}.

(** The number of containers the encoder and the decoder can enter, one
    inside the other, before the interpreter raises [RecursionError]. *)
Definition recursion_limit : nat := S (S nesting_room).

(** The limit on the digits of an [int] converted from or to text: it
    applies to texts of more than 640 characters, when it is set. *)
Definition too_many_digits (length digits : nat) : bool :=
  Nat.ltb 640 length
  && negb (Nat.eqb int_max_str_digits 0)
  && Nat.ltb int_max_str_digits digits.

(** The digits of a decimal text: its characters, the minus sign apart. *)
Definition count_digits (text : str) : nat :=
  match text with
  | 45%N :: digits => List.length digits
  | _ => List.length text
  end.

(** [int.__repr__]: the limit is checked on the text with its sign. *)
Definition int_repr (n : Z) : result str :=
  if too_many_digits (List.length (decimal n)) (count_digits (decimal n))
  then Err ValueError
  else Ok (decimal n).

End Limits.

(* ================================================================= *)
(** ** json.dumps *)

Section Encoder.
Context {runtime : PyRuntime}.
Local Open Scope N_scope.

Definition hex_digit (d : N) : N :=
  if N.ltb d 10 then 48 + d else 87 + d.

(** ['{0:04x}'.format(n)], for [n < 0x10000] *)
Definition hex4 (n : N) : str :=
  [hex_digit (N.land (N.shiftr n 12) 15); hex_digit (N.land (N.shiftr n 8) 15);
   hex_digit (N.land (N.shiftr n 4) 15); hex_digit (N.land n 15)].

(** The replacement [encode_basestring_ascii] makes for one code point:
    the short escapes of [ESCAPE_DCT], the code point itself from the space
    to the tilde, a [\uXXXX] escape below 0x10000 and a surrogate pair
    above. *)
Definition escape_ascii (c : N) : str :=
  if N.eqb c BACKSLASH then [BACKSLASH; BACKSLASH]
  else if N.eqb c QUOTE then [BACKSLASH; QUOTE]
  else if N.eqb c 8 then BACKSLASH :: py "b"
  else if N.eqb c 12 then BACKSLASH :: py "f"
  else if N.eqb c 10 then BACKSLASH :: py "n"
  else if N.eqb c 13 then BACKSLASH :: py "r"
  else if N.eqb c 9 then BACKSLASH :: py "t"
  else if N.leb 32 c && N.leb c 126 then [c]
  else if N.ltb c 65536 then BACKSLASH :: py "u" ++ hex4 c
  else
    let n := c - 65536 in
    let s1 := N.lor 55296 (N.land (N.shiftr n 10) 1023) in
    let s2 := N.lor 56320 (N.land n 1023) in
    BACKSLASH :: py "u" ++ hex4 s1 ++ BACKSLASH :: py "u" ++ hex4 s2.

(** [encode_basestring_ascii(s)] *)
Definition encode_basestring_ascii (s : str) : str :=
  QUOTE :: flat_map escape_ascii s ++ [QUOTE].

(** [floatstr(o)] of the encoder, with [allow_nan] at its default. *)
Definition floatstr (o : float) : str :=
  if negb (PrimFloat.eqb o o) then py "NaN"
  else if PrimFloat.eqb o PrimFloat.infinity then py "Infinity"
  else if PrimFloat.eqb o PrimFloat.neg_infinity then py "-Infinity"
  else float_repr o.

(** The text a dictionary key is written as; a key of any other class
    raises [TypeError] ([skipkeys] is off). *)
Definition encode_key (k : value) : result str :=
  match k with
  | PyStr s => Ok s
  | PyFloat x => Ok (floatstr x)
  | PyBool true => Ok (py "true")
  | PyBool false => Ok (py "false")
  | PyNone => Ok (py "null")
  | PyInt n => int_repr n
  | _ => Err TypeError
  end.

(** [JSONEncoder().encode(o)]: item separator [", "], key separator
    [": "], no indentation, ASCII only.  [depth] is the number of
    containers the encoder can still enter: entering a list, a tuple or a
    dictionary, empty or not, takes one.  A tuple is written as a list; an
    object of any other class is handed to [default], which raises
    [TypeError]; the call of [default] takes the room of two containers. *)
Fixpoint encode (depth : nat) (o : value) {struct o} : result str :=
  match o with
  | PyStr s => Ok (encode_basestring_ascii s)
  | PyNone => Ok (py "null")
  | PyBool true => Ok (py "true")
  | PyBool false => Ok (py "false")
  | PyInt n => int_repr n
  | PyFloat x => Ok (floatstr x)
  | PyList l | PyTuple l =>
      match depth with
      | O => Err RecursionError
      | S depth =>
          match l with
          | [] => Ok (py "[]")
          | _ =>
              (ss <- result_map (encode depth) l ;;
               Ok (py "[" ++ join (py ", ") ss ++ py "]"))%result
          end
      end
  | PyDict d =>
      match depth with
      | O => Err RecursionError
      | S depth =>
          match d with
          | [] => Ok (py "{}")
          | _ =>
              (ss <- result_map
                       (fun kv =>
                          ks <- encode_key (fst kv) ;;
                          vs <- encode depth (snd kv) ;;
                          Ok (encode_basestring_ascii ks ++ py ": " ++ vs)) d ;;
               Ok (py "{" ++ join (py ", ") ss ++ py "}"))%result
          end
      end
  | PyObject _ =>
      match depth with
      | S (S _) => Err TypeError
      | _ => Err RecursionError
      end
  end.

(** [json.dumps(obj)] *)
Definition json_dumps (obj : value) : result str := encode recursion_limit obj.

End Encoder.

(* ================================================================= *)
(** ** json.loads *)

Section Decoder.
Context {runtime : PyRuntime}.
Local Open Scope N_scope.

(** The whitespace of the decoder: space, tab, line feed, carriage return. *)
Definition is_ws (c : N) : bool :=
  N.eqb c 32 || N.eqb c 9 || N.eqb c 10 || N.eqb c 13.

Fixpoint skip_ws (s : str) : str :=
  match s with
  | c :: r => if is_ws c then skip_ws r else s
  | [] => []
  end.

Definition is_digit (c : N) : bool := N.leb 48 c && N.leb c 57.

(** The longest run of digits at the head of [s], and what follows it. *)
Fixpoint span_digits (s : str) : str * str :=
  match s with
  | c :: r =>
      if is_digit c then let (ds, r') := span_digits r in (c :: ds, r')
      else ([], s)
  | [] => ([], [])
  end.

Definition unhex (c : N) : option N :=
  if is_digit c then Some (c - 48)
  else if N.leb 97 c && N.leb c 102 then Some (c - 87)
  else if N.leb 65 c && N.leb c 70 then Some (c - 55)
  else None.

Definition unhex4 (a b c d : N) : option N :=
  match unhex a, unhex b, unhex c, unhex d with
  | Some x, Some y, Some z, Some w => Some (((x * 16 + y) * 16 + z) * 16 + w)
  | _, _, _, _ => None
  end.

(** The character a one-letter escape stands for ([BACKSLASH] table of
    the decoder). *)
Definition unescape (e : N) : option N :=
  if N.eqb e QUOTE then Some QUOTE
  else if N.eqb e BACKSLASH then Some BACKSLASH
  else if N.eqb e 47 then Some 47
  else if N.eqb e 98 then Some 8
  else if N.eqb e 102 then Some 12
  else if N.eqb e 110 then Some 10
  else if N.eqb e 114 then Some 13
  else if N.eqb e 116 then Some 9
  else None.

Definition is_high_surrogate (c : N) : bool := N.leb 55296 c && N.leb c 56319.
Definition is_low_surrogate (c : N) : bool := N.leb 56320 c && N.leb c 57343.

(** [scanstring(s, end)], strict: [s] starts right after the opening
    quotation mark; the result is the string and what follows its closing
    quotation mark.  A [\uXXXX] escape of a high surrogate followed by one
    of a low surrogate is one code point. *)
Fixpoint scanstring (s : str) (acc : str) {struct s} : result (str * str) :=
  match s with
  | [] => Err JSONDecodeError
  | c :: r =>
    if N.eqb c QUOTE then Ok (rev acc, r)
    else if N.eqb c BACKSLASH then
      match r with
      | [] => Err JSONDecodeError
      | e :: r1 =>
        if N.eqb e 117 then
          match r1 with
          | h1 :: h2 :: h3 :: h4 :: r5 =>
            match unhex4 h1 h2 h3 h4 with
            | None => Err JSONDecodeError
            | Some uni =>
              if is_high_surrogate uni then
                match r5 with
                | b :: u :: g1 :: g2 :: g3 :: g4 :: r11 =>
                  if N.eqb b BACKSLASH && N.eqb u 117 then
                    match unhex4 g1 g2 g3 g4 with
                    | None => Err JSONDecodeError
                    | Some uni2 =>
                      if is_low_surrogate uni2
                      then scanstring r11
                             (65536 + N.lor (N.shiftl (uni - 55296) 10)
                                            (uni2 - 56320) :: acc)
                      else scanstring r5 (uni :: acc)
                    end
                  else scanstring r5 (uni :: acc)
                | _ => scanstring r5 (uni :: acc)
                end
              else scanstring r5 (uni :: acc)
            end
          | _ => Err JSONDecodeError
          end
        else
          match unescape e with
          | Some ch => scanstring r1 (ch :: acc)
          | None => Err JSONDecodeError
          end
      end
    else if N.ltb c 32 then Err JSONDecodeError
    else scanstring r (c :: acc)
  end.

(** The fraction and the exponent that may follow the integer part of a
    number: whether one was there, its text, and what follows. *)
Definition match_fraction (s : str) : str * str :=
  match s with
  | dot :: d :: r =>
      if N.eqb dot 46 && is_digit d
      then let (ds, r') := span_digits r in (dot :: d :: ds, r')
      else ([], s)
  | _ => ([], s)
  end.

Definition match_exponent (s : str) : str * str :=
  match s with
  | e :: r =>
      if N.eqb e 101 || N.eqb e 69 then
        let (sign, r1) :=
          match r with
          | c :: r' => if N.eqb c 43 || N.eqb c 45 then ([c], r') else ([], r)
          | [] => ([], r)
          end in
        let (ds, r2) := span_digits r1 in
        match ds with
        | [] => ([], s)
        | _ => (e :: sign ++ ds, r2)
        end
      else ([], s)
  | [] => ([], s)
  end.

(** The number at the head of [s]: an optional minus sign, then a zero or
    a run of digits that does not start with a zero, then an optional
    fraction and an optional exponent.  The result says whether it is a
    float (it has a fraction or an exponent), gives its text and what
    follows. *)
Definition match_number (s : str) : option (bool * str * str) :=
  let (sign, s1) :=
    match s with
    | c :: r => if N.eqb c 45 then ([c], r) else ([], s)
    | [] => ([], s)
    end in
  match s1 with
  | c :: r =>
      let integer :=
        if N.leb 49 c && N.leb c 57
        then let (ds, r') := span_digits r in Some (sign ++ c :: ds, r')
        else if N.eqb c 48 then Some (sign ++ [c], r)
        else None in
      match integer with
      | Some (int, r1) =>
          let (frac, r2) := match_fraction r1 in
          let (exp, r3) := match_exponent r2 in
          Some (match frac ++ exp with [] => false | _ => true end,
                int ++ frac ++ exp, r3)
      | None => None
      end
  | [] => None
  end.

(** The integer a decimal text stands for. *)
Definition decimal_value (text : str) : Z :=
  let digits (s : str) : Z :=
    fold_left (fun acc c => (acc * 10 + Z.of_N (c - 48))%Z) s 0%Z in
  match text with
  | c :: r => if N.eqb c 45 then (- digits r)%Z else digits text
  | [] => 0%Z
  end.

(** [int(text)] for the text of a JSON integer: the limit is checked on
    the digits. *)
Definition int_of_str (text : str) : result Z :=
  if too_many_digits (count_digits text) (count_digits text)
  then Err ValueError
  else Ok (decimal_value text).

(** [dict(pairs)]: a later pair with the same key replaces the value. *)
Definition dict_of_pairs (pairs : list (str * value)) : list (value * value) :=
  fold_left (fun d kv => dict_set d (fst kv) (snd kv)) pairs [].

(** How the C decoder reports a text it rejects.  Where no value starts
    it raises [StopIteration], which [raw_decode] turns into
    [JSONDecodeError] outside the nesting.  Elsewhere (inside a string, at
    a missing delimiter or property name) it builds the [JSONDecodeError]
    where it stands, with calls that take three levels of the
    interpreter's stack: with fewer left, what comes out is
    [RecursionError]. *)
Definition raise_errmsg (depth : nat) : exn :=
  if Nat.ltb depth 3 then RecursionError else JSONDecodeError.

(** [NaN], [Infinity] and [-Infinity] are looked up through the
    decoder's [parse_constant], a call that takes one level. *)
Definition parse_constant (depth : nat) (f : float) (r : str)
  : result (value * str) :=
  match depth with
  | O => Err RecursionError
  | S _ => Ok (PyFloat f, r)
  end.

(** [scanstring] called with [depth] levels left. *)
Definition scanstring_at (depth : nat) (s : str) : result (str * str) :=
  match scanstring s [] with
  | Ok x => Ok x
  | Err _ => Err (raise_errmsg depth)
  end.

(** [scan_once(s, idx)] with the loops of [JSONArray] and [JSONObject].
    [depth] is the number of containers the decoder can still enter:
    an opening brace or bracket takes one, and raises [RecursionError]
    when none is left; a value that is missing is reported outside the
    nesting, every other fault through [raise_errmsg].  An integer beyond
    the digit limit raises [ValueError].
    [fuel] is there for the termination of the definition only: it bounds
    the number of calls, [json_loads] provides enough of it for every text,
    and the result does not depend on how much is provided beyond that
    ([decoder_fuel] below), so that running out of it never shows.
    [parse_items] starts at the first character of an element,
    [parse_pairs] right after the quotation mark that opens a key. *)
Fixpoint scan_once (fuel depth : nat) (s : str) {struct fuel}
  : result (value * str) :=
  match fuel with
  | O => Err RecursionError
  | S fuel =>
    match s with
    | [] => Err JSONDecodeError
    | c :: r =>
      if N.eqb c QUOTE then
        ('(k, r') <- scanstring_at depth r ;; Ok (PyStr k, r'))%result
      else if N.eqb c 123 then
        match depth with
        | O => Err RecursionError
        | S depth =>
            match skip_ws r with
            | c1 :: r1 =>
                if N.eqb c1 125 then Ok (PyDict [], r1)
                else if N.eqb c1 QUOTE then
                  ('(pairs, r') <- parse_pairs fuel depth r1 [] ;;
                   Ok (PyDict (dict_of_pairs pairs), r'))%result
                else Err (raise_errmsg depth)
            | [] => Err (raise_errmsg depth)
            end
        end
      else if N.eqb c 91 then
        match depth with
        | O => Err RecursionError
        | S depth =>
            match skip_ws r with
            | c1 :: r1 =>
                if N.eqb c1 93 then Ok (PyList [], r1)
                else ('(vs, r') <- parse_items fuel depth (c1 :: r1) [] ;;
                      Ok (PyList vs, r'))%result
            | [] => Err JSONDecodeError
            end
        end
      else
        match strip_prefix (py "null") s with
        | Some r' => Ok (PyNone, r')
        | None =>
        match strip_prefix (py "true") s with
        | Some r' => Ok (PyBool true, r')
        | None =>
        match strip_prefix (py "false") s with
        | Some r' => Ok (PyBool false, r')
        | None =>
        match match_number s with
        | Some (is_float, text, r') =>
            if is_float then Ok (PyFloat (float_of_str text), r')
            else (n <- int_of_str text ;; Ok (PyInt n, r'))%result
        | None =>
        match strip_prefix (py "NaN") s with
        | Some r' => parse_constant depth PrimFloat.nan r'
        | None =>
        match strip_prefix (py "Infinity") s with
        | Some r' => parse_constant depth PrimFloat.infinity r'
        | None =>
        match strip_prefix (py "-Infinity") s with
        | Some r' => parse_constant depth PrimFloat.neg_infinity r'
        | None => Err JSONDecodeError
        end end end end end end end
    end
  end

with parse_items (fuel depth : nat) (s : str) (acc : list value) {struct fuel}
  : result (list value * str) :=
  match fuel with
  | O => Err RecursionError
  | S fuel =>
    ('(v, r) <- scan_once fuel depth s ;;
     match skip_ws r with
     | c :: r1 =>
         if N.eqb c 93 then Ok (rev (v :: acc), r1)
         else if N.eqb c 44 then parse_items fuel depth (skip_ws r1) (v :: acc)
         else Err (raise_errmsg depth)
     | [] => Err (raise_errmsg depth)
     end)%result
  end

with parse_pairs (fuel depth : nat) (s : str) (acc : list (str * value))
       {struct fuel}
  : result (list (str * value) * str) :=
  match fuel with
  | O => Err RecursionError
  | S fuel =>
    ('(key, r) <- scanstring_at depth s ;;
     match skip_ws r with
     | colon :: r1 =>
         if N.eqb colon 58 then
           '(v, r2) <- scan_once fuel depth (skip_ws r1) ;;
           match skip_ws r2 with
           | c :: r3 =>
               if N.eqb c 125 then Ok (rev ((key, v) :: acc), r3)
               else if N.eqb c 44 then
                 match skip_ws r3 with
                 | q :: r4 =>
                     if N.eqb q QUOTE
                     then parse_pairs fuel depth r4 ((key, v) :: acc)
                     else Err (raise_errmsg depth)
                 | [] => Err (raise_errmsg depth)
                 end
               else Err (raise_errmsg depth)
           | [] => Err (raise_errmsg depth)
           end
         else Err (raise_errmsg depth)
     | [] => Err (raise_errmsg depth)
     end)%result
  end.

(** [json.loads(s)] for a [str]: one value, with whitespace around it and
    nothing else.  Two units of fuel for each character are enough: each
    call consumes a character before it calls again. *)
Definition json_loads (s : str) : result value :=
  match s with
  | 65279 :: _ => Err JSONDecodeError
  | _ =>
    ('(obj, r) <- scan_once (2 * List.length s + 1) recursion_limit (skip_ws s) ;;
     match skip_ws r with
     | [] => Ok obj
     | _ :: _ => Err JSONDecodeError
     end)%result
  end.

End Decoder.

(* ================================================================= *)
(** ** Effects *)

(** What running a statement comes to: it returns, it raises, or it
    blocks for ever (a read from a silent child, a wait for a child that
    does not exit). *)
Inductive outcome (A : Type) : Type :=
| Return (a : A)
| Raise (e : exn)
| Hang.
Arguments Return {A} a.
Arguments Raise {A} e.
Arguments Hang {A}.

(** A statement run in a state of type [S]: its outcome and the state it
    leaves. *)
Definition M (S A : Type) : Type := S -> outcome A * S.

Definition ret {S A} (a : A) : M S A := fun s => (Return a, s).
Definition raise {S A} (e : exn) : M S A := fun s => (Raise e, s).
Definition hang {S A} : M S A := fun s => (Hang, s).

Definition bind {S A B} (m : M S A) (k : A -> M S B) : M S B :=
  fun s =>
    match m s with
    | (Return a, s') => k a s'
    | (Raise e, s') => (Raise e, s')
    | (Hang, s') => (Hang, s')
    end.

(** [try: body / except ...: handler]: [handler e] is the clause that
    catches [e], if there is one. *)
Definition try_except {S A} (body : M S A) (handler : exn -> option (M S A))
  : M S A :=
  fun s =>
    match body s with
    | (Raise e, s') =>
        match handler e with
        | Some h => h s'
        | None => (Raise e, s')
        end
    | r => r
    end.

(** A computation without effects, run as a statement. *)
Definition lift {S A} (r : result A) : M S A :=
  match r with
  | Ok a => ret a
  | Err e => raise e
  end.

Definition get {S} : M S S := fun s => (Return s, s).
Definition put {S} (s : S) : M S unit := fun _ => (Return tt, s).

Declare Scope stmt_scope.
Delimit Scope stmt_scope with stmt.
Notation "x <- m ;; k" := (bind m (fun x => k))
  (at level 61, m at next level, right associativity) : stmt_scope.
Notation "m ;;; k" := (bind m (fun _ => k))
  (at level 61, right associativity) : stmt_scope.

(* ================================================================= *)
(** ** subprocess.Popen *)

(** A [Popen] object with text-mode pipes and the child behind it.

    The first three fields are the state of the Python object; the others
    describe the child as the parent can observe it.  The child itself is
    opaque: what it has written, or will have written by the time the parent
    reads, is [stdout_data]. *)
Record Popen : Type := mkPopen {
  (** [self.returncode]: [None] until the exit of the child has been seen *)
  returncode : option Z;
  (** [self.stdin.closed] *)
  stdin_closed : bool;
  (** text written to [self.stdin] that could not be delivered *)
  stdin_pending : str;
  (** the text delivered to the standard input of the child *)
  stdin_data : str;
  (** the child no longer reads its standard input *)
  pipe_broken : bool;
  (** the text of the standard output of the child not read yet *)
  stdout_data : str;
  (** the child has closed its standard output *)
  stdout_eof : bool;
  (** the exit status, once the child has exited *)
  exit_status : option Z;
  (** how the child reacts to the end of its input and to SIGTERM: it exits
      with this status, or it goes on *)
  on_eof : option Z;
  on_sigterm : option Z
}.

Definition set_returncode (rc : option Z) (p : Popen) : Popen :=
  mkPopen rc (stdin_closed p) (stdin_pending p) (stdin_data p) (pipe_broken p)
          (stdout_data p) (stdout_eof p) (exit_status p) (on_eof p) (on_sigterm p).

Definition set_stdin_closed (b : bool) (p : Popen) : Popen :=
  mkPopen (returncode p) b (stdin_pending p) (stdin_data p) (pipe_broken p)
          (stdout_data p) (stdout_eof p) (exit_status p) (on_eof p) (on_sigterm p).

Definition set_stdin (pending data : str) (p : Popen) : Popen :=
  mkPopen (returncode p) (stdin_closed p) pending data (pipe_broken p)
          (stdout_data p) (stdout_eof p) (exit_status p) (on_eof p) (on_sigterm p).

Definition set_stdout_data (data : str) (p : Popen) : Popen :=
  mkPopen (returncode p) (stdin_closed p) (stdin_pending p) (stdin_data p)
          (pipe_broken p) data (stdout_eof p) (exit_status p) (on_eof p)
          (on_sigterm p).

(** The child exits with [status]: its ends of the pipes close. *)
Definition child_exits (status : Z) (p : Popen) : Popen :=
  mkPopen (returncode p) (stdin_closed p) (stdin_pending p) (stdin_data p) true
          (stdout_data p) true (Some status) (on_eof p) (on_sigterm p).

(** The child is told something ([reaction] is [on_eof] or [on_sigterm])
    and, if it is running and reacts by exiting, exits. *)
Definition child_told (reaction : Popen -> option Z) (p : Popen) : Popen :=
  match exit_status p, reaction p with
  | None, Some status => child_exits status p
  | _, _ => p
  end.

(** [Popen.poll()]: the return code, looked up without blocking. *)
Definition poll : M Popen (option Z) :=
  fun p =>
    match returncode p with
    | Some rc => (Return (Some rc), p)
    | None =>
        match exit_status p with
        | Some status => (Return (Some status), set_returncode (Some status) p)
        | None => (Return None, p)
        end
    end.

(** [Popen.wait()]: blocks until the child has exited. *)
Definition wait : M Popen Z :=
  fun p =>
    match returncode p with
    | Some rc => (Return rc, p)
    | None =>
        match exit_status p with
        | Some status => (Return status, set_returncode (Some status) p)
        | None => (Hang, p)
        end
    end.

(** [Popen.terminate()]: polls, and sends SIGTERM unless the child is
    known to have exited. *)
Definition terminate : M Popen unit :=
  (rc <- poll ;;
   match rc with
   | Some _ => ret tt
   | None => fun p => (Return tt, child_told on_sigterm p)
   end)%stmt.

(** [self.stdin.flush()]: delivers the pending text.  What is written to
    an open pipe is taken to be read by the child: the text is delivered
    whatever its length, and the flush does not block.  A child that stops
    reading without closing its input, on which a write longer than the
    buffer of the pipe would block, is not in the model. *)
Definition stdin_flush : M Popen unit :=
  fun p =>
    if stdin_closed p then (Raise ValueError, p)
    else match stdin_pending p with
         | [] => (Return tt, p)
         | pending =>
             if pipe_broken p then (Raise BrokenPipeError, p)
             else (Return tt, set_stdin [] (stdin_data p ++ pending) p)
         end.

(** [self.stdin.write(text)], the stream being line buffered and [text]
    ending a line: the text is delivered at once.  When nobody reads the
    pipe the text stays pending. *)
Definition stdin_write (text : str) : M Popen unit :=
  fun p =>
    if stdin_closed p then (Raise ValueError, p)
    else stdin_flush (set_stdin (stdin_pending p ++ text) (stdin_data p) p).

(** [self.stdin.close()]: nothing on a closed stream; otherwise a flush,
    after which the stream is closed whether the flush raised or not, and
    the child sees the end of its input.  The child is taken to react at
    once, before the parent goes on: of the two orders in which it can see
    the end of its input and a SIGTERM sent right after, this is the one
    where a child that exits at the end of its input has the status of
    [on_eof].  In the other order that child is ended by the signal and
    has the status of [on_sigterm]; nothing else differs, and no property
    below says which of the two statuses is recorded. *)
Definition stdin_close : M Popen unit :=
  fun p =>
    if stdin_closed p then (Return tt, p)
    else let (r, p') := stdin_flush p in
         (r, child_told on_eof (set_stdin_closed true p')).

(** The first line of [data] with its line feed, and the rest, when
    [data] holds a whole line. *)
Fixpoint split_line (data : str) : option (str * str) :=
  match data with
  | [] => None
  | c :: rest =>
      if N.eqb c LF then Some ([c], rest)
      else match split_line rest with
           | Some (line, rest') => Some (c :: line, rest')
           | None => None
           end
  end.

(** [self.stdout.readline()]: the next line with its line feed; at the end
    of the stream what is left, which is the empty string when nothing is;
    blocks while the line is incomplete and the stream is open.
    [stdout_data] is text: the bytes of the pipe decoded, line ends
    translated. *)
Definition stdout_readline : M Popen str :=
  fun p =>
    match split_line (stdout_data p) with
    | Some (line, rest) => (Return line, set_stdout_data rest p)
    | None =>
        if stdout_eof p then (Return (stdout_data p), set_stdout_data [] p)
        else (Hang, p)
    end.

(* ================================================================= *)
(** ** The operating system, as far as the constructor sees it *)

Record os_state : Type := mkOs {
  (** [os.path.exists] *)
  path_exists : str -> bool;
  (** [os.path.dirname(os.path.abspath(__file__))] *)
  module_dir : str;
  (** what launching an argument vector does: the child it starts, or the
      exception [subprocess.Popen] raises *)
  launch : list str -> result Popen;
  (** the argument vectors of the children started so far *)
  spawned : list (list str)
}.

(** [subprocess.Popen(argv, stdin=PIPE, stdout=PIPE, stderr=sys.stderr,
    text=True, bufsize=1)] *)
Definition subprocess_Popen (argv : list str) : M os_state Popen :=
  fun os =>
    match launch os argv with
    | Ok p =>
        (Return p,
         mkOs (path_exists os) (module_dir os) (launch os) (spawned os ++ [argv]))
    | Err e => (Raise e, os)
    end.

Definition os_path_exists (path : str) : M os_state bool :=
  fun os => (Return (path_exists os path), os).

(* ================================================================= *)
(** ** class Hive *)

(** A [Hive] object: its one attribute. *)
Record Hive : Type := mkHive {
  process : Popen
}.

(** A method of [self.process], run on [self]. *)
Definition self_process {A} (m : M Popen A) : M Hive A :=
  fun self => let (r, p) := m (process self) in (r, mkHive p).

(** [o.get(key)]: only a dictionary has the method. *)
Definition py_get (o : value) (key : str) : result value :=
  match o with
  | PyDict d => Ok (match dict_get d key with Some v => v | None => PyNone end)
  | _ => Err AttributeError
  end.

(** [o[key]] for a [str] key. *)
Definition py_getitem (o : value) (key : str) : result value :=
  match o with
  | PyDict d => match dict_get d key with Some v => Ok v | None => Err KeyError end
  | _ => Err TypeError
  end.

Section HiveClass.
Context {runtime : PyRuntime}.

(** What an f-string puts in place of [{v}]: [str(v)], for a value
    [json.loads] has returned, whose integers are within the digit limit
    and whose nesting is within the recursion limit. *)
Definition py_format (v : value) : str :=
  match v with
  | PyStr s => s
  | PyNone => py "None"
  | PyBool true => py "True"
  | PyBool false => py "False"
  | PyInt n => decimal n
  | PyFloat x => float_repr x
  | _ => object_repr v
  end.

(** [Hive.__init__(self, node_path, script_path)].  [script_path] is
    [None] by default and [node_path] is ["node"]. *)
Definition __init__ (node_path : str) (script_path : option str)
  : M os_state Hive :=
  (script_path <-
     match script_path with
     | None =>
         dir <- (fun os => (Return (module_dir os), os)) ;;
         ret (os_path_join dir (py "hive_cli.js"))
     | Some path => ret path
     end ;;
   found <- os_path_exists script_path ;;
   if negb found then
     raise (FileNotFoundError (py "Could not find hive_cli.js at " ++ script_path))
   else
     p <- try_except
            (subprocess_Popen [node_path; script_path])
            (fun e =>
               match e with
               | FileNotFoundError _ =>
                   Some (raise (FileNotFoundError
                     (py "Node.js executable not found at '" ++ node_path ++
                      py "'. Please ensure Node.js is installed.")))
               | _ => None
               end) ;;
     ret (mkHive p))%stmt.

(** The dictionary [{"action": action, "args": args or {}}]. *)
Definition envelope (action : str) (args : value) : value :=
  PyDict [(PyStr (py "action"), PyStr action);
          (PyStr (py "args"), py_or args (PyDict []))].

(** [Hive._send_command(self, action, args)].  [args] is [None] by
    default.

    The [try] statement of the source has two [except] clauses.  The one
    for [json.JSONDecodeError] uses [response_line]; only [json.loads]
    raises that class, so the clause is placed here where [response_line] is
    bound.  Neither clause catches what the other raises. *)
Definition _send_command (action : str) (args : value) : M Hive value :=
  (rc <- self_process poll ;;
   match rc with
   | Some _ =>
       raise (RuntimeError (py "Hive Node.js process has terminated unexpectedly."))
   | None =>
     command <- lift (json_dumps (envelope action args)) ;;
     try_except
       (self_process (stdin_write (command ++ [LF])) ;;;
        self_process stdin_flush ;;;
        response_line <- self_process stdout_readline ;;
        try_except
          (if negb (truthy (PyStr response_line)) then
             raise (RuntimeError
               (py "Hive Node.js process closed the connection (no response)."))
           else
             response <- lift (json_loads response_line) ;;
             error <- lift (py_get response (py "error")) ;;
             if truthy error then
               error <- lift (py_getitem response (py "error")) ;;
               raise (RuntimeError (py "Hive Error: " ++ py_format error))
             else
               lift (py_get response (py "data")))
          (fun e =>
             match e with
             | JSONDecodeError =>
                 Some (raise (RuntimeError
                   (py "Failed to decode response from Hive: " ++ response_line)))
             | _ => None
             end))
       (fun e =>
          match e with
          | BrokenPipeError =>
              Some (raise (RuntimeError (py "Hive Node.js process pipe broken.")))
          | _ => None
          end)
   end)%stmt.

(** [Hive.init(self, options)]; [options] is [None] by default. *)
Definition init (options : value) : M Hive value :=
  _send_command (py "init") options.

(** [Hive.add_file(self, file_path)]; [file_path] is a path given as a
    [str], which [os.path.abspath] makes absolute. *)
Definition add_file (file_path : str) : M Hive value :=
  _send_command (py "addFile")
    (PyDict [(PyStr (py "filePath"), PyStr (os_path_abspath file_path))]).

(** [Hive.embed(self, input_data, type)]; [type] is ["text"] by default. *)
Definition embed (input_data type : value) : M Hive value :=
  _send_command (py "embed")
    (PyDict [(PyStr (py "input"), input_data); (PyStr (py "type"), type)]).

(** [Hive.find(self, query_vector, top_k)]; [top_k] is [10] by default. *)
Definition find (query_vector top_k : value) : M Hive value :=
  _send_command (py "find")
    (PyDict [(PyStr (py "queryVector"), query_vector);
             (PyStr (py "topK"), top_k)]).

Definition insert_one (entry : value) : M Hive value :=
  _send_command (py "insertOne") (PyDict [(PyStr (py "entry"), entry)]).

Definition delete_one (id : value) : M Hive value :=
  _send_command (py "deleteOne") (PyDict [(PyStr (py "id"), id)]).

Definition update_one (query entry : value) : M Hive value :=
  _send_command (py "updateOne")
    (PyDict [(PyStr (py "query"), query); (PyStr (py "entry"), entry)]).

(** [Hive.remove_file(self, file_path)], with a path as [add_file]. *)
Definition remove_file (file_path : str) : M Hive value :=
  _send_command (py "removeFile")
    (PyDict [(PyStr (py "filePath"), PyStr (os_path_abspath file_path))]).

(** [Hive.close(self)].  A [Popen] object is always true, so the test
    [if self.process] always passes. *)
Definition close : M Hive unit :=
  (self_process stdin_close ;;;
   self_process terminate ;;;
   _ <- self_process wait ;;
   ret tt)%stmt.

Definition __enter__ : M Hive Hive := get.

Definition __exit__ (exc_type exc_val exc_tb : value) : M Hive unit := close.

End HiveClass.

(* ================================================================= *)
(** ** Predicates on states; states and a runtime for closed examples *)

(** The bridge can talk to its child: the child runs and its exit has not
    been recorded, the input stream is open and somebody reads it. *)
Definition alive (self : Hive) : Prop :=
  returncode (process self) = None /\ exit_status (process self) = None.

Definition writable (self : Hive) : Prop :=
  stdin_closed (process self) = false /\ pipe_broken (process self) = false.

(** The exceptions of the decoder: [JSONDecodeError] for a text it
    rejects, [RecursionError] for nesting that the recursion limit leaves
    no room for, [ValueError] for an integer beyond the digit limit. *)
Definition decode_error (e : exn) : Prop :=
  e = JSONDecodeError \/ e = RecursionError \/ e = ValueError.

(** The exceptions of the encoder: [TypeError] for an object or a key it
    has no notation for, [RecursionError] and [ValueError] as for the
    decoder.  ([ValueError] is also what the encoder of Python raises on
    a reference cycle, which the trees of this model do not have.) *)
Definition encode_error (e : exn) : Prop :=
  e = TypeError \/ e = RecursionError \/ e = ValueError.

(** A decoding step consumes its input: it may fail only with an
    exception of the decoder, and what it leaves is shorter than what it
    was given. *)
Definition consumes {A} (res : result (A * str)) (s : str) : Prop :=
  (forall e, res = Err e -> decode_error e)
  /\ (forall v r, res = Ok (v, r) -> List.length r < List.length s).

(** A text of printable ASCII characters, from the space to the tilde. *)
Definition ascii_text (s : str) : Prop :=
  Forall (fun c => (32 <= c)%N /\ (c <= 126)%N) s.

(** A text without a line feed. *)
Definition one_line (s : str) : Prop := Forall (fun c => c <> LF) s.

(** The values [json.dumps] accepts: no object of a foreign class, and
    dictionary keys that are [str], [int], [float], [bool] or [None]. *)
Definition key_serializable (k : value) : bool :=
  match k with
  | PyStr _ | PyFloat _ | PyBool _ | PyNone | PyInt _ => true
  | _ => false
  end.

Fixpoint serializable (v : value) : bool :=
  match v with
  | PyList l => forallb serializable l
  | PyTuple l => forallb serializable l
  | PyDict d =>
      forallb (fun kv => key_serializable (fst kv) && serializable (snd kv)) d
  | PyObject _ => false
  | _ => true
  end.

(** A Unicode scalar value: a code point that is not a surrogate. *)
Definition scalar (c : N) : bool :=
  (N.ltb c 1114112 && negb (N.leb 55296 c && N.leb c 57343))%N.

(** The text of a dictionary key that is a [str]. *)
Definition key_text (k : value) : str :=
  match k with
  | PyStr s => s
  | _ => []
  end.

(** No two items of a dictionary have the same [str] key. *)
Fixpoint distinct_keys (d : list (value * value)) : bool :=
  match d with
  | [] => true
  | (k, _) :: rest =>
      negb (existsb (fun kv => key_is (key_text k) (fst kv)) rest)
      && distinct_keys rest
  end.

(** The values JSON has a notation for, floats apart: [None], booleans,
    integers, strings of scalar values, lists, and dictionaries with such
    strings as keys. *)
Fixpoint plain (v : value) : bool :=
  match v with
  | PyNone | PyBool _ | PyInt _ => true
  | PyStr s => forallb scalar s
  | PyList l => forallb plain l
  | PyDict d =>
      forallb (fun kv =>
                 match fst kv with
                 | PyStr k => forallb scalar k
                 | _ => false
                 end && plain (snd kv)) d
      && distinct_keys d
  | PyFloat _ | PyTuple _ | PyObject _ => false
  end.

(** What may follow a value in a JSON text: nothing, a comma, a closing
    bracket or brace, or whitespace. *)
Definition delimited (rest : str) : bool :=
  match rest with
  | [] => true
  | c :: _ => (N.eqb c 44 || N.eqb c 93 || N.eqb c 125)%N || is_ws c
  end.

(** The first character of an encoded value: not whitespace, not a
    closing bracket. *)
Definition opens_value (s : str) : Prop :=
  exists c r, s = c :: r /\ is_ws c = false /\ N.eqb c 93%N = false.

(** The text of the items of a dictionary, as [encode] builds it. *)
Definition encode_item {runtime : PyRuntime} (depth : nat)
           (kv : value * value) : result str :=
  (ks <- encode_key (fst kv) ;;
   vs <- encode depth (snd kv) ;;
   Ok (encode_basestring_ascii ks ++ py ": " ++ vs))%result.

(** A value within the limits of the interpreter, [depth] containers
    being left to enter: the encoder reaches every part of it without
    [RecursionError] or [ValueError]. *)
Definition int_fits {runtime : PyRuntime} (n : Z) : bool :=
  negb (too_many_digits (List.length (decimal n)) (count_digits (decimal n))).

Fixpoint fits {runtime : PyRuntime} (depth : nat) (v : value) {struct v}
  : bool :=
  match v with
  | PyInt n => int_fits n
  | PyList l | PyTuple l =>
      match depth with
      | O => false
      | S depth => forallb (fits depth) l
      end
  | PyDict d =>
      match depth with
      | O => false
      | S depth =>
          forallb (fun kv =>
                     match fst kv with
                     | PyInt n => int_fits n
                     | _ => true
                     end && fits depth (snd kv)) d
      end
  | PyObject _ =>
      match depth with
      | S (S _) => true
      | _ => false
      end
  | _ => true
  end.

(** A runtime for the examples below.  None of them holds a float or
    prints a container, and their paths are absolute already.  The limits
    are those of an interpreter with its defaults: a thousand containers
    deep, 4300 digits. *)
Definition example_runtime : PyRuntime :=
  {| float_repr := fun _ => py "0.0";
     float_of_str := fun _ => PrimFloat.zero;
     object_repr := fun _ => py "<object>";
     os_path_abspath := fun path => path;
     nesting_room := 998;
     int_max_str_digits := 4300 |}.

(** A bridge just constructed whose child has [answers] ready on its
    standard output and keeps the stream open; the child exits when its
    input ends and when it is sent SIGTERM. *)
Definition example_hive (answers : str) : Hive :=
  mkHive (mkPopen None false [] [] false answers false None (Some 0%Z) (Some (-15)%Z)).

(** The same, the child having closed its standard output. *)
Definition example_hive_eof (answers : str) : Hive :=
  mkHive (mkPopen None false [] [] false answers true None (Some 0%Z) (Some (-15)%Z)).

(** A system with the worker script at [/opt/hive/hive_cli.js] and the
    executable [node] on the path; launching anything else does not find
    the executable. *)
Definition example_os : os_state :=
  mkOs (fun path => str_eqb path (py "/opt/hive/hive_cli.js"))
       (py "/opt/hive")
       (fun argv =>
          match argv with
          | exe :: _ =>
              if str_eqb exe (py "node")
              then Ok (process (example_hive []))
              else Err (FileNotFoundError (py "[Errno 2] No such file or directory"))
          | [] => Err ValueError
          end)
       [].

(** A bridge whose child runs but has closed its end of the input pipe:
    nobody reads what the parent writes. *)
Definition example_hive_deaf : Hive :=
  mkHive (mkPopen None false [] [] true [] false None (Some 0%Z) (Some (-15)%Z)).

(** A bridge whose input stream has been closed, the child going on after
    the end of its input. *)
Definition example_hive_stdin_closed : Hive :=
  mkHive (mkPopen None true [] [] false [] false None None (Some (-15)%Z)).

(* ================================================================= *)
(** * Properties *)

(** ** The decoder is total *)

Section DecoderTotal.
Context {runtime : PyRuntime}.

Lemma skip_ws_length (s : str) : List.length (skip_ws s) <= List.length s.
Proof.
  induction s as [|c r IH]; simpl; [lia|]. destruct (is_ws c); simpl; lia.
Qed.

Lemma span_digits_length (s : str) :
  List.length (snd (span_digits s)) <= List.length s.
Proof.
  induction s as [|c r IH]; simpl; [lia|].
  destruct (is_digit c); simpl; [|lia].
  destruct (span_digits r); simpl in *; lia.
Qed.

Lemma match_fraction_length (s : str) :
  List.length (snd (match_fraction s)) <= List.length s.
Proof.
  unfold match_fraction. destruct s as [|dot [|d r]]; simpl; try lia.
  destruct (N.eqb dot 46 && is_digit d); simpl; [|lia].
  pose proof (span_digits_length r). destruct (span_digits r); simpl in *; lia.
Qed.

Lemma match_exponent_length (s : str) :
  List.length (snd (match_exponent s)) <= List.length s.
Proof.
  unfold match_exponent. destruct s as [|e r]; simpl; [lia|].
  destruct (N.eqb e 101 || N.eqb e 69); simpl; [|lia].
  destruct r as [|c r']; simpl; [lia|].
  destruct (N.eqb c 43 || N.eqb c 45).
  - pose proof (span_digits_length r'). destruct (span_digits r') as [[|] ?]; simpl in *; lia.
  - pose proof (span_digits_length (c :: r')).
    destruct (span_digits (c :: r')) as [[|] ?]; simpl in *; lia.
Qed.

Lemma match_number_length (s : str) (is_float : bool) (text rest : str) :
  match_number s = Some (is_float, text, rest) ->
  List.length rest < List.length s.
Proof.
  unfold match_number.
  assert (Htail : forall (int r1 : str) (n : nat),
            List.length r1 < n ->
            (let (frac, r2) := match_fraction r1 in
             let (exp, r3) := match_exponent r2 in
             Some (match frac ++ exp with [] => false | _ => true end,
                   int ++ frac ++ exp, r3)) = Some (is_float, text, rest) ->
            List.length rest < n).
  { intros int r1 n Hn.
    pose proof (match_fraction_length r1) as Hf.
    destruct (match_fraction r1) as [frac r2]. simpl in Hf.
    pose proof (match_exponent_length r2) as He.
    destruct (match_exponent r2) as [exp r3]. simpl in He.
    intros H. inversion H. subst. lia. }
  destruct s as [|c r]; [discriminate|].
  destruct (N.eqb c 45).
  - destruct r as [|c' r']; [discriminate|].
    destruct (N.leb 49 c' && N.leb c' 57).
    + pose proof (span_digits_length r') as Hd.
      destruct (span_digits r') as [ds r1]. simpl in Hd.
      apply Htail. simpl. lia.
    + destruct (N.eqb c' 48); [|discriminate]. apply Htail. simpl. lia.
  - destruct (N.leb 49 c && N.leb c 57).
    + pose proof (span_digits_length r) as Hd.
      destruct (span_digits r) as [ds r1]. simpl in Hd.
      apply Htail. simpl. lia.
    + destruct (N.eqb c 48); [|discriminate]. apply Htail. simpl. lia.
Qed.

Lemma strip_prefix_length (p s r : str) :
  strip_prefix p s = Some r -> List.length s = (List.length p + List.length r)%nat.
Proof.
  revert s. induction p as [|x p IH]; intros s; simpl.
  - intros H. inversion H. reflexivity.
  - destruct s as [|y s']; [discriminate|].
    destruct (N.eqb x y); [|discriminate]. intros H. simpl. rewrite (IH _ H). reflexivity.
Qed.


Lemma scanstring_spec (n : nat) :
  forall (s acc : str), List.length s <= n ->
    (forall e, scanstring s acc = Err e -> e = JSONDecodeError)
    /\ (forall k r, scanstring s acc = Ok (k, r) -> List.length r < List.length s).
Proof.
  induction n as [|n IH]; intros s acc Hn.
  - destruct s; [|cbn [List.length] in Hn; lia].
    cbn [scanstring]. split; [intros e H; inversion H; reflexivity | discriminate].
  - destruct s as [|c r]; cbn [scanstring].
    { split; [intros e H; inversion H; reflexivity | discriminate]. }
    cbn [List.length] in *.
    assert (Hrec : forall (t acc' : str), List.length t <= List.length r ->
              (forall e, scanstring t acc' = Err e -> e = JSONDecodeError)
              /\ (forall k r', scanstring t acc' = Ok (k, r') ->
                    List.length r' < S (List.length r))).
    { intros t acc' Ht. destruct (IH t acc' ltac:(lia)) as [H1 H2].
      split; [exact H1|]. intros k r' H. specialize (H2 k r' H). lia. }
    assert (Hfail : (forall e, @Err (str * str) JSONDecodeError = Err e -> e = JSONDecodeError)
              /\ (forall k r', @Err (str * str) JSONDecodeError = Ok (k, r') ->
                    List.length r' < S (List.length r))).
    { split; [intros e H; inversion H; reflexivity | discriminate]. }
    destruct (N.eqb c QUOTE).
    { split; [discriminate|]. intros k r' H. inversion H. subst. lia. }
    destruct (N.eqb c BACKSLASH).
    + destruct r as [|e r1]; [exact Hfail|].
      destruct (N.eqb e 117).
      * destruct r1 as [|h1 [|h2 [|h3 [|h4 r5]]]]; try exact Hfail.
        destruct (unhex4 h1 h2 h3 h4) as [uni|]; [|exact Hfail].
        destruct (is_high_surrogate uni).
        -- destruct r5 as [|b [|u [|g1 [|g2 [|g3 [|g4 r11]]]]]];
             try (apply Hrec; cbn [List.length]; lia).
           destruct (N.eqb b BACKSLASH && N.eqb u 117);
             [|apply Hrec; cbn [List.length]; lia].
           destruct (unhex4 g1 g2 g3 g4) as [uni2|]; [|exact Hfail].
           destruct (is_low_surrogate uni2); apply Hrec; cbn [List.length]; lia.
        -- apply Hrec; cbn [List.length]; lia.
      * destruct (unescape e); [apply Hrec; cbn [List.length]; lia | exact Hfail].
    + destruct (N.ltb c 32); [exact Hfail|]. apply Hrec. lia.
Qed.

Lemma scanstring_raises (s acc : str) (e : exn) :
  scanstring s acc = Err e -> e = JSONDecodeError.
Proof. apply (@scanstring_spec (List.length s) s acc (le_n _)). Qed.

Lemma scanstring_length (s acc k r : str) :
  scanstring s acc = Ok (k, r) -> List.length r < List.length s.
Proof. apply (@scanstring_spec (List.length s) s acc (le_n _)). Qed.


Lemma raise_errmsg_decode_error (depth : nat) : decode_error (raise_errmsg depth).
Proof.
  unfold raise_errmsg. destruct (Nat.ltb depth 3); [right; left|left]; reflexivity.
Qed.

Lemma scanstring_at_Ok (depth : nat) (s k r : str) :
  scanstring_at depth s = Ok (k, r) -> scanstring s [] = Ok (k, r).
Proof.
  unfold scanstring_at. destruct (scanstring s []) as [x|e]; [|discriminate].
  intros H. inversion H. reflexivity.
Qed.

Lemma scanstring_at_Err (depth : nat) (s : str) (e : exn) :
  scanstring_at depth s = Err e -> e = raise_errmsg depth.
Proof.
  unfold scanstring_at. destruct (scanstring s []) as [x|e']; [discriminate|].
  intros H. inversion H. reflexivity.
Qed.

Lemma scanstring_at_scanned (depth : nat) (s : str) (x : str * str) :
  scanstring s [] = Ok x -> scanstring_at depth s = Ok x.
Proof. unfold scanstring_at. intros ->. reflexivity. Qed.

Lemma consumes_Err {A} (s : str) : consumes (@Err (A * str) JSONDecodeError) s.
Proof. split; [intros e H; inversion H; left; reflexivity | discriminate]. Qed.

Lemma consumes_RecursionError {A} (s : str) :
  consumes (@Err (A * str) RecursionError) s.
Proof.
  split; [intros e H; inversion H; right; left; reflexivity | discriminate].
Qed.

Lemma consumes_raise {A} (e : exn) (s : str) :
  decode_error e -> consumes (@Err (A * str) e) s.
Proof. intros He. split; [intros e' H; inversion H; subst; exact He | discriminate]. Qed.

Lemma consumes_errmsg {A} (depth : nat) (s : str) :
  consumes (@Err (A * str) (raise_errmsg depth)) s.
Proof. apply consumes_raise, raise_errmsg_decode_error. Qed.

Lemma int_of_str_raises (text : str) (e : exn) :
  int_of_str text = Err e -> e = ValueError.
Proof.
  unfold int_of_str. destruct (too_many_digits _ _); [|discriminate].
  intros H. inversion H. reflexivity.
Qed.

Lemma consumes_Ok {A} (v : A) (r s : str) :
  List.length r < List.length s -> consumes (Ok (v, r)) s.
Proof.
  intros Hlen. split; [discriminate|].
  intros v' r' H. inversion H. subst. assumption.
Qed.

Lemma decoder_spec (fuel : nat) :
  (forall depth s, 2 * List.length s < fuel ->
     consumes (scan_once fuel depth s) s)
  /\ (forall depth s acc, 2 * List.length s + 1 < fuel ->
        consumes (parse_items fuel depth s acc) s)
  /\ (forall depth s acc, 2 * List.length s < fuel ->
        consumes (parse_pairs fuel depth s acc) s).
Proof.
  induction fuel as [|fuel [IHscan [IHitems IHpairs]]].
  { repeat split; intros; lia. }
  split; [|split].
  - (* scan_once *)
    intros depth s Hfuel. cbn [scan_once].
    destruct s as [|c r]; [apply consumes_Err|].
    cbn [List.length] in Hfuel.
    destruct (N.eqb c QUOTE).
    { destruct (scanstring_at depth r) as [[k r']|e] eqn:Hk; cbn [rbind].
      - apply consumes_Ok. apply scanstring_at_Ok, scanstring_length in Hk.
        cbn [List.length]. lia.
      - apply scanstring_at_Err in Hk. subst. apply consumes_errmsg. }
    destruct (N.eqb c 123).
    { destruct depth as [|depth]; [apply consumes_RecursionError|].
      pose proof (skip_ws_length r) as Hws.
      destruct (skip_ws r) as [|c1 r1]; [apply consumes_errmsg|].
      cbn [List.length] in Hws.
      destruct (N.eqb c1 125); [apply consumes_Ok; cbn [List.length]; lia|].
      destruct (N.eqb c1 QUOTE); [|apply consumes_errmsg].
      destruct (IHpairs depth r1 [] ltac:(lia)) as [Herr Hok].
      destruct (parse_pairs fuel depth r1 []) as [[pairs r']|e]; cbn [rbind].
      - apply consumes_Ok. specialize (Hok _ _ eq_refl). cbn [List.length]. lia.
      - apply consumes_raise. apply Herr. reflexivity. }
    destruct (N.eqb c 91).
    { destruct depth as [|depth]; [apply consumes_RecursionError|].
      pose proof (skip_ws_length r) as Hws.
      destruct (skip_ws r) as [|c1 r1]; [apply consumes_Err|].
      cbn [List.length] in Hws.
      destruct (N.eqb c1 93); [apply consumes_Ok; cbn [List.length]; lia|].
      destruct (IHitems depth (c1 :: r1) [] ltac:(cbn [List.length]; lia))
        as [Herr Hok].
      destruct (parse_items fuel depth (c1 :: r1) []) as [[vs r']|e]; cbn [rbind].
      - apply consumes_Ok. specialize (Hok _ _ eq_refl).
        cbn [List.length] in *. lia.
      - apply consumes_raise. apply Herr. reflexivity. }
    repeat match goal with
    | |- consumes (match strip_prefix ?p ?t with _ => _ end) _ =>
        let H := fresh "Hp" in
        destruct (strip_prefix p t) as [?r'|] eqn:H;
        [ unfold parse_constant;
          try (destruct depth; [apply consumes_RecursionError|]);
          apply consumes_Ok; apply strip_prefix_length in H;
          cbn [List.length] in *; unfold py in H; cbn in H; lia | ]
    | |- consumes (match match_number ?t with _ => _ end) _ =>
        let H := fresh "Hn" in
        destruct (match_number t) as [[[[|] ?text] ?]|] eqn:H;
        [ apply consumes_Ok; apply match_number_length in H; exact H
        | destruct (int_of_str text) as [?n|?e] eqn:?Hint; cbn [rbind];
          [ apply consumes_Ok; apply match_number_length in H; exact H
          | apply int_of_str_raises in Hint; subst; apply consumes_raise;
            right; right; reflexivity ]
        | ]
    end.
    apply consumes_Err.
  - (* parse_items *)
    intros depth s acc Hfuel. cbn [parse_items].
    destruct (IHscan depth s ltac:(lia)) as [Herr Hok].
    destruct (scan_once fuel depth s) as [[v r]|e]; cbn [rbind];
      [|apply consumes_raise; apply Herr; reflexivity].
    specialize (Hok _ _ eq_refl).
    pose proof (skip_ws_length r) as Hws.
    destruct (skip_ws r) as [|c r1]; [apply consumes_errmsg|].
    cbn [List.length] in Hws.
    destruct (N.eqb c 93); [apply consumes_Ok; lia|].
    destruct (N.eqb c 44); [|apply consumes_errmsg].
    pose proof (skip_ws_length r1) as Hws1.
    destruct (IHitems depth (skip_ws r1) (v :: acc) ltac:(lia)) as [Herr' Hok'].
    split; [exact Herr'|]. intros v' r' H. specialize (Hok' _ _ H). lia.
  - (* parse_pairs *)
    intros depth s acc Hfuel. cbn [parse_pairs].
    destruct (scanstring_at depth s) as [[key r]|e] eqn:Hkey; cbn [rbind];
      [|apply scanstring_at_Err in Hkey; subst; apply consumes_errmsg].
    apply scanstring_at_Ok, scanstring_length in Hkey.
    pose proof (skip_ws_length r) as Hws.
    destruct (skip_ws r) as [|colon r1]; [apply consumes_errmsg|].
    cbn [List.length] in Hws.
    destruct (N.eqb colon 58); [|apply consumes_errmsg].
    pose proof (skip_ws_length r1) as Hws1.
    destruct (IHscan depth (skip_ws r1) ltac:(lia)) as [Herr Hok].
    destruct (scan_once fuel depth (skip_ws r1)) as [[v r2]|e]; cbn [rbind];
      [|apply consumes_raise; apply Herr; reflexivity].
    specialize (Hok _ _ eq_refl).
    pose proof (skip_ws_length r2) as Hws2.
    destruct (skip_ws r2) as [|c r3]; [apply consumes_errmsg|].
    cbn [List.length] in Hws2.
    destruct (N.eqb c 125); [apply consumes_Ok; lia|].
    destruct (N.eqb c 44); [|apply consumes_errmsg].
    pose proof (skip_ws_length r3) as Hws3.
    destruct (skip_ws r3) as [|q r4]; [apply consumes_errmsg|].
    cbn [List.length] in Hws3.
    destruct (N.eqb q QUOTE); [|apply consumes_errmsg].
    destruct (IHpairs depth r4 ((key, v) :: acc) ltac:(lia)) as [Herr' Hok'].
    split; [exact Herr'|]. intros v' r' H. specialize (Hok' _ _ H). lia.
Qed.

(** The fuel is for the termination of the definition only: beyond two
    units for each character, the result does not depend on it. *)
Lemma decoder_fuel (fuel : nat) :
  forall fuel',
    (forall depth s, 2 * List.length s < fuel -> 2 * List.length s < fuel' ->
       scan_once fuel depth s = scan_once fuel' depth s)
    /\ (forall depth s acc,
          2 * List.length s + 1 < fuel -> 2 * List.length s + 1 < fuel' ->
          parse_items fuel depth s acc = parse_items fuel' depth s acc)
    /\ (forall depth s acc,
          2 * List.length s < fuel -> 2 * List.length s < fuel' ->
          parse_pairs fuel depth s acc = parse_pairs fuel' depth s acc).
Proof.
  induction fuel as [|fuel IH]; intros fuel'.
  { repeat split; intros; lia. }
  destruct fuel' as [|fuel']; [repeat split; intros; lia|].
  destruct (IH fuel') as [IHscan [IHitems IHpairs]].
  destruct (decoder_spec fuel) as [Sscan [Sitems Spairs]].
  split; [|split].
  - intros depth s Hfuel Hfuel'. cbn [scan_once].
    destruct s as [|c r]; [reflexivity|].
    cbn [List.length] in Hfuel, Hfuel'.
    destruct (N.eqb c QUOTE); [reflexivity|].
    destruct (N.eqb c 123).
    { destruct depth as [|depth]; [reflexivity|].
      pose proof (skip_ws_length r) as Hws.
      destruct (skip_ws r) as [|c1 r1]; [reflexivity|].
      cbn [List.length] in Hws.
      destruct (N.eqb c1 125); [reflexivity|].
      destruct (N.eqb c1 QUOTE); [|reflexivity].
      rewrite (IHpairs depth r1 []) by lia. reflexivity. }
    destruct (N.eqb c 91); [|reflexivity].
    destruct depth as [|depth]; [reflexivity|].
    pose proof (skip_ws_length r) as Hws.
    destruct (skip_ws r) as [|c1 r1]; [reflexivity|].
    cbn [List.length] in Hws.
    destruct (N.eqb c1 93); [reflexivity|].
    rewrite (IHitems depth (c1 :: r1) []) by (cbn [List.length]; lia).
    reflexivity.
  - intros depth s acc Hfuel Hfuel'. cbn [parse_items].
    rewrite (IHscan depth s) by lia.
    destruct (Sscan depth s ltac:(lia)) as [_ Hok].
    rewrite (IHscan depth s) in Hok by lia.
    destruct (scan_once fuel' depth s) as [[v r]|e]; cbn [rbind]; [|reflexivity].
    specialize (Hok _ _ eq_refl).
    pose proof (skip_ws_length r) as Hws.
    destruct (skip_ws r) as [|c r1]; [reflexivity|].
    cbn [List.length] in Hws.
    destruct (N.eqb c 93); [reflexivity|].
    destruct (N.eqb c 44); [|reflexivity].
    pose proof (skip_ws_length r1) as Hws1.
    apply IHitems; lia.
  - intros depth s acc Hfuel Hfuel'. cbn [parse_pairs].
    destruct (scanstring_at depth s) as [[key r]|e] eqn:Hkey; cbn [rbind];
      [|reflexivity].
    apply scanstring_at_Ok, scanstring_length in Hkey.
    pose proof (skip_ws_length r) as Hws.
    destruct (skip_ws r) as [|colon r1]; [reflexivity|].
    cbn [List.length] in Hws.
    destruct (N.eqb colon 58); [|reflexivity].
    pose proof (skip_ws_length r1) as Hws1.
    rewrite (IHscan depth (skip_ws r1)) by lia.
    destruct (Sscan depth (skip_ws r1) ltac:(lia)) as [_ Hok].
    rewrite (IHscan depth (skip_ws r1)) in Hok by lia.
    destruct (scan_once fuel' depth (skip_ws r1)) as [[v r2]|e]; cbn [rbind];
      [|reflexivity].
    specialize (Hok _ _ eq_refl).
    pose proof (skip_ws_length r2) as Hws2.
    destruct (skip_ws r2) as [|c r3]; [reflexivity|].
    cbn [List.length] in Hws2.
    destruct (N.eqb c 125); [reflexivity|].
    destruct (N.eqb c 44); [|reflexivity].
    pose proof (skip_ws_length r3) as Hws3.
    destruct (skip_ws r3) as [|q r4]; [reflexivity|].
    cbn [List.length] in Hws3.
    destruct (N.eqb q QUOTE); [|reflexivity].
    apply IHpairs; lia.
Qed.

(** [json.loads] without the test for a byte order mark. *)
Lemma json_loads_unfold (c : N) (r : str) :
  json_loads (c :: r) =
    ('(obj, r') <- scan_once (2 * List.length (c :: r) + 1) recursion_limit
                     (skip_ws (c :: r)) ;;
     match skip_ws r' with
     | [] => Ok obj
     | _ :: _ => Err JSONDecodeError
     end)%result.
Proof.
  unfold json_loads.
  destruct c as [|p]; [reflexivity|].
  repeat (destruct p as [p|p|]; try reflexivity).
Qed.

(** What [json.loads] raises: [JSONDecodeError] for a text it rejects,
    [RecursionError] for one nested too deep, [ValueError] for one with an
    integer of too many digits. *)
Lemma json_loads_raises (s : str) (e : exn) :
  json_loads s = Err e -> decode_error e.
Proof.
  destruct s as [|c r].
  { intros H. inversion H. left. reflexivity. }
  rewrite json_loads_unfold.
  pose proof (skip_ws_length (c :: r)) as Hws.
  destruct (decoder_spec (2 * List.length (c :: r) + 1)) as [Hscan _].
  destruct (Hscan recursion_limit (skip_ws (c :: r)) ltac:(lia)) as [Herr _].
  destruct (scan_once (2 * List.length (c :: r) + 1) recursion_limit
              (skip_ws (c :: r))) as [[obj r']|e']; cbn [rbind].
  - destruct (skip_ws r'); [discriminate|]. intros H. inversion H.
    left. reflexivity.
  - intros H. inversion H. subst. apply Herr. reflexivity.
Qed.

End DecoderTotal.

(** ** The text [json.dumps] produces *)

Lemma one_line_app (a b : str) : one_line a -> one_line b -> one_line (a ++ b).
Proof. unfold one_line. intros. apply Forall_app. auto. Qed.

Lemma one_line_join (sep : str) (parts : list str) :
  one_line sep -> Forall one_line parts -> one_line (join sep parts).
Proof.
  intros Hsep Hparts. induction Hparts as [|p rest Hp Hrest IH]; simpl.
  - constructor.
  - destruct rest; [assumption|].
    apply one_line_app; [assumption|]. apply one_line_app; assumption.
Qed.

Lemma py_cons (a : ascii) (s : string) : py (String a s) = N_of_ascii a :: py s.
Proof. reflexivity. Qed.

Lemma one_line_uint (u : Decimal.uint) : one_line (py (NilEmpty.string_of_uint u)).
Proof.
  induction u; cbn [NilEmpty.string_of_uint]; try rewrite py_cons;
    constructor; try assumption; discriminate.
Qed.

Lemma one_line_decimal (n : Z) : one_line (decimal n).
Proof.
  assert (Hu : forall u, one_line (py (NilZero.string_of_uint u))).
  { intros u. unfold NilZero.string_of_uint.
    destruct u; try apply one_line_uint.
    rewrite py_cons. constructor; [discriminate | constructor]. }
  unfold decimal, NilZero.string_of_int.
  destruct (Z.to_int n) as [u|u]; [apply Hu|].
  rewrite py_cons. constructor; [discriminate | apply Hu].
Qed.

Lemma hex_digit_not_lf (d : N) : hex_digit d <> LF.
Proof. unfold hex_digit, LF. destruct (N.ltb d 10); lia. Qed.

Lemma one_line_hex4 (n : N) : one_line (hex4 n).
Proof. unfold hex4. repeat constructor; apply hex_digit_not_lf. Qed.

Ltac solve_one_line :=
  unfold one_line;
  repeat match goal with
  | |- Forall _ [] => constructor
  | |- Forall _ (py (String _ _)) => rewrite py_cons
  | |- Forall _ (py EmptyString) => constructor
  | |- Forall _ (_ :: _) => constructor
  | |- Forall _ (_ ++ _) => apply Forall_app; split
  | |- Forall _ (hex4 _) => apply one_line_hex4
  | |- hex_digit _ <> LF => apply hex_digit_not_lf
  | |- _ <> LF => assumption
  | |- _ <> LF => vm_compute; discriminate
  end.

Lemma one_line_escape (c : N) : one_line (escape_ascii c).
Proof.
  unfold escape_ascii.
  destruct (N.eqb_spec c 10) as [->|Hlf]; [vm_compute; repeat constructor; discriminate|].
  change 10%N with LF in Hlf.
  repeat match goal with
  | |- one_line (if ?b then _ else _) => destruct b
  end; cbv zeta; solve_one_line.
Qed.

Lemma one_line_basestring (s : str) : one_line (encode_basestring_ascii s).
Proof.
  unfold encode_basestring_ascii. constructor; [discriminate|].
  apply one_line_app; [|solve_one_line].
  induction s; simpl; [constructor|]. apply one_line_app; [apply one_line_escape|assumption].
Qed.

Lemma result_map_Forall {A B} (f : A -> result B) (Q : B -> Prop) (l : list A) :
  Forall (fun a => forall b, f a = Ok b -> Q b) l ->
  forall bs, result_map f l = Ok bs -> Forall Q bs.
Proof.
  induction 1 as [|a rest Ha Hrest IH]; simpl; intros bs H.
  - inversion H. constructor.
  - destruct (f a) as [b|e] eqn:Hb; simpl in H; [|discriminate].
    destruct (result_map f rest) as [bs'|e] eqn:Hbs; simpl in H; [|discriminate].
    inversion H. subst. constructor; auto.
Qed.

Section Facts.
Context {runtime : PyRuntime}.

Lemma int_repr_Ok (n : Z) (s : str) : int_repr n = Ok s -> s = decimal n.
Proof.
  unfold int_repr. destruct (too_many_digits _ _); [discriminate|].
  intros H. inversion H. reflexivity.
Qed.

Lemma int_repr_raises (n : Z) (e : exn) : int_repr n = Err e -> e = ValueError.
Proof.
  unfold int_repr. destruct (too_many_digits _ _); [|discriminate].
  intros H. inversion H. reflexivity.
Qed.

Lemma int_repr_fits (n : Z) : int_fits n = true -> int_repr n = Ok (decimal n).
Proof.
  unfold int_fits, int_repr. destruct (too_many_digits _ _);
    [discriminate | reflexivity].
Qed.

Hypothesis float_repr_one_line : forall x, one_line (float_repr x).

Lemma one_line_floatstr (x : float) : one_line (floatstr x).
Proof.
  unfold floatstr.
  repeat match goal with
  | |- one_line (if ?b then _ else _) => destruct b
  end; try solve [solve_one_line]. apply float_repr_one_line.
Qed.

Lemma one_line_brackets (l : N) (r : str) (ss : list str) :
  l <> LF -> one_line r -> Forall one_line ss ->
  one_line (l :: join (py ", ") ss ++ r).
Proof.
  intros Hl Hr Hss. constructor; [assumption|].
  apply one_line_app; [|assumption].
  apply one_line_join; [solve_one_line|assumption].
Qed.

Lemma one_line_encode (v : value) :
  forall depth s, encode depth v = Ok s -> one_line s.
Proof.
  induction v as [ | b | n | x | s0 | l IH | l IH | d IH | t ] using value_ind;
    intros depth s H; cbn [encode] in H.
  - inversion H. solve_one_line.
  - destruct b; inversion H; solve_one_line.
  - apply int_repr_Ok in H. subst. apply one_line_decimal.
  - inversion H. apply one_line_floatstr.
  - inversion H. apply one_line_basestring.
  - destruct depth as [|depth]; [discriminate|].
    destruct l as [|v l']; [inversion H; solve_one_line|].
    destruct (result_map (encode depth) (v :: l')) as [ss|e] eqn:Hss;
      cbn [rbind] in H; [|discriminate].
    inversion H. apply one_line_brackets; try solve [solve_one_line].
    eapply result_map_Forall; [|exact Hss].
    eapply Forall_impl; [|exact IH]. cbv beta. intros a Ha b. apply Ha.
  - destruct depth as [|depth]; [discriminate|].
    destruct l as [|v l']; [inversion H; solve_one_line|].
    destruct (result_map (encode depth) (v :: l')) as [ss|e] eqn:Hss;
      cbn [rbind] in H; [|discriminate].
    inversion H. apply one_line_brackets; try solve [solve_one_line].
    eapply result_map_Forall; [|exact Hss].
    eapply Forall_impl; [|exact IH]. cbv beta. intros a Ha b. apply Ha.
  - destruct depth as [|depth]; [discriminate|].
    destruct d as [|kv d']; [inversion H; solve_one_line|].
    match type of H with
    | (rbind ?m _ = _) =>
        destruct m as [ss|e] eqn:Hss; cbn [rbind] in H; [|discriminate]
    end.
    inversion H. apply one_line_brackets; try solve [solve_one_line].
    eapply result_map_Forall; [|exact Hss].
    eapply Forall_impl; [|exact IH]. cbv beta. intros [k v] Hv b.
    cbn [fst snd] in *.
    destruct (encode_key k) as [ks|]; cbn [rbind]; [|discriminate].
    destruct (encode depth v) as [vs|] eqn:Hvs; cbn [rbind]; [|discriminate].
    intros Hb. inversion Hb.
    change (one_line (encode_basestring_ascii ks ++ py ": " ++ vs)).
    apply one_line_app; [apply one_line_basestring|].
    apply one_line_app; [solve_one_line|]. exact (Hv depth vs Hvs).
  - destruct depth as [|[|depth]]; discriminate.
Qed.

End Facts.

Section Serializable.
Context {runtime : PyRuntime}.

Lemma encode_key_serializable (k : value) :
  (key_serializable k = false -> encode_key k = Err TypeError)
  /\ (forall s, encode_key k = Ok s -> key_serializable k = true)
  /\ (forall e, encode_key k = Err e -> e = TypeError \/ e = ValueError).
Proof.
  destruct k as [ | [|] | n | | | | | | ]; cbn [encode_key key_serializable];
    repeat split; intros; try discriminate; try reflexivity;
    try (left; congruence).
  right. eapply int_repr_raises. eassumption.
Qed.

Lemma result_map_raises {A B} (f : A -> result B) (Q : exn -> Prop) (l : list A) :
  Forall (fun a => forall e, f a = Err e -> Q e) l ->
  forall e, result_map f l = Err e -> Q e.
Proof.
  induction 1 as [|a rest Ha Hrest IH]; cbn [result_map]; intros e H.
  - discriminate.
  - destruct (f a) as [b|e1] eqn:Hb; cbn [rbind] in H.
    + destruct (result_map f rest) as [bs'|e2] eqn:Hbs; cbn [rbind] in H;
        [discriminate|].
      inversion H. subst. auto.
    + inversion H. subst. auto.
Qed.

(** What the encoder raises. *)
Lemma encode_raises (v : value) :
  forall depth e, encode depth v = Err e -> encode_error e.
Proof.
  induction v as [ | b | n | x | s0 | l IH | l IH | d IH | t ] using value_ind;
    intros depth e H; cbn [encode] in H; try discriminate.
  - destruct b; discriminate.
  - apply int_repr_raises in H. subst. right. right. reflexivity.
  - destruct depth as [|depth]; [inversion H; right; left; reflexivity|].
    destruct l as [|v l']; [discriminate|].
    destruct (result_map (encode depth) (v :: l')) as [ss|e'] eqn:Hss;
      cbn [rbind] in H; [discriminate|].
    inversion H. subst. eapply result_map_raises; [|exact Hss].
    eapply Forall_impl; [|exact IH]. cbv beta. intros a Ha. apply Ha.
  - destruct depth as [|depth]; [inversion H; right; left; reflexivity|].
    destruct l as [|v l']; [discriminate|].
    destruct (result_map (encode depth) (v :: l')) as [ss|e'] eqn:Hss;
      cbn [rbind] in H; [discriminate|].
    inversion H. subst. eapply result_map_raises; [|exact Hss].
    eapply Forall_impl; [|exact IH]. cbv beta. intros a Ha. apply Ha.
  - destruct depth as [|depth]; [inversion H; right; left; reflexivity|].
    destruct d as [|kv d']; [discriminate|].
    match type of H with
    | (rbind ?m _ = _) =>
        destruct m as [ss|e'] eqn:Hss; cbn [rbind] in H; [discriminate|]
    end.
    inversion H. subst. eapply result_map_raises; [|exact Hss].
    eapply Forall_impl; [|exact IH]. cbv beta. intros [k v] Hv e'.
    cbn [fst snd] in *.
    destruct (encode_key k) as [ks|e1] eqn:Hk; cbn [rbind].
    + destruct (encode depth v) as [vs|e2] eqn:Hv'; cbn [rbind]; [discriminate|].
      intros He. inversion He. subst. exact (Hv depth e' Hv').
    + intros He. inversion He. subst.
      destruct (encode_key_serializable k) as [_ [_ Hraise]].
      destruct (Hraise _ Hk) as [-> | ->];
        [left; reflexivity | right; right; reflexivity].
  - destruct depth as [|[|depth]]; inversion H;
      [right; left | right; left | left]; reflexivity.
Qed.

Lemma result_map_Ok_inv {A B} (f : A -> result B) (l : list A) (bs : list B) :
  result_map f l = Ok bs -> Forall (fun a => exists b, f a = Ok b) l.
Proof.
  revert bs. induction l as [|a rest IH]; simpl; intros bs H; [constructor|].
  destruct (f a) as [b|] eqn:Hb; simpl in H; [|discriminate].
  destruct (result_map f rest) as [bs'|] eqn:Hbs; simpl in H; [|discriminate].
  constructor; eauto.
Qed.

(** What the encoder writes has nothing in it that has no notation. *)
Lemma encodes_serializable (v : value) :
  forall depth s, encode depth v = Ok s -> serializable v = true.
Proof.
  induction v as [ | b | n | x | s0 | l IH | l IH | d IH | t ] using value_ind;
    cbn [encode serializable]; intros depth s H; try reflexivity.
  - destruct depth as [|depth]; [discriminate|].
    destruct l as [|v l']; [reflexivity|].
    destruct (result_map (encode depth) (v :: l')) as [ss|] eqn:Hss;
      cbn [rbind] in H; [|discriminate].
    apply result_map_Ok_inv in Hss. apply forallb_forall. intros a Ha.
    rewrite Forall_forall in IH, Hss. destruct (Hss _ Ha) as [b Hb]. eauto.
  - destruct depth as [|depth]; [discriminate|].
    destruct l as [|v l']; [reflexivity|].
    destruct (result_map (encode depth) (v :: l')) as [ss|] eqn:Hss;
      cbn [rbind] in H; [|discriminate].
    apply result_map_Ok_inv in Hss. apply forallb_forall. intros a Ha.
    rewrite Forall_forall in IH, Hss. destruct (Hss _ Ha) as [b Hb]. eauto.
  - destruct depth as [|depth]; [discriminate|].
    destruct d as [|kv d']; [reflexivity|].
    match type of H with
    | (rbind ?m _ = _) =>
        destruct m as [ss|] eqn:Hss; cbn [rbind] in H; [|discriminate]
    end.
    apply result_map_Ok_inv in Hss. apply forallb_forall. intros [k v] Ha.
    rewrite Forall_forall in IH, Hss. destruct (Hss _ Ha) as [b Hb].
    specialize (IH _ Ha). cbn [fst snd] in *.
    destruct (encode_key_serializable k) as [_ [Hk _]].
    destruct (encode_key k) as [ks|]; cbn [rbind] in Hb; [|discriminate].
    rewrite (Hk ks eq_refl).
    destruct (encode depth v) as [vs|] eqn:Hv; cbn [rbind] in Hb; [|discriminate].
    cbn [andb]. eauto.
  - destruct depth as [|[|depth]]; discriminate.
Qed.

(** A value with something in it that has no notation is not encoded. *)
Lemma unserializable_raises (v : value) (depth : nat) :
  serializable v = false ->
  exists e, encode depth v = Err e /\ encode_error e.
Proof.
  intros H. destruct (encode depth v) as [s|e] eqn:He.
  - apply encodes_serializable in He. congruence.
  - exists e. split; [reflexivity|]. exact (encode_raises v depth He).
Qed.

(** Within the limits of the interpreter the encoder raises nothing but
    [TypeError]. *)
Lemma encode_fits_raises (v : value) :
  forall depth e, fits depth v = true -> encode depth v = Err e -> e = TypeError.
Proof.
  induction v as [ | b | n | x | s0 | l IH | l IH | d IH | t ] using value_ind;
    intros depth e Hfits H; cbn [encode fits] in H, Hfits; try discriminate.
  - destruct b; discriminate.
  - rewrite (int_repr_fits n Hfits) in H. discriminate.
  - destruct depth as [|depth]; [discriminate|].
    destruct l as [|v l']; [discriminate|].
    destruct (result_map (encode depth) (v :: l')) as [ss|e'] eqn:Hss;
      cbn [rbind] in H; [discriminate|].
    inversion H. subst.
    refine (@result_map_raises _ _ _ (fun e => e = TypeError) _ _ _ Hss).
    rewrite forallb_forall in Hfits. rewrite Forall_forall in *.
    intros a Ha e'. apply IH; auto.
  - destruct depth as [|depth]; [discriminate|].
    destruct l as [|v l']; [discriminate|].
    destruct (result_map (encode depth) (v :: l')) as [ss|e'] eqn:Hss;
      cbn [rbind] in H; [discriminate|].
    inversion H. subst.
    refine (@result_map_raises _ _ _ (fun e => e = TypeError) _ _ _ Hss).
    rewrite forallb_forall in Hfits. rewrite Forall_forall in *.
    intros a Ha e'. apply IH; auto.
  - destruct depth as [|depth]; [discriminate|].
    destruct d as [|kv d']; [discriminate|].
    match type of H with
    | (rbind ?m _ = _) =>
        destruct m as [ss|e'] eqn:Hss; cbn [rbind] in H; [discriminate|]
    end.
    inversion H. subst.
    refine (@result_map_raises _ _ _ (fun e => e = TypeError) _ _ _ Hss).
    rewrite forallb_forall in Hfits. rewrite Forall_forall in *.
    intros [k v] Ha e'. specialize (Hfits _ Ha). specialize (IH _ Ha).
    cbn [fst snd] in *. apply andb_prop in Hfits. destruct Hfits as [Hk Hv].
    destruct (encode_key k) as [ks|e1] eqn:Hks; cbn [rbind].
    + destruct (encode depth v) as [vs|e2] eqn:Hv'; cbn [rbind]; [discriminate|].
      intros He. inversion He. subst. exact (IH depth e' Hv Hv').
    + intros He. inversion He. subst.
      destruct k; cbn [encode_key] in Hks; try (inversion Hks; reflexivity);
        try discriminate.
      * destruct b; discriminate.
      * rewrite (int_repr_fits n Hk) in Hks. discriminate.
  - destruct depth as [|[|depth]]; try discriminate.
    inversion H. reflexivity.
Qed.

End Serializable.

(** ** A call on a live bridge *)

Section Bridge.
Context {runtime : PyRuntime}.

Lemma json_dumps_raises (v : value) (e : exn) :
  json_dumps v = Err e -> encode_error e.
Proof. apply encode_raises. Qed.

Local Opaque json_dumps json_loads.

Lemma json_loads_empty : json_loads [] = Err JSONDecodeError.
Proof. Local Transparent json_loads. reflexivity. Local Opaque json_loads. Qed.

Ltac unfold_call :=
  cbv [_send_command poll stdin_write stdin_flush stdout_readline
       set_stdin set_stdout_data set_returncode
       bind ret raise hang lift try_except self_process
       process returncode stdin_closed stdin_pending stdin_data pipe_broken
       stdout_data stdout_eof exit_status on_eof on_sigterm fst snd alive].

Lemma command_line_not_empty (pending command : str) :
  pending ++ command ++ [LF] <> [].
Proof. destruct pending; [destruct command|]; discriminate. Qed.

(** Only a dead child makes the liveness check fail: a call on a bridge
    whose child runs does not end with the exception of that check. *)
Lemma live_call_passes_liveness_check (action : str) (args : value) (h : Hive) :
  alive h ->
  fst (_send_command action args h) <>
    Raise (RuntimeError (py "Hive Node.js process has terminated unexpectedly.")).
Proof.
  destruct h as [[rc closed pending data broken out eof status oneof onterm]].
  intros [Hrc Hst]. cbn [process returncode exit_status] in Hrc, Hst. subst.
  unfold_call.
  destruct (json_dumps (envelope action args)) as [command|e] eqn:Hdumps.
  2: { destruct (json_dumps_raises _ Hdumps) as [->|[->| ->]]; discriminate. }
  cbv beta iota.
  destruct closed; [discriminate|].
  destruct (pending ++ command ++ [LF]) eqn:Hp.
  { destruct pending; [destruct command|]; discriminate. }
  destruct broken; [discriminate|].
  destruct (split_line out) as [[line rest]|]; [|destruct eof; [|discriminate]].
  all: cbv beta iota.
  all: match goal with
       | |- context [truthy (PyStr ?l)] => destruct l as [|c l']
       end; cbn [truthy negb]; try discriminate.
  all: match goal with
       | |- context [json_loads ?l] =>
           let H := fresh "Hloads" in
           destruct (json_loads l) as [response|e] eqn:H;
           [ | destruct (json_loads_raises _ H) as [->|[->| ->]]; discriminate ]
       end.
  all: destruct response as [ | | | | | | | d | ]; cbn [py_get py_getitem];
         try discriminate.
  all: destruct (dict_get d (py "error")) as [error|]; cbn [truthy];
         [ destruct (truthy error); [| discriminate] | discriminate ].
  all: intros H; inversion H.
Qed.

(** A line read from the child is empty only at the end of the stream. *)
Lemma split_line_not_empty (data line rest : str) :
  split_line data = Some (line, rest) -> line <> [].
Proof.
  destruct data as [|c data']; simpl; [discriminate|].
  destruct (N.eqb c LF); [intros H; inversion H; discriminate|].
  destruct (split_line data') as [[l r]|]; intros H; inversion H; discriminate.
Qed.

(** The call on a bridge that can talk to its child, up to the line it
    reads: the command is delivered and one line is taken from the output
    of the child. *)
Ltac enter_call h Halive Hwritable Hdumps Hline :=
  let rc := fresh "rc" in let closed := fresh "closed" in
  let pending := fresh "pending" in let data := fresh "data" in
  let broken := fresh "broken" in let out := fresh "out" in
  let eof := fresh "eof" in let status := fresh "status" in
  let oneof := fresh "oneof" in let onterm := fresh "onterm" in
  destruct h as [[rc closed pending data broken out eof status oneof onterm]];
  destruct Halive as [?Hrc ?Hst]; destruct Hwritable as [?Hcl ?Hbr];
  cbn [process returncode exit_status stdin_closed pipe_broken] in *;
  subst rc status closed broken;
  unfold_call; rewrite Hdumps; cbv beta iota;
  let Hp := fresh "Hp" in
  destruct (pending ++ _ ++ [LF]) eqn:Hp;
  [ exfalso; exact (command_line_not_empty _ _ Hp) | ];
  revert Hline; unfold stdout_readline;
  cbn [process stdout_data stdout_eof];
  let Hs := fresh "Hs" in
  destruct (split_line out) as [[? ?]|] eqn:Hs;
  [ | destruct eof ];
  cbn [fst]; intros Hline; inversion Hline; subst.

(** Claim C3.  On a bridge that can talk to its child, a call whose
    [readline()] returns the empty string (the child has closed its output
    without a reply) raises [RuntimeError] with the message "Hive Node.js
    process closed the connection (no response).".  The failure is not
    terminal: the call leaves the return code unset and the child running,
    so [poll()] finds nothing and no call made next, whatever its action
    and args, ends with the exception of the liveness check. *)
Theorem empty_line_raises_and_is_not_terminal :
  forall (action : str) (args : value) (h : Hive) (command : str),
    alive h -> writable h ->
    json_dumps (envelope action args) = Ok command ->
    fst (stdout_readline (process h)) = Return [] ->
    fst (_send_command action args h) =
      Raise (RuntimeError
        (py "Hive Node.js process closed the connection (no response)."))
    /\ alive (snd (_send_command action args h))
    /\ fst (self_process poll (snd (_send_command action args h))) = Return None
    /\ (forall (action' : str) (args' : value),
          fst (_send_command action' args' (snd (_send_command action args h))) <>
            Raise (RuntimeError
              (py "Hive Node.js process has terminated unexpectedly."))).
Proof.
  intros action args h command Halive Hwritable Hdumps Hline.
  assert (Hstate : alive (snd (_send_command action args h))
            /\ fst (self_process poll (snd (_send_command action args h))) =
                 Return None
            /\ fst (_send_command action args h) =
                 Raise (RuntimeError
                   (py "Hive Node.js process closed the connection (no response).")));
    [| destruct Hstate as [Hlive [Hpoll Hraise]];
       repeat split; try assumption; try apply Hlive;
       intros action' args'; apply live_call_passes_liveness_check; assumption ].
  enter_call h Halive Hwritable Hdumps Hline.
  - exfalso. eapply split_line_not_empty; eauto.
  - cbn. repeat split.
Qed.


(** After the line has been read: the reply is not empty, it is decoded
    and the decoded dictionary is inspected. *)
Ltac read_reply line Hloads :=
  destruct line as [|?c ?line'];
  [ try (rewrite json_loads_empty in Hloads); try discriminate; try congruence
  | cbn [truthy negb]; rewrite Hloads; cbn [py_get py_getitem] ].

(** The reply of the child carries a non-empty error text. *)
Lemma send_command_error_reply :
  forall (action : str) (args : value) (h : Hive) (command line : str)
         (d : list (value * value)) (x : str),
    alive h -> writable h ->
    json_dumps (envelope action args) = Ok command ->
    fst (stdout_readline (process h)) = Return line ->
    json_loads line = Ok (PyDict d) ->
    dict_get d (py "error") = Some (PyStr x) ->
    x <> [] ->
    fst (_send_command action args h) =
      Raise (RuntimeError (py "Hive Error: " ++ x))
    /\ alive (snd (_send_command action args h))
    /\ fst (self_process poll (snd (_send_command action args h))) = Return None
    /\ (forall (action' : str) (args' : value),
          fst (_send_command action' args' (snd (_send_command action args h))) <>
            Raise (RuntimeError
              (py "Hive Node.js process has terminated unexpectedly."))).
Proof.
  intros action args h command line d x Halive Hwritable Hdumps Hline
         Hloads Herror Hx.
  assert (Hstate : alive (snd (_send_command action args h))
            /\ fst (self_process poll (snd (_send_command action args h))) =
                 Return None
            /\ fst (_send_command action args h) =
                 Raise (RuntimeError (py "Hive Error: " ++ x)));
    [| destruct Hstate as [Hlive [Hpoll Hraise]];
       repeat split; try assumption; try apply Hlive;
       intros action' args'; apply live_call_passes_liveness_check; assumption ].
  enter_call h Halive Hwritable Hdumps Hline;
    read_reply line Hloads; rewrite Herror;
    (destruct x; [congruence|]); cbn; repeat split.
Qed.

(** Claim C1, as amended.  On a bridge that can talk to its child, when
    the line read decodes to a dictionary whose ["error"] is a non-empty
    string [x], the call raises [RuntimeError] with the message
    ["Hive Error: "] followed by [x].  The bridge is not marked terminated:
    the return code stays unset and the child runs, so [poll()] finds
    nothing and no call made next, whatever its action and args, ends with
    the exception of the liveness check. *)
Theorem remote_error_raises_hive_error :
  forall (action : str) (args : value) (h : Hive) (command line : str)
         (d : list (value * value)) (x : str),
    alive h -> writable h ->
    json_dumps (envelope action args) = Ok command ->
    fst (stdout_readline (process h)) = Return line ->
    json_loads line = Ok (PyDict d) ->
    dict_get d (py "error") = Some (PyStr x) ->
    x <> [] ->
    fst (_send_command action args h) =
      Raise (RuntimeError (py "Hive Error: " ++ x))
    /\ alive (snd (_send_command action args h))
    /\ fst (self_process poll (snd (_send_command action args h))) = Return None
    /\ (forall (action' : str) (args' : value),
          fst (_send_command action' args' (snd (_send_command action args h))) <>
            Raise (RuntimeError
              (py "Hive Node.js process has terminated unexpectedly."))).
Proof.
  intros action args h command line d x Halive Hwritable Hdumps Hline
         Hloads Herror Hx.
  exact (@send_command_error_reply action args h command line d x Halive
           Hwritable Hdumps Hline Hloads Herror Hx).
Qed.

(** Claim C8, as amended.  On a bridge that can talk to its child, when
    the line read is not empty and [json.loads] raises on it, what it
    raises is [JSONDecodeError], [RecursionError] or [ValueError].  For
    [JSONDecodeError] the call raises [RuntimeError] with the message
    "Failed to decode response from Hive: " followed by the line as it was
    read, which is not the exception of the empty line.  The other two, of
    a line nested as deep as the recursion limit allows or with an integer
    beyond the digit limit, leave the call as they are: no clause catches
    them. *)
Theorem malformed_line_raises_with_line :
  forall (action : str) (args : value) (h : Hive) (command line : str)
         (e : exn),
    alive h -> writable h ->
    json_dumps (envelope action args) = Ok command ->
    fst (stdout_readline (process h)) = Return line ->
    line <> [] ->
    json_loads line = Err e ->
    decode_error e
    /\ (e = JSONDecodeError ->
        fst (_send_command action args h) =
          Raise (RuntimeError
            (py "Failed to decode response from Hive: " ++ line)))
    /\ (e <> JSONDecodeError -> fst (_send_command action args h) = Raise e)
    /\ RuntimeError (py "Failed to decode response from Hive: " ++ line) <>
       RuntimeError
         (py "Hive Node.js process closed the connection (no response).").
Proof.
  intros action args h command line e Halive Hwritable Hdumps Hline
         Hne Hloads.
  pose proof (json_loads_raises _ Hloads) as Herror.
  split; [exact Herror|]. split; [|split; [|discriminate]].
  - intros ->.
    enter_call h Halive Hwritable Hdumps Hline;
      read_reply line Hloads; reflexivity.
  - intros Hother.
    destruct Herror as [->|[->| ->]]; [congruence| |];
      enter_call h Halive Hwritable Hdumps Hline;
      read_reply line Hloads; reflexivity.
Qed.

(** A dictionary lookup finds the item with the key, and none when there
    is no such item. *)
Lemma str_eqb_eq (a b : str) : str_eqb a b = true <-> a = b.
Proof.
  revert b. induction a as [|x a IH]; intros [|y b]; cbn [str_eqb];
    split; intros H; try discriminate; try reflexivity.
  - apply andb_prop in H. destruct H as [Hxy Hab].
    apply N.eqb_eq in Hxy. apply IH in Hab. congruence.
  - inversion H. subst. rewrite N.eqb_refl. cbn [andb]. apply IH. reflexivity.
Qed.

Lemma key_is_eq (k : str) (v : value) : key_is k v = true <-> v = PyStr k.
Proof.
  destruct v; cbn [key_is]; split; intros H; try discriminate.
  - apply str_eqb_eq in H. congruence.
  - inversion H. apply str_eqb_eq. reflexivity.
Qed.

Lemma dict_get_In (d : list (value * value)) (k : str) (v : value) :
  NoDup (map fst d) -> In (PyStr k, v) d -> dict_get d k = Some v.
Proof.
  induction d as [|[k' v'] d IH]; intros Hnodup Hin; [destruct Hin|].
  cbn [map fst] in Hnodup. inversion Hnodup as [|? ? Hfresh Hrest]. subst.
  cbn [dict_get]. destruct (key_is k k') eqn:Hk.
  - apply key_is_eq in Hk. subst k'. destruct Hin as [Heq|Hin].
    + inversion Heq. reflexivity.
    + exfalso. apply Hfresh. apply (in_map fst) in Hin. exact Hin.
  - destruct Hin as [Heq|Hin]; [|exact (IH Hrest Hin)].
    inversion Heq. subst.
    assert (Htrue : key_is k (PyStr k) = true) by (apply key_is_eq; reflexivity).
    congruence.
Qed.

Lemma dict_get_not_In (d : list (value * value)) (k : str) :
  (forall v, ~ In (PyStr k, v) d) -> dict_get d k = None.
Proof.
  induction d as [|[k' v'] d IH]; intros Hnot; [reflexivity|].
  cbn [dict_get]. destruct (key_is k k') eqn:Hk.
  - apply key_is_eq in Hk. subst k'. exfalso. apply (Hnot v'). left. reflexivity.
  - apply IH. intros v Hin. apply (Hnot v). right. exact Hin.
Qed.

(** The dictionaries the decoder builds have no key twice. *)
Lemma dict_set_keys (d : list (value * value)) (k : str) (v x : value) :
  In x (map fst (dict_set d k v)) -> In x (map fst d) \/ x = PyStr k.
Proof.
  induction d as [|[k' v'] d IH]; cbn [dict_set map fst In].
  - intros [H|[]]. right. congruence.
  - destruct (key_is k k'); cbn [map fst In]; [tauto|].
    intros [H|H]; [tauto|]. destruct (IH H); tauto.
Qed.

Lemma dict_set_NoDup (d : list (value * value)) (k : str) (v : value) :
  NoDup (map fst d) -> NoDup (map fst (dict_set d k v)).
Proof.
  induction d as [|[k' v'] d IH]; cbn [dict_set map fst]; intros Hnodup.
  - constructor; [intros []|constructor].
  - inversion Hnodup as [|? ? Hfresh Hrest]. subst.
    destruct (key_is k k') eqn:Hk; cbn [map fst].
    + constructor; assumption.
    + constructor; [|exact (IH Hrest)].
      intros Hin. destruct (dict_set_keys _ _ _ _ Hin) as [Hold | ->];
        [exact (Hfresh Hold)|].
      assert (Htrue : key_is k (PyStr k) = true) by (apply key_is_eq; reflexivity).
      congruence.
Qed.

Lemma dict_of_pairs_NoDup (pairs : list (str * value)) :
  NoDup (map fst (dict_of_pairs pairs)).
Proof.
  unfold dict_of_pairs.
  assert (H : forall acc, NoDup (map fst acc) ->
              NoDup (map fst (fold_left
                (fun d kv => dict_set d (fst kv) (snd kv)) pairs acc))).
  { induction pairs as [|[k v] pairs IH]; intros acc Hacc; [exact Hacc|].
    cbn [fold_left fst snd]. apply IH. apply dict_set_NoDup. exact Hacc. }
  apply H. constructor.
Qed.

Lemma scan_once_dict_keys (fuel depth : nat) (s r : str)
      (d : list (value * value)) :
  scan_once fuel depth s = Ok (PyDict d, r) -> NoDup (map fst d).
Proof.
  destruct fuel as [|fuel]; [discriminate|]. cbn [scan_once].
  destruct s as [|c t]; [discriminate|].
  destruct (N.eqb c QUOTE).
  { destruct (scanstring_at depth t) as [[k r']|]; cbn [rbind];
      [intros H; inversion H | discriminate]. }
  destruct (N.eqb c 123).
  { destruct depth as [|depth]; [discriminate|].
    destruct (skip_ws t) as [|c1 r1]; [discriminate|].
    destruct (N.eqb c1 125); [intros H; inversion H; constructor|].
    destruct (N.eqb c1 QUOTE); [|discriminate].
    destruct (parse_pairs fuel depth r1 []) as [[pairs r']|]; cbn [rbind];
      [|discriminate].
    intros H. inversion H. apply dict_of_pairs_NoDup. }
  destruct (N.eqb c 91).
  { destruct depth as [|depth]; [discriminate|].
    destruct (skip_ws t) as [|c1 r1]; [discriminate|].
    destruct (N.eqb c1 93); [intros H; inversion H|].
    destruct (parse_items fuel depth (c1 :: r1) []) as [[vs r']|]; cbn [rbind];
      [intros H; inversion H | discriminate]. }
  repeat match goal with
  | |- match strip_prefix ?p ?t with _ => _ end = _ -> _ =>
      destruct (strip_prefix p t);
      [unfold parse_constant; try destruct depth; intros H; inversion H|]
  | |- match match_number ?t with _ => _ end = _ -> _ =>
      destruct (match_number t) as [[[[|] ?text] ?]|];
      [ intros H; inversion H
      | destruct (int_of_str text); cbn [rbind]; intros H; inversion H
      | ]
  end.
  discriminate.
Qed.

Lemma json_loads_dict_keys (line : str) (d : list (value * value)) :
  json_loads line = Ok (PyDict d) -> NoDup (map fst d).
Proof.
  destruct line as [|c r]; [discriminate|].
  rewrite json_loads_unfold.
  destruct (scan_once (2 * List.length (c :: r) + 1) recursion_limit
              (skip_ws (c :: r))) as [[obj r']|] eqn:Hscan; cbn [rbind];
    [|discriminate].
  destruct (skip_ws r'); [|discriminate].
  intros H. inversion H. subst. exact (scan_once_dict_keys _ _ _ Hscan).
Qed.


(** Claim C2.  On a bridge that can talk to its child, let the line read
    decode to a dictionary in which ["error"] is absent or a string (a
    well-formed response envelope); the fields of the envelope are the
    items of that dictionary.  Then the call raises if and only if the
    envelope has an ["error"] that is not empty, in which case it raises
    [RuntimeError] "Hive Error: ..." with that text; otherwise it returns
    the ["data"] of the envelope, and [None] when the envelope has no
    ["data"]: a ["data"] that is null comes back as [None], not as an
    error. *)
Theorem response_fails_iff_error_nonempty :
  forall (action : str) (args : value) (h : Hive) (command line : str)
         (d : list (value * value)),
    alive h -> writable h ->
    json_dumps (envelope action args) = Ok command ->
    fst (stdout_readline (process h)) = Return line ->
    json_loads line = Ok (PyDict d) ->
    ((forall v, ~ In (PyStr (py "error"), v) d) \/
     exists x, In (PyStr (py "error"), PyStr x) d) ->
    ((exists e, fst (_send_command action args h) = Raise e) <->
     (exists x, In (PyStr (py "error"), PyStr x) d /\ x <> []))
    /\ (forall x, In (PyStr (py "error"), PyStr x) d -> x <> [] ->
        fst (_send_command action args h) =
          Raise (RuntimeError (py "Hive Error: " ++ x)))
    /\ ((forall x, In (PyStr (py "error"), PyStr x) d -> x = []) ->
        (forall data, In (PyStr (py "data"), data) d ->
           fst (_send_command action args h) = Return data)
        /\ ((forall data, ~ In (PyStr (py "data"), data) d) ->
            fst (_send_command action args h) = Return PyNone)).
Proof.
  intros action args h command line d Halive Hwritable Hdumps Hline
         Hloads Hwf.
  pose proof (json_loads_dict_keys _ Hloads) as Hkeys.
  assert (Hraise : forall x, In (PyStr (py "error"), PyStr x) d ->
            x <> [] ->
            fst (_send_command action args h) =
              Raise (RuntimeError (py "Hive Error: " ++ x))).
  { intros x Herror Hx.
    apply (@send_command_error_reply action args h command line d x);
      try assumption.
    exact (dict_get_In _ _ _ Hkeys Herror). }
  assert (Hreturn : (forall x, In (PyStr (py "error"), PyStr x) d -> x = []) ->
            fst (_send_command action args h) =
              Return (match dict_get d (py "data") with
                      | Some data => data
                      | None => PyNone
                      end)).
  { intros Hempty.
    assert (Hget : dict_get d (py "error") = None \/
                   dict_get d (py "error") = Some (PyStr [])).
    { destruct Hwf as [Hnone | [x Hsome]].
      - left. exact (dict_get_not_In _ _ Hnone).
      - right. rewrite (dict_get_In _ _ _ Hkeys Hsome).
        rewrite (Hempty x Hsome). reflexivity. }
    enter_call h Halive Hwritable Hdumps Hline;
      read_reply line Hloads;
      (destruct Hget as [Hget | Hget]; rewrite Hget); reflexivity. }
  split; [split|split; [assumption|]].
  - intros [e He].
    destruct Hwf as [Hnone | [x Hsome]].
    + rewrite Hreturn in He; [discriminate|].
      intros x Hx. destruct (Hnone _ Hx).
    + destruct x as [|c x'].
      * rewrite Hreturn in He; [discriminate|]. intros y Hy.
        pose proof (dict_get_In _ _ _ Hkeys Hy) as H1.
        pose proof (dict_get_In _ _ _ Hkeys Hsome) as H2. congruence.
      * exists (c :: x'). split; [assumption|discriminate].
  - intros [x [Hsome Hx]]. eexists. apply (Hraise x Hsome Hx).
  - intros Hempty. rewrite (Hreturn Hempty). split.
    + intros data Hdata. rewrite (dict_get_In _ _ _ Hkeys Hdata). reflexivity.
    + intros Hnone. rewrite (dict_get_not_In _ _ Hnone). reflexivity.
Qed.

(** A call that finds the child dead stops at the liveness check. *)
Lemma send_command_dead (action : str) (args : value) (h : Hive) (rc : Z) :
  returncode (process h) = Some rc ->
  _send_command action args h =
    (Raise (RuntimeError
       (py "Hive Node.js process has terminated unexpectedly.")), h).
Proof.
  destruct h as [[rc0 closed pending data broken out eof status oneof onterm]].
  cbn [process returncode]. intros ->. reflexivity.
Qed.


(** What reaches the child: on a bridge that can talk to its child the
    call delivers the pending text and the command with its line feed,
    whatever happens afterwards. *)
Lemma send_command_delivers (action : str) (args : value) (h : Hive)
      (command : str) :
  alive h -> writable h ->
  json_dumps (envelope action args) = Ok command ->
  stdin_data (process (snd (_send_command action args h))) =
    stdin_data (process h) ++ stdin_pending (process h) ++ command ++ [LF]
  /\ stdin_pending (process (snd (_send_command action args h))) = [].
Proof.
  intros Halive Hwritable Hdumps.
  destruct h as [[rc closed pending data broken out eof status oneof onterm]].
  destruct Halive as [Hrc Hst]; destruct Hwritable as [Hcl Hbr].
  cbn [process returncode exit_status stdin_closed pipe_broken] in *.
  subst rc status closed broken.
  unfold_call. rewrite Hdumps. cbv beta iota.
  destruct (pending ++ command ++ [LF]) eqn:Hp;
    [exfalso; exact (command_line_not_empty _ _ Hp)|].
  destruct (split_line out) as [[line rest]|]; [|destruct eof];
    cbv beta iota;
    repeat match goal with
    | |- context [if negb (truthy ?v) then _ else _] =>
        destruct (negb (truthy v))
    | |- context [if truthy ?v then _ else _] => destruct (truthy v)
    | |- context [match json_loads ?l with _ => _ end] =>
        destruct (json_loads l) as [? | []]
    | |- context [match py_get ?r ?k with _ => _ end] =>
        destruct (py_get r k) as [? | []]
    | |- context [match py_getitem ?r ?k with _ => _ end] =>
        destruct (py_getitem r k) as [? | []]
    end; cbn; split; reflexivity.
Qed.

End Bridge.

(** ** Commands that cannot be encoded *)

Section Envelope.
Context {runtime : PyRuntime}.

Lemma envelope_serializable (action : str) (args : value) :
  serializable (envelope action args) = serializable (py_or args (PyDict [])).
Proof. unfold envelope. cbn. rewrite andb_true_r. reflexivity. Qed.

Lemma envelope_fits (action : str) (args : value) :
  fits recursion_limit (envelope action args) =
  fits (S nesting_room) (py_or args (PyDict [])).
Proof.
  unfold envelope, recursion_limit.
  cbn [fits forallb fst snd andb]. rewrite andb_true_r. reflexivity.
Qed.

(** An envelope whose args, true, hold something that has no notation is
    not encoded; within the limits of the interpreter the exception is
    [TypeError]. *)
Lemma envelope_unserializable (action : str) (args : value) :
  truthy args = true -> serializable args = false ->
  (exists e, json_dumps (envelope action args) = Err e)
  /\ (fits (S nesting_room) args = true ->
      json_dumps (envelope action args) = Err TypeError).
Proof.
  intros Ht Hs.
  assert (Henv : serializable (envelope action args) = false).
  { rewrite envelope_serializable. unfold py_or. rewrite Ht. exact Hs. }
  destruct (unserializable_raises (envelope action args) recursion_limit Henv)
    as [e [He _]].
  split; [exists e; exact He|].
  intros Hfits. unfold json_dumps. rewrite He. f_equal.
  apply (@encode_fits_raises _ (envelope action args) recursion_limit e);
    [|exact He].
  rewrite envelope_fits. unfold py_or. rewrite Ht. exact Hfits.
Qed.

Local Opaque json_dumps json_loads.

(** A call whose command cannot be encoded touches neither the input
    stream of the child nor, on a live bridge, anything else. *)
Lemma send_command_unencodable (action : str) (args : value) (e : exn) :
  json_dumps (envelope action args) = Err e ->
  forall h : Hive,
    stdin_data (process (snd (_send_command action args h))) =
      stdin_data (process h)
    /\ stdin_pending (process (snd (_send_command action args h))) =
      stdin_pending (process h)
    /\ (alive h -> _send_command action args h = (Raise e, h)).
Proof.
  intros Hdumps h.
  destruct h as [[rc closed pending data broken out eof status oneof onterm]].
  unfold alive.
  cbv [_send_command poll bind raise lift self_process set_returncode
       process returncode exit_status stdin_data stdin_pending].
  destruct rc as [rc|]; [|destruct status as [status|]];
    try rewrite Hdumps; cbn; repeat split; try reflexivity;
    intros [H1 H2]; discriminate.
Qed.

(** Claim C4, as amended.  When [json.dumps] raises on the envelope, what
    it raises is [TypeError], [RecursionError] or [ValueError]; the first
    and the last are no [RuntimeError], as the process and protocol
    failures are, while [RecursionError] is a subclass of it.  The call
    leaves the input stream of the child as it was, and on a live bridge it
    ends with that exception and the bridge unchanged.  This is what
    happens when the args, being true, hold something [json.dumps] has no
    notation for, an object of a foreign class as a value or as a key, at
    any depth; the exception is [TypeError] when the args are within the
    limits of the interpreter. *)
Theorem unserializable_args_raise_before_write :
  forall (action : str) (args : value) (h : Hive),
    (forall e, json_dumps (envelope action args) = Err e ->
       encode_error e
       /\ (e <> RecursionError -> is_RuntimeError e = false)
       /\ stdin_data (process (snd (_send_command action args h))) =
            stdin_data (process h)
       /\ stdin_pending (process (snd (_send_command action args h))) =
            stdin_pending (process h)
       /\ (alive h -> _send_command action args h = (Raise e, h)))
    /\ (truthy args = true -> serializable args = false ->
        (exists e, json_dumps (envelope action args) = Err e)
        /\ (fits (S nesting_room) args = true ->
            json_dumps (envelope action args) = Err TypeError)).
Proof.
  intros action args h. split.
  - intros e Hdumps.
    assert (Herror : encode_error e).
    { Local Transparent json_dumps.
      exact (@encode_raises _ _ _ _ Hdumps).
      Local Opaque json_dumps. }
    split; [exact Herror|]. split.
    + intros Hother. destruct Herror as [->|[->| ->]];
        [reflexivity | congruence | reflexivity].
    + exact (@send_command_unencodable action args e Hdumps h).
  - intros Ht Hs. exact (@envelope_unserializable action args Ht Hs).
Qed.

End Envelope.

(** ** The command on the wire *)

Section Wire.
Context {runtime : PyRuntime}.

Lemma one_line_count (s : str) : one_line s -> count_occ N.eq_dec s LF = 0%nat.
Proof.
  intros H. apply count_occ_not_In. intros Hin.
  unfold one_line in H. rewrite Forall_forall in H. exact (H LF Hin eq_refl).
Qed.

(** Claim C9.  For every action and every args for which [json.dumps]
    succeeds, the command has no line feed in it (provided the interpreter
    prints no float with one), the text written is the command followed by
    a line feed, the only one in it, and this is what a call on a bridge
    that can talk to its child adds to the input of the child. *)
Theorem command_is_a_single_line :
  forall (action : str) (args : value) (command : str),
    (forall x, one_line (float_repr x)) ->
    json_dumps (envelope action args) = Ok command ->
    one_line command
    /\ count_occ N.eq_dec (command ++ [LF]) LF = 1%nat
    /\ (forall h : Hive, alive h -> writable h ->
          stdin_pending (process h) = [] ->
          stdin_data (process (snd (_send_command action args h))) =
            stdin_data (process h) ++ command ++ [LF]).
Proof.
  intros action args command Hfloat Hdumps.
  assert (Hline : one_line command).
  { exact (one_line_encode Hfloat (envelope action args) _ Hdumps). }
  split; [assumption|]. split.
  - rewrite count_occ_app, (one_line_count Hline). reflexivity.
  - intros h Halive Hwritable Hpending.
    destruct (@send_command_delivers _ action args h _ Halive Hwritable Hdumps)
      as [Hdata _].
    rewrite Hdata, Hpending. reflexivity.
Qed.

Lemma envelope_falsy (action : str) (args : value) :
  truthy args = false ->
  envelope action args =
    PyDict [(PyStr (py "action"), PyStr action); (PyStr (py "args"), PyDict [])].
Proof. intros H. unfold envelope, py_or. rewrite H. reflexivity. Qed.

Lemma dumps_empty_args (action : str) :
  json_dumps
    (PyDict [(PyStr (py "action"), PyStr action); (PyStr (py "args"), PyDict [])]) =
  Ok (jsn "{'action': " ++ encode_basestring_ascii action ++ jsn ", 'args': {}}").
Proof.
  unfold json_dumps, recursion_limit. cbn. rewrite <- !app_assoc. reflexivity.
Qed.

(** Claim C10, as amended.  The ["args"] of the envelope is never
    [None]; it is a dictionary whenever the caller passes [None], a
    dictionary or anything false, and it is the caller's value itself when
    that is true.  For false args ([None], [{}], ...) the command is
    [{"action": <name>, "args": {}}], and that line is what a call on a
    bridge that can talk to its child writes. *)
Theorem falsy_args_sent_as_empty_mapping :
  forall (action : str) (args : value),
    py_get (envelope action args) (py "args") <> Ok PyNone
    /\ (args = PyNone \/ (exists d, args = PyDict d) \/ truthy args = false ->
        exists d, py_get (envelope action args) (py "args") = Ok (PyDict d))
    /\ (truthy args = true ->
        py_get (envelope action args) (py "args") = Ok args)
    /\ (truthy args = false ->
        json_dumps (envelope action args) =
          Ok (jsn "{'action': " ++ encode_basestring_ascii action ++
              jsn ", 'args': {}}")
        /\ forall h : Hive, alive h -> writable h ->
             stdin_pending (process h) = [] ->
             stdin_data (process (snd (_send_command action args h))) =
               stdin_data (process h) ++
               jsn "{'action': " ++ encode_basestring_ascii action ++
               jsn ", 'args': {}}" ++ [LF]).
Proof.
  intros action args.
  assert (Hget : py_get (envelope action args) (py "args") =
                 Ok (py_or args (PyDict []))) by reflexivity.
  rewrite Hget. unfold py_or. split; [|split; [|split]].
  - destruct (truthy args) eqn:Ht; [|discriminate].
    intros H. inversion H. subst. discriminate.
  - intros [-> | [[d ->] | Hfalsy]].
    + eexists. reflexivity.
    + destruct d; eexists; reflexivity.
    + rewrite Hfalsy. eexists. reflexivity.
  - intros Htruthy. rewrite Htruthy. reflexivity.
  - intros Hfalsy.
    assert (Hdumps : json_dumps (envelope action args) =
              Ok (jsn "{'action': " ++ encode_basestring_ascii action ++
                  jsn ", 'args': {}}")).
    { rewrite (envelope_falsy action args Hfalsy). apply dumps_empty_args. }
    split; [assumption|].
    intros h Halive Hwritable Hpending.
    destruct (@send_command_delivers _ action args h _ Halive Hwritable Hdumps)
      as [Hdata _].
    rewrite Hdata, Hpending. rewrite <- !app_assoc. reflexivity.
Qed.

End Wire.

(** ** Construction and shutdown *)

Section Lifecycle.
Context {runtime : PyRuntime}.

(** The path the constructor looks for. *)
Lemma init_missing_script (os : os_state) (node_path : str)
      (script_path : option str) :
  path_exists os
    (match script_path with
     | Some path => path
     | None => os_path_join (module_dir os) (py "hive_cli.js")
     end) = false ->
  __init__ node_path script_path os =
    (Raise (FileNotFoundError
       (py "Could not find hive_cli.js at " ++
        match script_path with
        | Some path => path
        | None => os_path_join (module_dir os) (py "hive_cli.js")
        end)), os).
Proof.
  intros Hmissing.
  unfold __init__, os_path_exists.
  destruct script_path as [path|];
    cbv [bind ret raise]; rewrite Hmissing; reflexivity.
Qed.

(** With the script in place the constructor fails only when the launch
    does, and then with the message about the executable or with the
    exception of the launch itself, which is not a [FileNotFoundError]. *)
Lemma init_launch_failure (os : os_state) (node_path : str)
      (script_path : option str) (e : exn) :
  path_exists os
    (match script_path with
     | Some path => path
     | None => os_path_join (module_dir os) (py "hive_cli.js")
     end) = true ->
  fst (__init__ node_path script_path os) = Raise e ->
  e = FileNotFoundError
        (py "Node.js executable not found at '" ++ node_path ++
         py "'. Please ensure Node.js is installed.")
  \/ (forall msg, e <> FileNotFoundError msg).
Proof.
  intros Hfound.
  unfold __init__, os_path_exists, subprocess_Popen.
  destruct script_path as [path|];
    cbv [bind ret raise try_except]; rewrite Hfound; cbn [negb];
    match goal with
    | |- context [launch os ?argv] => destruct (launch os argv) as [p|e0]
    end;
    [ | destruct e0 | | destruct e0 ];
    cbv beta iota zeta delta [fst]; intros H; try discriminate;
    injection H as <-;
    solve [left; reflexivity | right; intros; discriminate].
Qed.

(** Claim C5.  When the script path, given or default, does not exist,
    the constructor raises [FileNotFoundError] "Could not find hive_cli.js
    at <path>" and leaves the system as it was: no child has been spawned.
    No failure of the constructor with the script in place (the executable
    cannot be launched) is this exception. *)
Theorem missing_script_fails_before_spawn :
  forall (os : os_state) (node_path : str) (script_path : option str)
         (path : str),
    path = match script_path with
           | Some given => given
           | None => os_path_join (module_dir os) (py "hive_cli.js")
           end ->
    path_exists os path = false ->
    __init__ node_path script_path os =
      (Raise (FileNotFoundError (py "Could not find hive_cli.js at " ++ path)), os)
    /\ spawned (snd (__init__ node_path script_path os)) = spawned os
    /\ (forall (os' : os_state) (node_path' : str) (script_path' : option str)
               (e : exn),
          path_exists os'
            (match script_path' with
             | Some given => given
             | None => os_path_join (module_dir os') (py "hive_cli.js")
             end) = true ->
          fst (__init__ node_path' script_path' os') = Raise e ->
          e <> FileNotFoundError (py "Could not find hive_cli.js at " ++ path)).
Proof.
  intros os node_path script_path path -> Hmissing.
  rewrite (init_missing_script os node_path script_path Hmissing).
  split; [reflexivity|]. split; [reflexivity|].
  intros os' node_path' script_path' e Hfound Hraise.
  destruct (init_launch_failure os' node_path' script_path' Hfound Hraise)
    as [-> | Hother].
  - intros Heq. inversion Heq.
  - apply Hother.
Qed.

Ltac cases_of_close :=
  cbv [close stdin_close stdin_flush terminate wait poll child_told child_exits
       set_stdin_closed set_returncode set_stdin
       bind ret raise hang self_process
       process returncode stdin_closed stdin_pending stdin_data pipe_broken
       stdout_data stdout_eof exit_status on_eof on_sigterm].

(** A [close] that returns has closed the input stream and recorded the
    exit of the child. *)
Lemma close_completed (h h' : Hive) :
  close h = (Return tt, h') ->
  (exists rc, returncode (process h') = Some rc)
  /\ stdin_closed (process h') = true.
Proof.
  destruct h as [[rc closed pending data broken out eof status oneof onterm]].
  destruct rc, closed, pending, broken, status, oneof, onterm;
    cases_of_close; intros H; inversion H; subst; simpl; eauto.
Qed.

(** [close] on a bridge that is closed already changes nothing. *)
Lemma close_closed (h : Hive) (rc : Z) :
  returncode (process h) = Some rc -> stdin_closed (process h) = true ->
  close h = (Return tt, h).
Proof.
  destruct h as [[rc0 closed pending data broken out eof status oneof onterm]].
  cbn [process returncode stdin_closed]. intros -> ->. reflexivity.
Qed.

(** Claim C7.  After a [close()] that returned, a second [close()]
    returns as well, neither raising nor blocking, and changes nothing. *)
Theorem close_is_idempotent :
  forall h h' : Hive,
    close h = (Return tt, h') -> close h' = (Return tt, h').
Proof.
  intros h h' Hclose.
  destruct (close_completed h Hclose) as [[rc Hrc] Hclosed].
  exact (close_closed h' Hrc Hclosed).
Qed.

(** Claim C6.  After a [close()] that returned, each of [init],
    [add_file], [embed], [find], [insert_one], [delete_one], [update_one]
    and [remove_file] raises [RuntimeError] "Hive Node.js process has
    terminated unexpectedly." from the liveness check, whatever its
    arguments, leaving the bridge as it was: nothing is written, nothing is
    read, nothing blocks. *)
Theorem operations_after_close_fail :
  forall h h' : Hive,
    close h = (Return tt, h') ->
    let dead : outcome value * Hive :=
      (Raise (RuntimeError
         (py "Hive Node.js process has terminated unexpectedly.")), h') in
    (forall options, init options h' = dead)
    /\ (forall file_path, add_file file_path h' = dead)
    /\ (forall input_data type, embed input_data type h' = dead)
    /\ (forall query_vector top_k, find query_vector top_k h' = dead)
    /\ (forall entry, insert_one entry h' = dead)
    /\ (forall id, delete_one id h' = dead)
    /\ (forall query entry, update_one query entry h' = dead)
    /\ (forall file_path, remove_file file_path h' = dead).
Proof.
  intros h h' Hclose dead.
  destruct (close_completed h Hclose) as [[rc Hrc] _].
  unfold dead, init, add_file, embed, find, insert_one, delete_one,
    update_one, remove_file.
  repeat split; intros; apply (send_command_dead _ _ h' Hrc).
Qed.

End Lifecycle.

(* ================================================================= *)
(** * The theorems at work on closed examples *)

(** [delete_one("x")], the worker answering [{"error": "not found"}]:
    the message of the exception is not the text of the worker alone. *)
Lemma remote_error_message_is_prefixed :
  let h := example_hive (jsn "{'error': 'not found'}" ++ [LF]) in
  fst (@delete_one example_runtime (PyStr (py "x")) h) =
    Raise (RuntimeError (py "Hive Error: not found"))
  /\ fst (@delete_one example_runtime (PyStr (py "x")) h) <>
    Raise (RuntimeError (py "not found")).
Proof. split; [vm_compute; reflexivity | vm_compute; discriminate]. Qed.

Lemma remote_error_raises_hive_error_witness :
  let h := example_hive (jsn "{'error': 'not found'}" ++ [LF]) in
  let args := PyDict [(PyStr (py "id"), PyStr (py "x"))] in
  (alive h /\ writable h)
  /\ fst (@_send_command example_runtime (py "deleteOne") args h) =
       Raise (RuntimeError (py "Hive Error: " ++ py "not found"))
  /\ alive (snd (@_send_command example_runtime (py "deleteOne") args h))
  /\ fst (self_process poll
            (snd (@_send_command example_runtime (py "deleteOne") args h))) =
       Return None.
Proof.
  intros h args. split; [repeat split|].
  cut (fst (@_send_command example_runtime (py "deleteOne") args h) =
         Raise (RuntimeError (py "Hive Error: " ++ py "not found"))
       /\ alive (snd (@_send_command example_runtime (py "deleteOne") args h))
       /\ fst (self_process poll
                 (snd (@_send_command example_runtime (py "deleteOne") args h))) =
            Return None
       /\ (forall (action' : str) (args' : value),
             fst (@_send_command example_runtime action' args'
                    (snd (@_send_command example_runtime (py "deleteOne") args h))) <>
               Raise (RuntimeError
                 (py "Hive Node.js process has terminated unexpectedly.")))).
  { intros [H1 [H2 [H3 _]]]. repeat split; try assumption; apply H2. }
  eapply (@remote_error_raises_hive_error example_runtime (py "deleteOne") args h
            _ (jsn "{'error': 'not found'}" ++ [LF])
            [(PyStr (py "error"), PyStr (py "not found"))] (py "not found")).
  - split; reflexivity.
  - split; reflexivity.
  - vm_compute. reflexivity.
  - vm_compute. reflexivity.
  - vm_compute. reflexivity.
  - vm_compute. reflexivity.
  - discriminate.
Defined.

Lemma response_fails_iff_error_nonempty_witness :
  let args := PyDict [(PyStr (py "id"), PyStr (py "x"))] in
  let failed := example_hive (jsn "{'error': 'not found', 'data': 7}" ++ [LF]) in
  let empty := example_hive (jsn "{'error': '', 'data': 7}" ++ [LF]) in
  let null := example_hive (jsn "{'data': null}" ++ [LF]) in
  fst (@_send_command example_runtime (py "deleteOne") args failed) =
    Raise (RuntimeError (py "Hive Error: not found"))
  /\ fst (@_send_command example_runtime (py "deleteOne") args empty) =
    Return (PyInt 7)
  /\ fst (@_send_command example_runtime (py "deleteOne") args null) =
    Return PyNone.
Proof.
  intros args failed empty null. split; [|split].
  - destruct (@response_fails_iff_error_nonempty example_runtime (py "deleteOne")
                args failed (jsn "{'action': 'deleteOne', 'args': {'id': 'x'}}")
                (jsn "{'error': 'not found', 'data': 7}" ++ [LF])
                [(PyStr (py "error"), PyStr (py "not found"));
                 (PyStr (py "data"), PyInt 7)]) as [_ [Hraise _]].
    + split; reflexivity.
    + split; reflexivity.
    + vm_compute. reflexivity.
    + vm_compute. reflexivity.
    + vm_compute. reflexivity.
    + right. exists (py "not found"). left. reflexivity.
    + apply (Hraise (py "not found")); [left; reflexivity | discriminate].
  - destruct (@response_fails_iff_error_nonempty example_runtime (py "deleteOne")
                args empty (jsn "{'action': 'deleteOne', 'args': {'id': 'x'}}")
                (jsn "{'error': '', 'data': 7}" ++ [LF])
                [(PyStr (py "error"), PyStr []);
                 (PyStr (py "data"), PyInt 7)]) as [_ [_ Hreturn]].
    + split; reflexivity.
    + split; reflexivity.
    + vm_compute. reflexivity.
    + vm_compute. reflexivity.
    + vm_compute. reflexivity.
    + right. exists []. left. reflexivity.
    + destruct Hreturn as [Hdata _].
      * intros x [H|[H|[]]]; vm_compute in H;
          [injection H as <-; reflexivity | discriminate].
      * apply Hdata. right. left. reflexivity.
  - destruct (@response_fails_iff_error_nonempty example_runtime (py "deleteOne")
                args null (jsn "{'action': 'deleteOne', 'args': {'id': 'x'}}")
                (jsn "{'data': null}" ++ [LF])
                [(PyStr (py "data"), PyNone)]) as [_ [_ Hreturn]].
    + split; reflexivity.
    + split; reflexivity.
    + vm_compute. reflexivity.
    + vm_compute. reflexivity.
    + vm_compute. reflexivity.
    + left. intros v [H|[]]. vm_compute in H. discriminate.
    + destruct Hreturn as [Hdata _].
      * intros x [H|[]]. vm_compute in H. discriminate.
      * apply Hdata. left. reflexivity.
Defined.

Lemma empty_line_raises_and_is_not_terminal_witness :
  let h := example_hive_eof [] in
  fst (stdout_readline (process h)) = Return []
  /\ fst (@init example_runtime PyNone h) =
       Raise (RuntimeError
         (py "Hive Node.js process closed the connection (no response)."))
  /\ alive (snd (@init example_runtime PyNone h))
  /\ fst (self_process poll (snd (@init example_runtime PyNone h))) = Return None.
Proof.
  intros h. split; [reflexivity|].
  cut (fst (@init example_runtime PyNone h) =
         Raise (RuntimeError
           (py "Hive Node.js process closed the connection (no response)."))
       /\ alive (snd (@init example_runtime PyNone h))
       /\ fst (self_process poll (snd (@init example_runtime PyNone h))) =
            Return None
       /\ (forall (action' : str) (args' : value),
             fst (@_send_command example_runtime action' args'
                    (snd (@init example_runtime PyNone h))) <>
               Raise (RuntimeError
                 (py "Hive Node.js process has terminated unexpectedly.")))).
  { intros [H1 [H2 [H3 _]]]. repeat split; try assumption; apply H2. }
  eapply (@empty_line_raises_and_is_not_terminal example_runtime (py "init")
            PyNone h).
  - split; reflexivity.
  - split; reflexivity.
  - vm_compute. reflexivity.
  - reflexivity.
Defined.

(** [find([nan])]: a NaN has no notation in JSON, yet nothing fails; the
    command goes out with the bare token [NaN] in it. *)
Lemma nan_args_are_written :
  let h := example_hive (jsn "{'data': []}" ++ [LF]) in
  let query := PyList [PyFloat PrimFloat.nan] in
  fst (@find example_runtime query (PyInt 10) h) = Return (PyList [])
  /\ stdin_data (process (snd (@find example_runtime query (PyInt 10) h))) =
       jsn "{'action': 'find', 'args': {'queryVector': [NaN], 'topK': 10}}"
       ++ [LF].
Proof. split; vm_compute; reflexivity. Qed.

Lemma unserializable_args_raise_before_write_witness :
  let args := PyDict [(PyStr (py "input"), PyObject true);
                      (PyStr (py "type"), PyStr (py "image"))] in
  let h := example_hive [] in
  (truthy args = true /\ serializable args = false)
  /\ @embed example_runtime (PyObject true) (PyStr (py "image")) h =
       (Raise TypeError, h).
Proof.
  intros args h. split; [split; reflexivity|].
  destruct (@unserializable_args_raise_before_write example_runtime (py "embed")
              args h) as [Hraise Hunserializable].
  destruct (Hunserializable eq_refl eq_refl) as [_ Htype].
  destruct (Hraise TypeError (Htype eq_refl)) as [_ [_ [_ [_ Hcall]]]].
  apply Hcall. split; reflexivity.
Defined.

Lemma missing_script_fails_before_spawn_witness :
  path_exists example_os (py "/srv/hive_cli.js") = false
  /\ @__init__ (py "node") (Some (py "/srv/hive_cli.js")) example_os =
       (Raise (FileNotFoundError (py "Could not find hive_cli.js at /srv/hive_cli.js")),
        example_os)
  /\ fst (@__init__ (py "nodejs") None example_os) =
       Raise (FileNotFoundError
         (py "Node.js executable not found at 'nodejs'. Please ensure Node.js is installed.")).
Proof.
  split; [reflexivity|].
  destruct (@missing_script_fails_before_spawn example_os (py "node")
              (Some (py "/srv/hive_cli.js")) (py "/srv/hive_cli.js")
              eq_refl eq_refl) as [Hraise _].
  split; [exact Hraise | vm_compute; reflexivity].
Defined.

Lemma operations_after_close_fail_witness :
  let h := example_hive [] in
  let h' := snd (@close h) in
  @close h = (Return tt, h')
  /\ @find example_runtime (PyList [PyInt 1; PyInt 2]) (PyInt 10) h' =
       (Raise (RuntimeError
          (py "Hive Node.js process has terminated unexpectedly.")), h').
Proof.
  intros h h'. split; [reflexivity|].
  destruct (@operations_after_close_fail example_runtime h h' eq_refl)
    as [_ [_ [_ [Hfind _]]]].
  apply Hfind.
Defined.

Lemma close_is_idempotent_witness :
  let h := example_hive [] in
  @close h = (Return tt, snd (@close h))
  /\ @close (snd (@close h)) = (Return tt, snd (@close h)).
Proof.
  intros h. split; [reflexivity|].
  exact (@close_is_idempotent h (snd (@close h)) eq_refl).
Defined.

(** Two lines that are not JSON and are not reported as such: one with
    the token [NaN], which [json.loads] accepts, and one of a thousand and
    one opening brackets, on which it raises [RecursionError]. *)
Lemma malformed_line_not_reported :
  let nan := example_hive (jsn "{'data': NaN}" ++ [LF]) in
  let deep := example_hive (repeat 91%N 1001 ++ [LF]) in
  fst (@init example_runtime PyNone nan) = Return (PyFloat PrimFloat.nan)
  /\ fst (@init example_runtime PyNone deep) = Raise RecursionError.
Proof. split; vm_compute; reflexivity. Qed.

Lemma malformed_line_raises_with_line_witness :
  let h := example_hive (py "Segmentation fault" ++ [LF]) in
  json_loads (runtime := example_runtime) (py "Segmentation fault" ++ [LF]) =
    Err JSONDecodeError
  /\ fst (@init example_runtime PyNone h) =
       Raise (RuntimeError
         (py "Failed to decode response from Hive: " ++
          py "Segmentation fault" ++ [LF])).
Proof.
  intros h. split; [vm_compute; reflexivity|].
  destruct (@malformed_line_raises_with_line example_runtime (py "init") PyNone h
              (jsn "{'action': 'init', 'args': {}}")
              (py "Segmentation fault" ++ [LF]) JSONDecodeError)
    as [_ [Hraise _]].
  - split; reflexivity.
  - split; reflexivity.
  - vm_compute. reflexivity.
  - vm_compute. reflexivity.
  - discriminate.
  - vm_compute. reflexivity.
  - exact (Hraise eq_refl).
Defined.

Lemma command_is_a_single_line_witness :
  let args := PyDict [(PyStr (py "input"), PyStr (py "two" ++ [LF] ++ py "lines"));
                      (PyStr (py "type"), PyStr (py "text"))] in
  let command := jsn "{'action': 'embed', 'args': {'input': 'two\nlines', 'type': 'text'}}" in
  json_dumps (runtime := example_runtime) (envelope (py "embed") args) = Ok command
  /\ one_line command
  /\ count_occ N.eq_dec (command ++ [LF]) LF = 1%nat.
Proof.
  intros args command. split; [vm_compute; reflexivity|].
  destruct (@command_is_a_single_line example_runtime (py "embed") args command)
    as [Hline [Hcount _]].
  - intros x. cbn. repeat constructor; discriminate.
  - vm_compute. reflexivity.
  - split; assumption.
Defined.

(** [init(["docs"])]: a list is true, so it is sent as it is. *)
Lemma truthy_args_sent_as_given :
  py_get (envelope (py "init") (PyList [PyStr (py "docs")])) (py "args") =
    Ok (PyList [PyStr (py "docs")])
  /\ stdin_data (process
       (snd (@init example_runtime (PyList [PyStr (py "docs")]) (example_hive [])))) =
     jsn "{'action': 'init', 'args': ['docs']}" ++ [LF].
Proof. split; vm_compute; reflexivity. Qed.

Lemma falsy_args_sent_as_empty_mapping_witness :
  let h := example_hive [] in
  stdin_data (process (snd (@init example_runtime PyNone h))) =
    jsn "{'action': 'init', 'args': {}}" ++ [LF]
  /\ stdin_data (process (snd (@init example_runtime (PyDict []) h))) =
    jsn "{'action': 'init', 'args': {}}" ++ [LF].
Proof.
  intros h.
  destruct (@falsy_args_sent_as_empty_mapping example_runtime (py "init") PyNone)
    as [_ [_ [_ Hnone]]].
  destruct (@falsy_args_sent_as_empty_mapping example_runtime (py "init") (PyDict []))
    as [_ [_ [_ Hempty]]].
  destruct (Hnone eq_refl) as [_ Hnone'].
  destruct (Hempty eq_refl) as [_ Hempty'].
  split.
  - apply (Hnone' h); [split; reflexivity | split; reflexivity | reflexivity].
  - apply (Hempty' h); [split; reflexivity | split; reflexivity | reflexivity].
Defined.

(** A remote error does not end the conversation: the call after it reads
    the next line of the child. *)
Example call_after_remote_error :
  let h := example_hive (jsn "{'error': 'not found'}" ++ [LF] ++
                         jsn "{'data': [1, 2]}" ++ [LF]) in
  let h' := snd (@delete_one example_runtime (PyStr (py "x")) h) in
  fst (@find example_runtime (PyList [PyInt 3]) (PyInt 10) h') =
    Return (PyList [PyInt 1; PyInt 2]).
Proof. vm_compute. reflexivity. Qed.

(* ================================================================= *)
(** * Further properties of the calls *)

Section CallPaths.
Context {runtime : PyRuntime}.

Local Opaque json_dumps json_loads.

Ltac unfold_send :=
  cbv [_send_command poll stdin_write stdin_flush stdout_readline
       set_stdin set_stdout_data set_returncode
       bind ret raise lift try_except self_process
       process returncode stdin_closed stdin_pending stdin_data pipe_broken
       stdout_data stdout_eof exit_status on_eof on_sigterm fst snd].

(** The reply, once read, is handled without touching the bridge: decide
    every test of the remaining statements. *)
Ltac decide_reply :=
  repeat match goal with
  | |- context [if negb (truthy ?v) then _ else _] =>
      destruct (negb (truthy v))
  | |- context [if truthy ?v then _ else _] => destruct (truthy v)
  | |- context [match json_loads ?l with _ => _ end] =>
      destruct (json_loads l) as [? | []]
  | |- context [match py_get ?r ?k with _ => _ end] =>
      destruct (py_get r k) as [? | []]
  | |- context [match py_getitem ?r ?k with _ => _ end] =>
      destruct (py_getitem r k) as [? | []]
  end.

Lemma poll_finds_nothing_iff_alive (h : Hive) :
  fst (self_process poll h) = Return None <-> alive h.
Proof.
  destruct h as [[rc closed pending data broken out eof status oneof onterm]].
  unfold alive. cbv [self_process poll process returncode exit_status fst].
  destruct rc as [rc|], status as [status|]; cbn; split;
    try discriminate; try (intros [H1 H2]; discriminate); auto.
Qed.

(** The liveness check fails exactly when [poll()] finds that the child
    has exited, by itself, killed from outside or after [close()].  The
    call then writes nothing, reads nothing and records the exit. *)
Theorem liveness_error_iff_child_exited :
  forall (action : str) (args : value) (h : Hive),
    (fst (_send_command action args h) =
       Raise (RuntimeError
         (py "Hive Node.js process has terminated unexpectedly."))
     <-> fst (self_process poll h) <> Return None)
    /\ (fst (self_process poll h) <> Return None ->
        stdin_data (process (snd (_send_command action args h))) =
          stdin_data (process h)
        /\ stdin_pending (process (snd (_send_command action args h))) =
          stdin_pending (process h)
        /\ stdout_data (process (snd (_send_command action args h))) =
          stdout_data (process h)
        /\ returncode (process (snd (_send_command action args h))) <> None).
Proof.
  intros action args h. split; [split|].
  - intros Hdead Hpoll. apply poll_finds_nothing_iff_alive in Hpoll.
    exact (live_call_passes_liveness_check action args Hpoll Hdead).
  - destruct h as [[rc closed pending data broken out eof status oneof onterm]].
    unfold_send. cbv [self_process poll process returncode exit_status fst].
    destruct rc as [rc|]; [reflexivity|].
    destruct status as [status|]; [reflexivity|].
    intros H. destruct H. reflexivity.
  - destruct h as [[rc closed pending data broken out eof status oneof onterm]].
    unfold_send. cbv [self_process poll process returncode exit_status fst].
    destruct rc as [rc|]; [cbn; repeat split; discriminate|].
    destruct status as [status|]; [cbn; repeat split; discriminate|].
    intros H. destruct H. reflexivity.
Qed.

(** A write into a pipe that nobody reads: the call raises the
    "pipe broken" [RuntimeError], reads nothing, and the command stays in
    the buffer of the input stream. *)
Theorem broken_pipe_raises_and_reads_nothing :
  forall (action : str) (args : value) (h : Hive) (command : str),
    alive h ->
    stdin_closed (process h) = false ->
    pipe_broken (process h) = true ->
    json_dumps (envelope action args) = Ok command ->
    fst (_send_command action args h) =
      Raise (RuntimeError (py "Hive Node.js process pipe broken."))
    /\ stdout_data (process (snd (_send_command action args h))) =
         stdout_data (process h)
    /\ stdin_data (process (snd (_send_command action args h))) =
         stdin_data (process h)
    /\ stdin_pending (process (snd (_send_command action args h))) =
         stdin_pending (process h) ++ command ++ [LF].
Proof.
  intros action args h command [Hrc Hst] Hcl Hbr Hdumps.
  destruct h as [[rc closed pending data broken out eof status oneof onterm]].
  cbn [process returncode exit_status stdin_closed pipe_broken] in *.
  subst. unfold_send. rewrite Hdumps. cbv beta iota.
  destruct (pending ++ command ++ [LF]) eqn:Hp;
    [exfalso; exact (command_line_not_empty _ _ Hp)|].
  cbn. repeat split.
Qed.

(** After that failure [close()] raises [BrokenPipeError]: closing the
    input stream flushes the buffer again.  The stream ends up closed, but
    [terminate()] and [wait()] are not reached and the exit of the child is
    not recorded. *)
Theorem close_after_broken_pipe_raises :
  forall (action : str) (args : value) (h : Hive) (command : str),
    alive h ->
    stdin_closed (process h) = false ->
    pipe_broken (process h) = true ->
    json_dumps (envelope action args) = Ok command ->
    fst (close (snd (_send_command action args h))) = Raise BrokenPipeError
    /\ stdin_closed (process (snd (close (snd (_send_command action args h))))) =
         true
    /\ returncode (process (snd (close (snd (_send_command action args h))))) =
         None.
Proof.
  intros action args h command [Hrc Hst] Hcl Hbr Hdumps.
  destruct h as [[rc closed pending data broken out eof status oneof onterm]].
  cbn [process returncode exit_status stdin_closed pipe_broken] in *.
  subst. unfold_send. rewrite Hdumps. cbv beta iota.
  destruct (pending ++ command ++ [LF]) eqn:Hp;
    [exfalso; exact (command_line_not_empty _ _ Hp)|].
  cbv [close stdin_close stdin_flush bind self_process process stdin_closed
       stdin_pending pipe_broken fst snd].
  destruct oneof; cbn; repeat split.
Qed.

(** A call on a bridge whose input stream has been closed while the child
    still runs raises [ValueError], which no clause of the call catches;
    nothing is written or read. *)
Theorem closed_stdin_raises_ValueError :
  forall (action : str) (args : value) (h : Hive) (command : str),
    alive h ->
    stdin_closed (process h) = true ->
    json_dumps (envelope action args) = Ok command ->
    _send_command action args h = (Raise ValueError, h).
Proof.
  intros action args h command [Hrc Hst] Hcl Hdumps.
  destruct h as [[rc closed pending data broken out eof status oneof onterm]].
  cbn [process returncode exit_status stdin_closed] in *.
  subst. unfold_send. rewrite Hdumps. reflexivity.
Qed.

End CallPaths.

Section Replies.
Context {runtime : PyRuntime}.

Local Opaque json_dumps json_loads.

Ltac unfold_send :=
  cbv [_send_command poll stdin_write stdin_flush stdout_readline
       set_stdin set_stdout_data set_returncode
       bind ret raise lift try_except self_process
       process returncode stdin_closed stdin_pending stdin_data pipe_broken
       stdout_data stdout_eof exit_status on_eof on_sigterm fst snd].

(** Enter a call on a bridge that can talk to its child, up to the read. *)
Ltac send_then_read h Halive Hwritable Hdumps :=
  let rc := fresh "rc" in let closed := fresh "closed" in
  let pending := fresh "pending" in let data := fresh "data" in
  let broken := fresh "broken" in let out := fresh "out" in
  let eof := fresh "eof" in let status := fresh "status" in
  let oneof := fresh "oneof" in let onterm := fresh "onterm" in
  destruct h as [[rc closed pending data broken out eof status oneof onterm]];
  destruct Halive as [?Hrc ?Hst]; destruct Hwritable as [?Hcl ?Hbr];
  cbn [process returncode exit_status stdin_closed pipe_broken stdout_data
       stdout_eof stdin_data stdin_pending] in *;
  subst rc status closed broken;
  unfold_send; rewrite Hdumps; cbv beta iota;
  let Hp := fresh "Hp" in
  destruct (pending ++ _ ++ [LF]) eqn:Hp;
  [ exfalso; exact (command_line_not_empty _ _ Hp) | ].

(** What the call makes of a line it has read, whatever the line. *)
Lemma send_command_reads (action : str) (args : value) (h : Hive)
      (command line : str) :
  alive h -> writable h ->
  json_dumps (envelope action args) = Ok command ->
  fst (stdout_readline (process h)) = Return line ->
  fst (_send_command action args h) =
    match line with
    | [] =>
        Raise (RuntimeError
          (py "Hive Node.js process closed the connection (no response)."))
    | _ :: _ =>
        match json_loads line with
        | Err JSONDecodeError =>
            Raise (RuntimeError
              (py "Failed to decode response from Hive: " ++ line))
        | Err e => Raise e
        | Ok (PyDict d) =>
            let error := match dict_get d (py "error") with
                         | Some v => v
                         | None => PyNone
                         end in
            if truthy error
            then Raise (RuntimeError (py "Hive Error: " ++ py_format error))
            else Return (match dict_get d (py "data") with
                         | Some v => v
                         | None => PyNone
                         end)
        | Ok _ => Raise AttributeError
        end
    end.
Proof.
  intros Halive Hwritable Hdumps Hline.
  assert (Hread : forall p,
            stdout_data p = stdout_data (process h) ->
            stdout_eof p = stdout_eof (process h) ->
            fst (stdout_readline p) = Return line).
  { intros p Hd He. rewrite <- Hline. unfold stdout_readline.
    rewrite Hd, He. destruct (split_line (stdout_data (process h))) as [[? ?]|];
      [reflexivity|]. destruct (stdout_eof (process h)); reflexivity. }
  send_then_read h Halive Hwritable Hdumps.
  match goal with
  | |- context [split_line ?o] =>
      specialize (Hread (mkPopen None false [] [] false o eof None None None)
                        eq_refl eq_refl);
      unfold stdout_readline in Hread;
      cbn [stdout_data stdout_eof fst] in Hread;
      destruct (split_line o) as [[? ?]|]; [|destruct eof]
  end;
    cbn [fst] in Hread; try discriminate;
    injection Hread as ->.
  all: destruct line as [|c line']; [reflexivity|]; cbn [truthy negb].
  all: destruct (json_loads (c :: line')) as [response|e] eqn:Hloads;
         [ | destruct (json_loads_raises _ Hloads) as [->|[->| ->]];
             reflexivity ].
  all: destruct response as [ | | | | | | | d | ]; cbn [py_get py_getitem];
         try reflexivity.
  all: destruct (dict_get d (py "error")) as [error|]; cbn [truthy];
         [ destruct (truthy error) | ]; reflexivity.
Qed.

(** A reply that is JSON but not an object (a list, a string, a number,
    [true], [null]) makes the call raise [AttributeError]: the result of
    [json.loads] has no [get].  None of the clauses of the call catches
    it. *)
Theorem non_object_reply_raises_AttributeError :
  forall (action : str) (args : value) (h : Hive) (command line : str)
         (response : value),
    alive h -> writable h ->
    json_dumps (envelope action args) = Ok command ->
    fst (stdout_readline (process h)) = Return line ->
    json_loads line = Ok response ->
    (forall d, response <> PyDict d) ->
    fst (_send_command action args h) = Raise AttributeError.
Proof.
  intros action args h command line response Halive Hwritable Hdumps Hline
         Hloads Hnot.
  rewrite (send_command_reads action args Halive Hwritable Hdumps Hline).
  destruct line as [|c line'].
  - rewrite json_loads_empty in Hloads. discriminate.
  - rewrite Hloads. destruct response; try reflexivity.
    exfalso. eapply Hnot. reflexivity.
Qed.

(** The ["error"] of an object reply is tested for truth, not for being a
    string: [null], [false], [0], [""], an empty list or object count as no
    error and the call returns ["data"]; any other value raises, with its
    [str()] after "Hive Error: ". *)
Theorem object_reply_fails_iff_error_is_true :
  forall (action : str) (args : value) (h : Hive) (command line : str)
         (d : list (value * value)),
    alive h -> writable h ->
    json_dumps (envelope action args) = Ok command ->
    fst (stdout_readline (process h)) = Return line ->
    json_loads line = Ok (PyDict d) ->
    let error := match dict_get d (py "error") with
                 | Some v => v
                 | None => PyNone
                 end in
    fst (_send_command action args h) =
      if truthy error
      then Raise (RuntimeError (py "Hive Error: " ++ py_format error))
      else Return (match dict_get d (py "data") with
                   | Some v => v
                   | None => PyNone
                   end).
Proof.
  intros action args h command line d Halive Hwritable Hdumps Hline Hloads.
  rewrite (send_command_reads action args Halive Hwritable Hdumps Hline).
  destruct line as [|c line'].
  - rewrite json_loads_empty in Hloads. discriminate.
  - rewrite Hloads. reflexivity.
Qed.

End Replies.

Section BlankLines.
Context {runtime : PyRuntime}.

Lemma skip_ws_blank (s : str) :
  Forall (fun c => is_ws c = true) s -> skip_ws s = [].
Proof.
  induction 1 as [|c r Hc Hr IH]; [reflexivity|].
  cbn [skip_ws]. rewrite Hc. exact IH.
Qed.

(** Whitespace alone is not JSON. *)
Lemma json_loads_blank (s : str) :
  Forall (fun c => is_ws c = true) s -> json_loads s = Err JSONDecodeError.
Proof.
  intros Hblank. destruct s as [|c r]; [reflexivity|].
  rewrite json_loads_unfold. rewrite (skip_ws_blank Hblank).
  replace (2 * List.length (c :: r) + 1) with (S (2 * List.length (c :: r)))
    by lia.
  reflexivity.
Qed.

End BlankLines.

Section Framing.
Context {runtime : PyRuntime}.

Local Opaque json_dumps json_loads.

Ltac unfold_send :=
  cbv [_send_command poll stdin_write stdin_flush stdout_readline
       set_stdin set_stdout_data set_returncode
       bind ret raise lift try_except self_process
       process returncode stdin_closed stdin_pending stdin_data pipe_broken
       stdout_data stdout_eof exit_status on_eof on_sigterm fst snd].

Ltac send_then_read h Halive Hwritable Hdumps :=
  let rc := fresh "rc" in let closed := fresh "closed" in
  let pending := fresh "pending" in let data := fresh "data" in
  let broken := fresh "broken" in let out := fresh "out" in
  let eof := fresh "eof" in let status := fresh "status" in
  let oneof := fresh "oneof" in let onterm := fresh "onterm" in
  destruct h as [[rc closed pending data broken out eof status oneof onterm]];
  destruct Halive as [?Hrc ?Hst]; destruct Hwritable as [?Hcl ?Hbr];
  cbn [process returncode exit_status stdin_closed pipe_broken stdout_data
       stdout_eof stdin_data stdin_pending] in *;
  subst rc status closed broken;
  unfold_send; rewrite Hdumps; cbv beta iota;
  let Hp := fresh "Hp" in
  destruct (pending ++ _ ++ [LF]) eqn:Hp;
  [ exfalso; exact (command_line_not_empty _ _ Hp) | rewrite <- Hp ].

Ltac decide_reply :=
  repeat match goal with
  | |- context [if negb (truthy ?v) then _ else _] =>
      destruct (negb (truthy v))
  | |- context [if truthy ?v then _ else _] => destruct (truthy v)
  | |- context [match json_loads ?l with _ => _ end] =>
      destruct (json_loads l) as [? | []]
  | |- context [match py_get ?r ?k with _ => _ end] =>
      destruct (py_get r k) as [? | []]
  | |- context [match py_getitem ?r ?k with _ => _ end] =>
      destruct (py_getitem r k) as [? | []]
  end.

(** A line of whitespace only, the empty line of a child that printed a
    bare line feed among them, is a reply that cannot be decoded; it is not
    taken for the end of the stream. *)
Theorem blank_line_is_a_decode_failure :
  forall (action : str) (args : value) (h : Hive) (command line : str),
    alive h -> writable h ->
    json_dumps (envelope action args) = Ok command ->
    fst (stdout_readline (process h)) = Return line ->
    line <> [] ->
    Forall (fun c => is_ws c = true) line ->
    fst (_send_command action args h) =
      Raise (RuntimeError (py "Failed to decode response from Hive: " ++ line)).
Proof.
  intros action args h command line Halive Hwritable Hdumps Hline Hne Hblank.
  rewrite (send_command_reads action args Halive Hwritable Hdumps Hline).
  destruct line as [|c line']; [congruence|].
  rewrite (json_loads_blank Hblank). reflexivity.
Qed.

(** There is no timeout: when the child has written no complete line
    and keeps its output open, the call has delivered its command and
    blocks for ever in [readline()]. *)
Theorem silent_child_blocks_the_call :
  forall (action : str) (args : value) (h : Hive) (command : str),
    alive h -> writable h ->
    json_dumps (envelope action args) = Ok command ->
    split_line (stdout_data (process h)) = None ->
    stdout_eof (process h) = false ->
    fst (_send_command action args h) = Hang
    /\ stdin_data (process (snd (_send_command action args h))) =
         stdin_data (process h) ++ stdin_pending (process h) ++ command ++ [LF]
    /\ stdout_data (process (snd (_send_command action args h))) =
         stdout_data (process h).
Proof.
  intros action args h command Halive Hwritable Hdumps Hsplit Heof.
  send_then_read h Halive Hwritable Hdumps.
  rewrite Hsplit. subst. cbn. repeat split.
Qed.

(** Replies are taken in order, one for each call: a call that finds a
    whole line waiting takes exactly that line, whatever the line holds and
    however the call ends, delivers its own command, and changes nothing
    else of the bridge. *)
Theorem call_consumes_one_line :
  forall (action : str) (args : value) (h : Hive) (command line rest : str),
    alive h -> writable h ->
    json_dumps (envelope action args) = Ok command ->
    split_line (stdout_data (process h)) = Some (line, rest) ->
    snd (_send_command action args h) =
      mkHive (set_stdout_data rest
                (set_stdin [] (stdin_data (process h) ++
                               stdin_pending (process h) ++ command ++ [LF])
                   (process h)))
    /\ fst (_send_command action args h) <> Hang.
Proof.
  intros action args h command line rest Halive Hwritable Hdumps Hsplit.
  send_then_read h Halive Hwritable Hdumps.
  rewrite Hsplit. cbv beta iota.
  decide_reply; cbn; split; try reflexivity; discriminate.
Qed.

(** The exceptions of a call.  [BrokenPipeError] and [JSONDecodeError]
    never leave it: they come out as [RuntimeError].  What does leave it
    is a [RuntimeError] with one of five messages, the [TypeError],
    [ValueError] or [RecursionError] of the encoder, the [ValueError] of a
    closed input stream, the [RecursionError] or [ValueError] of the
    decoder, or the [AttributeError] of a reply that is not an object. *)
Theorem call_raises_only :
  forall (action : str) (args : value) (h : Hive) (e : exn),
    fst (_send_command action args h) = Raise e ->
    e = TypeError \/ e = ValueError \/ e = RecursionError
    \/ e = AttributeError
    \/ e = RuntimeError (py "Hive Node.js process has terminated unexpectedly.")
    \/ e = RuntimeError (py "Hive Node.js process pipe broken.")
    \/ e = RuntimeError
             (py "Hive Node.js process closed the connection (no response).")
    \/ (exists line,
          e = RuntimeError (py "Failed to decode response from Hive: " ++ line))
    \/ (exists error,
          e = RuntimeError (py "Hive Error: " ++ py_format error)).
Proof.
  intros action args h e.
  destruct h as [[rc closed pending data broken out eof status oneof onterm]].
  unfold_send.
  destruct rc as [rc|];
    [intros H; injection H as <-; tauto|].
  destruct status as [status|];
    [intros H; injection H as <-; tauto|].
  destruct (json_dumps (envelope action args)) as [command|e0] eqn:Hdumps;
    cbv beta iota.
  2: { destruct (json_dumps_raises _ Hdumps) as [->|[->| ->]];
         intros H; injection H as <-; tauto. }
  destruct closed; [intros H; injection H as <-; tauto|].
  destruct (pending ++ command ++ [LF]) eqn:Hp;
    [exfalso; exact (command_line_not_empty _ _ Hp)|].
  destruct broken; [intros H; injection H as <-; tauto|].
  destruct (split_line out) as [[line rest]|]; [|destruct eof];
    cbv beta iota; try discriminate.
  all: match goal with
       | |- context [truthy (PyStr ?l)] => destruct l as [|c l']
       end; cbn [truthy negb];
       [ intros H; injection H as <-; tauto | ].
  all: match goal with
       | |- context [json_loads ?l] =>
           let H := fresh "Hloads" in
           destruct (json_loads l) as [response|e0] eqn:H;
           [ | destruct (json_loads_raises _ H) as [->|[->| ->]];
               intros H'; injection H' as <-;
               first [ do 7 right; left; eexists; reflexivity | tauto ] ]
       end.
  all: destruct response as [ | | | | | | | d | ]; cbn [py_get py_getitem];
         try (intros H; injection H as <-; tauto).
  all: destruct (dict_get d (py "error")) as [error|]; cbn [truthy];
         [ destruct (truthy error) | ]; try discriminate.
  all: intros H; injection H as <-; do 8 right; eexists; reflexivity.
Qed.

End Framing.

(* ================================================================= *)
(** * Further properties of shutdown and construction *)

Section Shutdown.

Ltac unfold_close :=
  cbv [close stdin_close stdin_flush terminate wait poll child_told child_exits
       set_stdin_closed set_returncode set_stdin
       bind ret raise self_process
       process returncode stdin_closed stdin_pending stdin_data pipe_broken
       stdout_data stdout_eof exit_status on_eof on_sigterm fst snd].

(** [close()] raises in one situation only: text that could not be
    delivered is still in the buffer of the open input stream and nobody
    reads the pipe.  The exception is the [BrokenPipeError] of the flush;
    [close()] catches nothing. *)
Theorem close_raises_iff_undelivered_text :
  forall (h : Hive),
    (forall e, fst (close h) = Raise e -> e = BrokenPipeError)
    /\ (fst (close h) = Raise BrokenPipeError <->
        stdin_closed (process h) = false
        /\ stdin_pending (process h) <> []
        /\ pipe_broken (process h) = true).
Proof.
  intros h.
  destruct h as [[rc closed pending data broken out eof status oneof onterm]].
  destruct rc, closed, pending, broken, status, oneof, onterm;
    unfold_close; (split; [intros e H; try discriminate; injection H as <-; reflexivity|]);
    split; try discriminate; try (intros [H1 [H2 H3]]; congruence);
    intros _; repeat split; discriminate.
Qed.

(** [close()] asks with SIGTERM and waits without a timeout: when the
    flush does not raise, it blocks for ever exactly when the child runs,
    stays deaf to SIGTERM and either does not end at the end of its input
    or had its input closed before. *)
Theorem close_blocks_iff_child_ignores_requests :
  forall (h : Hive),
    fst (close h) = Hang <->
    (stdin_closed (process h) = true \/ stdin_pending (process h) = []
     \/ pipe_broken (process h) = false)
    /\ returncode (process h) = None
    /\ exit_status (process h) = None
    /\ on_sigterm (process h) = None
    /\ (stdin_closed (process h) = true \/ on_eof (process h) = None).
Proof.
  intros h.
  destruct h as [[rc closed pending data broken out eof status oneof onterm]].
  destruct rc, closed, pending, broken, status, oneof, onterm;
    unfold_close; split; try discriminate;
    try (intros [H1 [H2 [H3 [H4 H5]]]];
         repeat match goal with
                | H : _ \/ _ |- _ => destruct H
                end; congruence);
    intros _; repeat split; auto.
Qed.

(** A [close()] that returns has closed the input stream and recorded
    the exit status of the child; it reads nothing from the child, and a
    child that had exited before is recorded with the status it exited
    with. *)
Theorem close_records_the_exit_status :
  forall (h h' : Hive),
    close h = (Return tt, h') ->
    stdin_closed (process h') = true
    /\ (exists status, returncode (process h') = Some status)
    /\ (returncode (process h) = None ->
        returncode (process h') = exit_status (process h'))
    /\ (forall status, exit_status (process h) = Some status ->
        exit_status (process h') = Some status)
    /\ stdout_data (process h') = stdout_data (process h).
Proof.
  intros h h'.
  destruct h as [[rc closed pending data broken out eof status oneof onterm]].
  destruct rc, closed, pending, broken, status, oneof, onterm;
    unfold_close; intros H; try discriminate; injection H as <-;
    cbn; repeat split; eauto; try discriminate;
    intros ? H; injection H as <-; reflexivity.
Qed.

End Shutdown.

Section Construction.

(** With the script in place and the launch succeeding, the constructor
    returns the bridge of the child launched, and exactly one child has
    been started, with the executable and the script as its argument
    vector. *)
Theorem init_spawns_one_child :
  forall (os : os_state) (node_path : str) (script_path : option str)
         (path : str) (child : Popen),
    path = match script_path with
           | Some given => given
           | None => os_path_join (module_dir os) (py "hive_cli.js")
           end ->
    path_exists os path = true ->
    launch os [node_path; path] = Ok child ->
    fst (__init__ node_path script_path os) = Return (mkHive child)
    /\ spawned (snd (__init__ node_path script_path os)) =
         spawned os ++ [[node_path; path]].
Proof.
  intros os node_path script_path path child -> Hfound Hlaunch.
  unfold __init__, os_path_exists, subprocess_Popen.
  destruct script_path as [given|];
    cbv [bind ret raise try_except]; rewrite Hfound; cbn [negb];
    rewrite Hlaunch; split; reflexivity.
Qed.

(** When the launch fails, only a [FileNotFoundError] is translated, into
    the message that names the executable; any other exception of the
    launch leaves the constructor as it is.  No child has been started. *)
Theorem init_translates_only_FileNotFoundError :
  forall (os : os_state) (node_path : str) (script_path : option str)
         (path : str) (e : exn),
    path = match script_path with
           | Some given => given
           | None => os_path_join (module_dir os) (py "hive_cli.js")
           end ->
    path_exists os path = true ->
    launch os [node_path; path] = Err e ->
    __init__ node_path script_path os =
      (Raise (match e with
              | FileNotFoundError _ =>
                  FileNotFoundError
                    (py "Node.js executable not found at '" ++ node_path ++
                     py "'. Please ensure Node.js is installed.")
              | other => other
              end), os).
Proof.
  intros os node_path script_path path e -> Hfound Hlaunch.
  unfold __init__, os_path_exists, subprocess_Popen.
  destruct script_path as [given|];
    cbv [bind ret raise try_except]; rewrite Hfound; cbn [negb];
    rewrite Hlaunch; destruct e; reflexivity.
Qed.

End Construction.

(* ================================================================= *)
(** * Further properties of the wire format *)

Section AsciiOnly.
Context {runtime : PyRuntime}.

Lemma ascii_text_app (a b : str) :
  ascii_text a -> ascii_text b -> ascii_text (a ++ b).
Proof. unfold ascii_text. intros. apply Forall_app. auto. Qed.

Lemma ascii_text_join (sep : str) (parts : list str) :
  ascii_text sep -> Forall ascii_text parts -> ascii_text (join sep parts).
Proof.
  intros Hsep Hparts. induction Hparts as [|p rest Hp Hrest IH]; simpl.
  - constructor.
  - destruct rest; [assumption|].
    apply ascii_text_app; [assumption|]. apply ascii_text_app; assumption.
Qed.

Lemma hex_digit_ascii (n : N) :
  (32 <= hex_digit (N.land n 15))%N /\ (hex_digit (N.land n 15) <= 126)%N.
Proof.
  assert (Hlt : (N.land n 15 < 16)%N).
  { change 15%N with (N.ones 4). rewrite N.land_ones.
    apply N.mod_lt. discriminate. }
  unfold hex_digit. destruct (N.ltb_spec (N.land n 15) 10); lia.
Qed.

Lemma ascii_text_hex4 (n : N) : ascii_text (hex4 n).
Proof. unfold hex4. repeat constructor; apply hex_digit_ascii. Qed.

Ltac solve_ascii :=
  unfold ascii_text;
  repeat match goal with
  | |- Forall _ (py (String _ _)) => rewrite py_cons
  | |- Forall _ (py EmptyString) => constructor
  | |- Forall _ [] => constructor
  | |- Forall _ (hex4 _) => apply ascii_text_hex4
  | |- Forall _ (_ ++ _) => apply Forall_app; split
  | |- Forall _ (_ :: _) => constructor
  | |- (_ <= _)%N /\ (_ <= _)%N =>
      first [split; vm_compute; discriminate | assumption]
  end.

Lemma ascii_text_uint (u : Decimal.uint) :
  ascii_text (py (NilEmpty.string_of_uint u)).
Proof.
  induction u; cbn [NilEmpty.string_of_uint]; solve_ascii; assumption.
Qed.

Lemma ascii_text_decimal (n : Z) : ascii_text (decimal n).
Proof.
  assert (Hu : forall u, ascii_text (py (NilZero.string_of_uint u))).
  { intros u. unfold NilZero.string_of_uint.
    destruct u; try apply ascii_text_uint. solve_ascii. }
  unfold decimal, NilZero.string_of_int.
  destruct (Z.to_int n) as [u|u]; [apply Hu|].
  solve_ascii. apply Hu.
Qed.

Lemma ascii_text_escape (c : N) : ascii_text (escape_ascii c).
Proof.
  unfold escape_ascii.
  repeat match goal with
  | |- ascii_text (if ?b then _ else _) => destruct b eqn:?
  end; cbv zeta; solve_ascii.
  match goal with
  | H : (N.leb 32 c && N.leb c 126) = true |- _ =>
      apply andb_prop in H; destruct H as [H1 H2];
      apply N.leb_le in H1; apply N.leb_le in H2; split; assumption
  end.
Qed.

Lemma ascii_text_basestring (s : str) : ascii_text (encode_basestring_ascii s).
Proof.
  unfold encode_basestring_ascii.
  constructor; [split; vm_compute; discriminate|].
  apply ascii_text_app; [|solve_ascii].
  induction s; simpl; [constructor|].
  apply ascii_text_app; [apply ascii_text_escape | assumption].
Qed.

Hypothesis float_repr_ascii : forall x, ascii_text (float_repr x).

Lemma ascii_text_floatstr (x : float) : ascii_text (floatstr x).
Proof.
  unfold floatstr.
  repeat match goal with
  | |- ascii_text (if ?b then _ else _) => destruct b
  end; try solve [solve_ascii]. apply float_repr_ascii.
Qed.

Lemma ascii_text_brackets (l : N) (r : str) (ss : list str) :
  (32 <= l)%N /\ (l <= 126)%N -> ascii_text r -> Forall ascii_text ss ->
  ascii_text (l :: join (py ", ") ss ++ r).
Proof.
  intros Hl Hr Hss. constructor; [assumption|].
  apply ascii_text_app; [|assumption].
  apply ascii_text_join; [solve_ascii | assumption].
Qed.

Lemma ascii_text_encode (v : value) :
  forall depth s, encode depth v = Ok s -> ascii_text s.
Proof.
  induction v as [ | b | n | x | s0 | l IH | l IH | d IH | t ] using value_ind;
    intros depth s H; cbn [encode] in H.
  - inversion H. solve_ascii.
  - destruct b; inversion H; solve_ascii.
  - apply int_repr_Ok in H. subst. apply ascii_text_decimal.
  - inversion H. apply ascii_text_floatstr.
  - inversion H. apply ascii_text_basestring.
  - destruct depth as [|depth]; [discriminate|].
    destruct l as [|v l']; [inversion H; solve_ascii|].
    destruct (result_map (encode depth) (v :: l')) as [ss|e] eqn:Hss;
      cbn [rbind] in H; [|discriminate].
    inversion H. apply ascii_text_brackets;
      [split; vm_compute; discriminate | solve_ascii |].
    eapply result_map_Forall; [|exact Hss].
    eapply Forall_impl; [|exact IH]. cbv beta. intros a Ha b. apply Ha.
  - destruct depth as [|depth]; [discriminate|].
    destruct l as [|v l']; [inversion H; solve_ascii|].
    destruct (result_map (encode depth) (v :: l')) as [ss|e] eqn:Hss;
      cbn [rbind] in H; [|discriminate].
    inversion H. apply ascii_text_brackets;
      [split; vm_compute; discriminate | solve_ascii |].
    eapply result_map_Forall; [|exact Hss].
    eapply Forall_impl; [|exact IH]. cbv beta. intros a Ha b. apply Ha.
  - destruct depth as [|depth]; [discriminate|].
    destruct d as [|kv d']; [inversion H; solve_ascii|].
    match type of H with
    | (rbind ?m _ = _) =>
        destruct m as [ss|e] eqn:Hss; cbn [rbind] in H; [|discriminate]
    end.
    inversion H. apply ascii_text_brackets;
      [split; vm_compute; discriminate | solve_ascii |].
    eapply result_map_Forall; [|exact Hss].
    eapply Forall_impl; [|exact IH]. cbv beta. intros [k v] Hv b.
    cbn [fst snd] in *.
    destruct (encode_key k) as [ks|]; cbn [rbind]; [|discriminate].
    destruct (encode depth v) as [vs|] eqn:Hvs; cbn [rbind]; [|discriminate].
    intros Hb. inversion Hb.
    change (ascii_text (encode_basestring_ascii ks ++ py ": " ++ vs)).
    apply ascii_text_app; [apply ascii_text_basestring|].
    apply ascii_text_app; [solve_ascii|]. exact (Hv depth vs Hvs).
  - destruct depth as [|[|depth]]; discriminate.
Qed.

(** Whatever the text in the action and the args (any code point, control
    characters, quotation marks), the command is made of printable ASCII
    characters only, provided the interpreter prints floats so: what
    crosses the pipe does not depend on its encoding. *)
Theorem command_is_printable_ascii :
  forall (action : str) (args : value) (command : str),
    json_dumps (envelope action args) = Ok command ->
    ascii_text command.
Proof.
  intros action args command Hdumps.
  exact (ascii_text_encode (envelope action args) _ Hdumps).
Qed.

End AsciiOnly.

Section WireCommands.
Context {runtime : PyRuntime}.

(** The command for a dictionary of one or two entries with [str] keys
    whose values can be encoded where they sit, inside the two containers
    of the envelope and its arguments. *)
Lemma dumps_envelope_one (action key : str) (v : value) (vs : str) :
  encode nesting_room v = Ok vs ->
  json_dumps (envelope action (PyDict [(PyStr key, v)])) =
    Ok (jsn "{'action': " ++ encode_basestring_ascii action ++
        jsn ", 'args': {" ++ encode_basestring_ascii key ++ jsn ": " ++ vs ++
        jsn "}}").
Proof.
  intros Hv. unfold json_dumps, recursion_limit, envelope, py_or.
  cbn [truthy encode result_map encode_key rbind fst snd].
  rewrite Hv. cbn [rbind join]. f_equal.
  repeat (rewrite <- app_assoc || cbn [app jsn py map list_ascii_of_string]).
  reflexivity.
Qed.

Lemma dumps_envelope_two (action key1 key2 : str) (v1 v2 : value)
      (vs1 vs2 : str) :
  encode nesting_room v1 = Ok vs1 -> encode nesting_room v2 = Ok vs2 ->
  json_dumps (envelope action (PyDict [(PyStr key1, v1); (PyStr key2, v2)])) =
    Ok (jsn "{'action': " ++ encode_basestring_ascii action ++
        jsn ", 'args': {" ++ encode_basestring_ascii key1 ++ jsn ": " ++ vs1 ++
        jsn ", " ++ encode_basestring_ascii key2 ++ jsn ": " ++ vs2 ++
        jsn "}}").
Proof.
  intros Hv1 Hv2. unfold json_dumps, recursion_limit, envelope, py_or.
  cbn [truthy encode result_map encode_key rbind fst snd].
  rewrite Hv1, Hv2. cbn [rbind join]. f_equal.
  repeat (rewrite <- app_assoc || cbn [app jsn py map list_ascii_of_string]).
  reflexivity.
Qed.

(** What each operation puts on the wire, on a bridge that can talk to
    its child and has nothing undelivered: one line, with the action name
    and the argument names of the worker's protocol.  The arguments are
    those the encoder can write where they sit, inside the envelope and
    its arguments.  The paths of [add_file] and [remove_file] are sent in
    absolute form. *)
Theorem operations_write_their_commands :
  forall (h : Hive),
    alive h -> writable h -> stdin_pending (process h) = [] ->
    let sent (r : outcome value * Hive) := stdin_data (process (snd r)) in
    let line (command : str) := stdin_data (process h) ++ command ++ [LF] in
    (forall file_path,
       sent (add_file file_path h) =
         line (jsn "{'action': 'addFile', 'args': {'filePath': " ++
               encode_basestring_ascii (os_path_abspath file_path) ++
               jsn "}}"))
    /\ (forall input_data type i t,
          encode nesting_room input_data = Ok i -> encode nesting_room type = Ok t ->
          sent (embed input_data type h) =
            line (jsn "{'action': 'embed', 'args': {'input': " ++ i ++
                  jsn ", 'type': " ++ t ++ jsn "}}"))
    /\ (forall query_vector top_k q k,
          encode nesting_room query_vector = Ok q -> encode nesting_room top_k = Ok k ->
          sent (find query_vector top_k h) =
            line (jsn "{'action': 'find', 'args': {'queryVector': " ++ q ++
                  jsn ", 'topK': " ++ k ++ jsn "}}"))
    /\ (forall entry e,
          encode nesting_room entry = Ok e ->
          sent (insert_one entry h) =
            line (jsn "{'action': 'insertOne', 'args': {'entry': " ++ e ++
                  jsn "}}"))
    /\ (forall id i,
          encode nesting_room id = Ok i ->
          sent (delete_one id h) =
            line (jsn "{'action': 'deleteOne', 'args': {'id': " ++ i ++
                  jsn "}}"))
    /\ (forall query entry q e,
          encode nesting_room query = Ok q -> encode nesting_room entry = Ok e ->
          sent (update_one query entry h) =
            line (jsn "{'action': 'updateOne', 'args': {'query': " ++ q ++
                  jsn ", 'entry': " ++ e ++ jsn "}}"))
    /\ (forall file_path,
          sent (remove_file file_path h) =
            line (jsn "{'action': 'removeFile', 'args': {'filePath': " ++
                  encode_basestring_ascii (os_path_abspath file_path) ++
                  jsn "}}")).
Proof.
  intros h Halive Hwritable Hpending sent line.
  assert (Hsend : forall action args command,
            json_dumps (envelope action args) = Ok command ->
            sent (_send_command action args h) = line command).
  { intros action args command Hdumps. unfold sent, line.
    destruct (@send_command_delivers _ action args h command Halive Hwritable
                Hdumps) as [Hdata _].
    rewrite Hdata, Hpending. reflexivity. }
  unfold add_file, embed, find, insert_one, delete_one, update_one, remove_file.
  repeat split; intros.
  - apply Hsend.
    rewrite (@dumps_envelope_one (py "addFile") (py "filePath")
               (PyStr (os_path_abspath file_path)) _ eq_refl).
    first [reflexivity | f_equal; cbn; rewrite <- !app_assoc; reflexivity].
  - apply Hsend. rewrite (@dumps_envelope_two _ _ _ _ _ _ _ H H0).
    first [reflexivity | f_equal; cbn; rewrite <- !app_assoc; reflexivity].
  - apply Hsend. rewrite (@dumps_envelope_two _ _ _ _ _ _ _ H H0).
    first [reflexivity | f_equal; cbn; rewrite <- !app_assoc; reflexivity].
  - apply Hsend. rewrite (@dumps_envelope_one _ _ _ _ H).
    first [reflexivity | f_equal; cbn; rewrite <- !app_assoc; reflexivity].
  - apply Hsend. rewrite (@dumps_envelope_one _ _ _ _ H).
    first [reflexivity | f_equal; cbn; rewrite <- !app_assoc; reflexivity].
  - apply Hsend. rewrite (@dumps_envelope_two _ _ _ _ _ _ _ H H0).
    first [reflexivity | f_equal; cbn; rewrite <- !app_assoc; reflexivity].
  - apply Hsend.
    rewrite (@dumps_envelope_one (py "removeFile") (py "filePath")
               (PyStr (os_path_abspath file_path)) _ eq_refl).
    first [reflexivity | f_equal; cbn; rewrite <- !app_assoc; reflexivity].
Qed.

End WireCommands.

(* ================================================================= *)
(** * The encoder and the decoder are inverse on plain values *)

(** ** Strings *)

Section RoundTripText.
Local Open Scope N_scope.

Lemma lor_high_low (hi lo k : N) :
  lo < 2 ^ k -> N.lor (hi * 2 ^ k) lo = hi * 2 ^ k + lo.
Proof.
  intros Hlo.
  assert (Hdisjoint : N.land (hi * 2 ^ k) lo = 0).
  { apply N.bits_inj. intros m. rewrite N.land_spec, N.bits_0.
    destruct (N.lt_ge_cases m k) as [Hm|Hm].
    - rewrite N.mul_pow2_bits_low by assumption. reflexivity.
    - rewrite <- (N.mod_small lo (2 ^ k)) by assumption.
      rewrite N.mod_pow2_bits_high by assumption. apply andb_false_r. }
  rewrite (N.add_nocarry_lxor _ _ Hdisjoint). symmetry.
  apply N.lxor_lor. assumption.
Qed.

Lemma unhex_hex_digit (d : N) : d < 16 -> unhex (hex_digit d) = Some d.
Proof.
  intros Hd.
  assert (H : d = 0 \/ d = 1 \/ d = 2 \/ d = 3 \/ d = 4 \/ d = 5 \/ d = 6
              \/ d = 7 \/ d = 8 \/ d = 9 \/ d = 10 \/ d = 11 \/ d = 12
              \/ d = 13 \/ d = 14 \/ d = 15) by lia.
  repeat (destruct H as [-> | H]; [reflexivity|]). subst. reflexivity.
Qed.

Lemma nibble_lt (n : N) : N.land n 15 < 16.
Proof.
  change 15 with (N.ones 4). rewrite N.land_ones. apply N.mod_lt. discriminate.
Qed.

(** Four hexadecimal digits are read back as the number they were written
    for. *)
Lemma unhex4_hex4 (n : N) :
  n < 65536 ->
  unhex4 (hex_digit (N.land (N.shiftr n 12) 15))
         (hex_digit (N.land (N.shiftr n 8) 15))
         (hex_digit (N.land (N.shiftr n 4) 15))
         (hex_digit (N.land n 15)) = Some n.
Proof.
  intros Hn. unfold unhex4.
  rewrite !unhex_hex_digit by apply nibble_lt.
  f_equal.
  change 15 with (N.ones 4). rewrite !N.land_ones, !N.shiftr_div_pow2.
  change (2 ^ 4) with 16. change (2 ^ 8) with 256. change (2 ^ 12) with 4096.
  replace (n / 256) with (n / 16 / 16)
    by (rewrite N.Div0.div_div; reflexivity).
  replace (n / 4096) with (n / 16 / 16 / 16)
    by (rewrite !N.Div0.div_div; reflexivity).
  assert (H3 : n / 16 / 16 / 16 < 16).
  { rewrite !N.Div0.div_div. apply N.Div0.div_lt_upper_bound. exact Hn. }
  rewrite (N.mod_small _ 16 H3).
  pose proof (N.div_mod n 16 ltac:(discriminate)) as H0.
  pose proof (N.div_mod (n / 16) 16 ltac:(discriminate)) as H1.
  pose proof (N.div_mod (n / 16 / 16) 16 ltac:(discriminate)) as H2.
  lia.
Qed.

Lemma scanstring_ordinary (c : N) (r acc : str) :
  N.eqb c QUOTE = false -> N.eqb c BACKSLASH = false -> N.ltb c 32 = false ->
  scanstring (c :: r) acc = scanstring r (c :: acc).
Proof. intros H1 H2 H3. cbn [scanstring]. rewrite H1, H2, H3. reflexivity. Qed.

Lemma scanstring_short (e ch : N) (r acc : str) :
  N.eqb e 117 = false -> unescape e = Some ch ->
  scanstring (BACKSLASH :: e :: r) acc = scanstring r (ch :: acc).
Proof.
  intros H1 H2. cbn [scanstring].
  change (N.eqb BACKSLASH QUOTE) with false.
  change (N.eqb BACKSLASH BACKSLASH) with true. cbv iota.
  rewrite H1, H2. reflexivity.
Qed.

Lemma scanstring_u4 (h1 h2 h3 h4 uni : N) (r acc : str) :
  unhex4 h1 h2 h3 h4 = Some uni -> is_high_surrogate uni = false ->
  scanstring (BACKSLASH :: 117 :: h1 :: h2 :: h3 :: h4 :: r) acc =
  scanstring r (uni :: acc).
Proof.
  intros H1 H2. cbn [scanstring].
  change (N.eqb BACKSLASH QUOTE) with false.
  change (N.eqb BACKSLASH BACKSLASH) with true.
  change (N.eqb 117 117) with true. cbv iota.
  rewrite H1, H2. reflexivity.
Qed.

Lemma scanstring_pair (h1 h2 h3 h4 g1 g2 g3 g4 uni uni2 : N) (r acc : str) :
  unhex4 h1 h2 h3 h4 = Some uni -> is_high_surrogate uni = true ->
  unhex4 g1 g2 g3 g4 = Some uni2 -> is_low_surrogate uni2 = true ->
  scanstring (BACKSLASH :: 117 :: h1 :: h2 :: h3 :: h4 ::
              BACKSLASH :: 117 :: g1 :: g2 :: g3 :: g4 :: r) acc =
  scanstring r (65536 + N.lor (N.shiftl (uni - 55296) 10) (uni2 - 56320) :: acc).
Proof.
  intros H1 H2 H3 H4. cbn [scanstring].
  change (N.eqb BACKSLASH QUOTE) with false.
  change (N.eqb BACKSLASH BACKSLASH) with true.
  change (N.eqb 117 117) with true. cbv iota.
  rewrite H1, H2. cbn [andb]. rewrite H3, H4. reflexivity.
Qed.

(** The two halves of a surrogate pair. *)
Lemma surrogate_pair (c : N) :
  65536 <= c -> c < 1114112 ->
  let n := c - 65536 in
  let s1 := N.lor 55296 (N.land (N.shiftr n 10) 1023) in
  let s2 := N.lor 56320 (N.land n 1023) in
  s1 < 65536 /\ s2 < 65536
  /\ is_high_surrogate s1 = true /\ is_low_surrogate s2 = true
  /\ 65536 + N.lor (N.shiftl (s1 - 55296) 10) (s2 - 56320) = c.
Proof.
  intros Hlo Hhi n s1 s2.
  assert (Hn : n < 1048576) by (unfold n; lia).
  assert (Hhi10 : N.land (N.shiftr n 10) 1023 = n / 1024).
  { change 1023 with (N.ones 10). rewrite N.land_ones, N.shiftr_div_pow2.
    change (2 ^ 10) with 1024. apply N.mod_small.
    apply N.Div0.div_lt_upper_bound. exact Hn. }
  assert (Hlo10 : N.land n 1023 = n mod 1024).
  { change 1023 with (N.ones 10). rewrite N.land_ones. reflexivity. }
  assert (Hq : n / 1024 < 1024).
  { apply N.Div0.div_lt_upper_bound. exact Hn. }
  assert (Hr : n mod 1024 < 1024) by (apply N.mod_lt; discriminate).
  assert (Hs1 : s1 = 55296 + n / 1024).
  { unfold s1. rewrite Hhi10. change 55296 with (54 * 2 ^ 10).
    apply lor_high_low. exact Hq. }
  assert (Hs2 : s2 = 56320 + n mod 1024).
  { unfold s2. rewrite Hlo10. change 56320 with (55 * 2 ^ 10).
    apply lor_high_low. exact Hr. }
  rewrite Hs1, Hs2. unfold is_high_surrogate, is_low_surrogate.
  repeat split; try lia.
  - apply andb_true_intro. split; apply N.leb_le; lia.
  - apply andb_true_intro. split; apply N.leb_le; lia.
  - replace (55296 + n / 1024 - 55296) with (n / 1024) by lia.
    replace (56320 + n mod 1024 - 56320) with (n mod 1024) by lia.
    rewrite N.shiftl_mul_pow2. rewrite lor_high_low by exact Hr.
    change (2 ^ 10) with 1024.
    pose proof (N.div_mod n 1024 ltac:(discriminate)). unfold n in *. lia.
Qed.

(** What the encoder writes for a code point is read back as that code
    point. *)
Lemma scanstring_escape (c : N) (r acc : str) :
  scalar c = true ->
  scanstring (escape_ascii c ++ r) acc = scanstring r (c :: acc).
Proof.
  intros Hc. unfold scalar in Hc. apply andb_prop in Hc.
  destruct Hc as [Hmax Hsur]. apply N.ltb_lt in Hmax.
  unfold escape_ascii.
  destruct (N.eqb_spec c BACKSLASH) as [->|H92];
    [apply scanstring_short; reflexivity|].
  destruct (N.eqb_spec c QUOTE) as [->|H34];
    [apply scanstring_short; reflexivity|].
  destruct (N.eqb_spec c 8) as [->|H8];
    [apply scanstring_short; reflexivity|].
  destruct (N.eqb_spec c 12) as [->|H12];
    [apply scanstring_short; reflexivity|].
  destruct (N.eqb_spec c 10) as [->|H10];
    [apply scanstring_short; reflexivity|].
  destruct (N.eqb_spec c 13) as [->|H13];
    [apply scanstring_short; reflexivity|].
  destruct (N.eqb_spec c 9) as [->|H9];
    [apply scanstring_short; reflexivity|].
  destruct (N.leb 32 c && N.leb c 126) eqn:Hprint.
  { apply andb_prop in Hprint. destruct Hprint as [H32 _].
    apply N.leb_le in H32. cbn [app].
    apply scanstring_ordinary.
    - apply N.eqb_neq. assumption.
    - apply N.eqb_neq. assumption.
    - apply N.ltb_ge. assumption. }
  destruct (N.ltb_spec c 65536) as [Hbmp|Hastral].
  { change (BACKSLASH :: py "u" ++ hex4 c) with
      (BACKSLASH :: 117 :: hex4 c). unfold hex4. cbn [app].
    apply scanstring_u4; [apply unhex4_hex4; assumption|].
    apply negb_true_iff in Hsur. apply andb_false_iff in Hsur.
    unfold is_high_surrogate. apply andb_false_iff.
    destruct Hsur as [Hs|Hs]; apply N.leb_gt in Hs;
      [left|right]; apply N.leb_gt; lia. }
  cbv zeta.
  destruct (surrogate_pair Hastral Hmax) as [Hs1 [Hs2 [Hhigh [Hlow Hjoin]]]].
  cbv zeta in Hs1, Hs2, Hhigh, Hlow, Hjoin.
  set (s1 := N.lor 55296 (N.land (N.shiftr (c - 65536) 10) 1023)) in *.
  set (s2 := N.lor 56320 (N.land (c - 65536) 1023)) in *.
  change (BACKSLASH :: py "u" ++ hex4 s1 ++ BACKSLASH :: py "u" ++ hex4 s2)
    with (BACKSLASH :: 117 :: hex4 s1 ++ BACKSLASH :: 117 :: hex4 s2).
  unfold hex4. cbn [app].
  rewrite (@scanstring_pair _ _ _ _ _ _ _ _ _ _ r acc
             (unhex4_hex4 Hs1) Hhigh (unhex4_hex4 Hs2) Hlow).
  rewrite Hjoin. reflexivity.
Qed.

(** A string of scalar values between quotation marks is read back. *)
Lemma scanstring_encoded (s r acc : str) :
  forallb scalar s = true ->
  scanstring (flat_map escape_ascii s ++ QUOTE :: r) acc = Ok (rev acc ++ s, r).
Proof.
  revert acc. induction s as [|c s IH]; intros acc Hs.
  - cbn [flat_map app scanstring].
    change (N.eqb QUOTE QUOTE) with true. cbv iota.
    rewrite app_nil_r. reflexivity.
  - cbn [forallb] in Hs. apply andb_prop in Hs. destruct Hs as [Hc Hs].
    cbn [flat_map]. rewrite <- app_assoc.
    rewrite (@scanstring_escape c _ _ Hc). rewrite (IH _ Hs).
    cbn [rev]. rewrite <- app_assoc. reflexivity.
Qed.

End RoundTripText.

(** ** Integers *)

Section RoundTripNumbers.
Context {runtime : PyRuntime}.
Local Open Scope N_scope.

Lemma delimited_cases (rest : str) :
  delimited rest = true ->
  rest = [] \/ exists c r, rest = c :: r /\
    (c = 44 \/ c = 93 \/ c = 125 \/ c = 32 \/ c = 9 \/ c = 10 \/ c = 13).
Proof.
  destruct rest as [|c r]; [left; reflexivity|]. intros H. right.
  exists c, r. split; [reflexivity|]. unfold delimited, is_ws in H.
  repeat (apply orb_prop in H; destruct H as [H|H]);
    apply N.eqb_eq in H; tauto.
Qed.

Ltac by_delimiter H :=
  let c := fresh "c" in let r := fresh "r" in let Hc := fresh "Hc" in
  destruct (delimited_cases _ H) as [->|[c [r [-> Hc]]]];
  [ | repeat (destruct Hc as [Hc|Hc]); subst c ].

Lemma span_digits_delimited (ds rest : str) :
  Forall (fun c => is_digit c = true) ds -> delimited rest = true ->
  span_digits (ds ++ rest) = (ds, rest).
Proof.
  intros Hds Hrest. induction Hds as [|d ds Hd Hds IH].
  - by_delimiter Hrest; reflexivity.
  - cbn [app span_digits]. rewrite Hd, IH. reflexivity.
Qed.

Lemma match_fraction_delimited (rest : str) :
  delimited rest = true -> match_fraction rest = ([], rest).
Proof.
  intros Hrest. by_delimiter Hrest; try reflexivity;
    destruct r as [|d r]; reflexivity.
Qed.

Lemma match_exponent_delimited (rest : str) :
  delimited rest = true -> match_exponent rest = ([], rest).
Proof. intros Hrest. by_delimiter Hrest; reflexivity. Qed.

(** A run of digits that starts with a digit other than zero, with or
    without a minus sign before it, is matched as an integer. *)
Lemma match_number_digits (c : N) (ds rest : str) :
  N.leb 49 c && N.leb c 57 = true ->
  Forall (fun c => is_digit c = true) ds -> delimited rest = true ->
  match_number (c :: ds ++ rest) = Some (false, c :: ds, rest)
  /\ match_number (45 :: c :: ds ++ rest) = Some (false, 45 :: c :: ds, rest).
Proof.
  intros Hc Hds Hrest.
  assert (Hminus : N.eqb c 45 = false).
  { apply andb_prop in Hc. destruct Hc as [Hlo _]. apply N.leb_le in Hlo.
    apply N.eqb_neq. lia. }
  unfold match_number. rewrite Hminus.
  change (N.eqb 45 45) with true. cbv iota. rewrite Hc.
  rewrite (@span_digits_delimited _ _ Hds Hrest).
  rewrite (@match_fraction_delimited _ Hrest), (@match_exponent_delimited _ Hrest).
  cbn [app]. rewrite !List.app_nil_r. split; reflexivity.
Qed.

Lemma digits_of_uint (u : Decimal.uint) :
  Forall (fun c => is_digit c = true) (py (NilEmpty.string_of_uint u)).
Proof.
  induction u; cbn [NilEmpty.string_of_uint]; try rewrite py_cons;
    constructor; try reflexivity; assumption.
Qed.

(** The decimal text of a positive number: a digit from 1 to 9, then
    digits. *)
Lemma pos_text (p : positive) :
  exists c ds,
    py (NilZero.string_of_uint (Pos.to_uint p)) = c :: ds
    /\ N.leb 49 c && N.leb c 57 = true
    /\ Forall (fun c => is_digit c = true) ds.
Proof.
  assert (Hnorm : Pos.to_uint p = Decimal.nzhead (Pos.to_uint p)).
  { pose proof (DecimalPos.Unsigned.to_of (Pos.to_uint p)) as H.
    rewrite DecimalPos.Unsigned.of_to in H. cbn [N.to_uint] in H.
    pose proof (DecimalPos.Unsigned.to_uint_nonzero p) as Hnz.
    unfold Decimal.unorm in H.
    destruct (Decimal.nzhead (Pos.to_uint p)); congruence. }
  pose proof (DecimalFacts.nzhead_nonzero (Pos.to_uint p)) as Hhead.
  rewrite <- Hnorm in Hhead.
  pose proof (DecimalPos.Unsigned.to_uint_nonnil p) as Hnil.
  pose proof (digits_of_uint (Pos.to_uint p)) as Hdigits.
  destruct (Pos.to_uint p) as [|u|u|u|u|u|u|u|u|u|u];
    [congruence | exfalso; exact (Hhead u eq_refl) | | | | | | | | |];
    cbn [NilZero.string_of_uint NilEmpty.string_of_uint] in *;
    rewrite py_cons in *; inversion Hdigits; subst;
    eexists; eexists; (split; [reflexivity|]); (split; [reflexivity|assumption]).
Qed.

Lemma decimal_cases (n : Z) :
  decimal n = [48]
  \/ exists c ds,
       (decimal n = c :: ds \/ decimal n = 45 :: c :: ds)
       /\ N.leb 49 c && N.leb c 57 = true
       /\ Forall (fun c => is_digit c = true) ds.
Proof.
  unfold decimal. destruct n as [|p|p]; [left; reflexivity| |]; right;
    destruct (pos_text p) as [c [ds [Htext [Hc Hds]]]]; exists c, ds;
    cbn [Z.to_int NilZero.string_of_int]; try rewrite py_cons;
    rewrite Htext; (split; [|split; assumption]); [left|right]; reflexivity.
Qed.

(** The text of an integer is matched as an integer, whole. *)
Lemma match_number_decimal (n : Z) (rest : str) :
  delimited rest = true ->
  match_number (decimal n ++ rest) = Some (false, decimal n, rest).
Proof.
  intros Hrest.
  destruct (decimal_cases n) as [->|[c [ds [[->| ->] [Hc Hds]]]]].
  - cbn [app]. unfold match_number.
    change (N.eqb 48 45) with false. cbv iota.
    change (N.leb 49 48 && N.leb 48 57) with false.
    change (N.eqb 48 48) with true. cbv iota.
    rewrite (@match_fraction_delimited _ Hrest), (@match_exponent_delimited _ Hrest).
    reflexivity.
  - apply (@match_number_digits _ _ _ Hc Hds Hrest).
  - apply (@match_number_digits _ _ _ Hc Hds Hrest).
Qed.

Lemma digits_value_acc (u : Decimal.uint) (acc : positive) :
  fold_left (fun a c => (a * 10 + Z.of_N (c - 48))%Z)
            (py (NilEmpty.string_of_uint u)) (Z.pos acc) =
  Z.pos (Pos.of_uint_acc u acc).
Proof.
  revert acc. induction u; intros acc;
    cbn [NilEmpty.string_of_uint Pos.of_uint_acc]; try rewrite py_cons;
    [reflexivity | ..]; cbn [fold_left]; rewrite <- IHu; f_equal;
    match goal with
    | |- (_ + Z.of_N ?x)%Z = _ =>
        let v := eval vm_compute in (Z.of_N x) in change (Z.of_N x) with v
    end; lia.
Qed.

Lemma digits_value (u : Decimal.uint) :
  fold_left (fun a c => (a * 10 + Z.of_N (c - 48))%Z)
            (py (NilEmpty.string_of_uint u)) 0%Z =
  Z.of_N (Pos.of_uint u).
Proof.
  induction u; cbn [NilEmpty.string_of_uint Pos.of_uint]; try rewrite py_cons;
    [reflexivity | exact IHu | ..]; cbn [fold_left];
    cbn [Z.of_N]; rewrite <- digits_value_acc; reflexivity.
Qed.

(** [int(repr(n)) == n] *)
Lemma decimal_value_decimal (n : Z) : decimal_value (decimal n) = n.
Proof.
  destruct n as [|p|p]; [reflexivity | |].
  - destruct (pos_text p) as [c [ds [Htext [Hc Hds]]]].
    unfold decimal, decimal_value. cbn [Z.to_int NilZero.string_of_int].
    rewrite Htext.
    assert (Hminus : N.eqb c 45 = false).
    { apply andb_prop in Hc. destruct Hc as [Hlo _]. apply N.leb_le in Hlo.
      apply N.eqb_neq. lia. }
    rewrite Hminus. rewrite <- Htext.
    pose proof (DecimalPos.Unsigned.to_uint_nonnil p) as Hnil.
    replace (NilZero.string_of_uint (Pos.to_uint p))
      with (NilEmpty.string_of_uint (Pos.to_uint p))
      by (destruct (Pos.to_uint p); [congruence | reflexivity ..]).
    rewrite digits_value, DecimalPos.Unsigned.of_to. reflexivity.
  - unfold decimal, decimal_value. cbn [Z.to_int NilZero.string_of_int].
    rewrite py_cons. change (N.eqb (N_of_ascii "-") 45) with true. cbv iota.
    pose proof (DecimalPos.Unsigned.to_uint_nonnil p) as Hnil.
    replace (NilZero.string_of_uint (Pos.to_uint p))
      with (NilEmpty.string_of_uint (Pos.to_uint p))
      by (destruct (Pos.to_uint p); [congruence | reflexivity ..]).
    rewrite digits_value, DecimalPos.Unsigned.of_to. reflexivity.
Qed.

End RoundTripNumbers.

(** ** Lists and dictionaries *)

Section RoundTripValues.
Context {runtime : PyRuntime}.
Local Open Scope N_scope.

(** [dict(pairs)] for pairs with distinct keys keeps the pairs. *)

Lemma str_eqb_sym (a b : str) : str_eqb a b = str_eqb b a.
Proof.
  revert b. induction a as [|x a IH]; intros [|y b]; cbn [str_eqb];
    try reflexivity.
  rewrite N.eqb_sym, IH. reflexivity.
Qed.

Lemma dict_set_fresh (d : list (value * value)) (k : str) (v : value) :
  existsb (fun kv => key_is k (fst kv)) d = false ->
  dict_set d k v = d ++ [(PyStr k, v)].
Proof.
  induction d as [|[k' v'] d IH]; intros H; [reflexivity|].
  cbn [existsb fst] in H. apply orb_false_iff in H. destruct H as [Hk Hd].
  cbn [dict_set app]. rewrite Hk, (IH Hd). reflexivity.
Qed.

Lemma dict_of_pairs_fold (d acc : list (value * value)) :
  Forall (fun kv => exists k, fst kv = PyStr k) d ->
  distinct_keys d = true ->
  (forall kv, In kv d ->
     existsb (fun e => key_is (key_text (fst kv)) (fst e)) acc = false) ->
  fold_left (fun d kv => dict_set d (fst kv) (snd kv))
            (map (fun kv => (key_text (fst kv), snd kv)) d) acc = acc ++ d.
Proof.
  intros Hkeys. revert acc.
  induction Hkeys as [|[k0 v] d [k Hk] Hkeys IH]; intros acc Hdistinct Hfresh.
  - cbn [map fold_left]. rewrite List.app_nil_r. reflexivity.
  - cbn [fst] in Hk. subst k0.
    cbn [distinct_keys key_text] in Hdistinct.
    apply andb_prop in Hdistinct. destruct Hdistinct as [Hhead Hdistinct].
    apply negb_true_iff in Hhead.
    cbn [map fold_left fst snd key_text].
    rewrite dict_set_fresh
      by (exact (Hfresh (PyStr k, v) (or_introl eq_refl))).
    rewrite IH; [rewrite <- List.app_assoc; reflexivity | exact Hdistinct |].
    intros kv Hin. rewrite existsb_app.
    rewrite (Hfresh kv (or_intror Hin)). cbn [orb existsb fst key_is].
    rewrite orb_false_r.
    assert (Hall : forall x, In x d -> key_is k (fst x) = false).
    { intros x Hx. destruct (key_is k (fst x)) eqn:E; [|reflexivity].
      rewrite <- Hhead. symmetry. apply existsb_exists. exists x. auto. }
    specialize (Hall kv Hin).
    rewrite Forall_forall in Hkeys. destruct (Hkeys kv Hin) as [k' Hk'].
    rewrite Hk' in *. cbn [key_text key_is] in *.
    rewrite str_eqb_sym. exact Hall.
Qed.

Lemma dict_of_pairs_items (d : list (value * value)) :
  Forall (fun kv => exists k, fst kv = PyStr k) d ->
  distinct_keys d = true ->
  dict_of_pairs (map (fun kv => (key_text (fst kv), snd kv)) d) = d.
Proof.
  intros Hkeys Hdistinct. unfold dict_of_pairs.
  rewrite (@dict_of_pairs_fold d [] Hkeys Hdistinct); [reflexivity|].
  reflexivity.
Qed.

(** The cases of [scan_once] on what the encoder writes. *)

Lemma digit_cases (c : N) :
  is_digit c = true ->
  c = 48 \/ c = 49 \/ c = 50 \/ c = 51 \/ c = 52 \/ c = 53 \/ c = 54
  \/ c = 55 \/ c = 56 \/ c = 57.
Proof.
  unfold is_digit. intros H. apply andb_prop in H. destruct H as [H1 H2].
  apply N.leb_le in H1. apply N.leb_le in H2. lia.
Qed.

Lemma scan_once_number (fuel depth : nat) (c : N) (r : str)
      (is_float : bool) (text r' : str) :
  c = 45 \/ is_digit c = true ->
  match_number (c :: r) = Some (is_float, text, r') ->
  scan_once (S fuel) depth (c :: r) =
    if is_float then Ok (PyFloat (float_of_str text), r')
    else (n <- int_of_str text ;; Ok (PyInt n, r'))%result.
Proof.
  intros [->|Hd] Hm.
  - cbn [scan_once]. rewrite Hm. reflexivity.
  - apply digit_cases in Hd.
    repeat (destruct Hd as [->|Hd]); try subst c;
      cbn [scan_once]; rewrite Hm; reflexivity.
Qed.

Lemma count_digits_length (text : str) :
  (count_digits text <= List.length text)%nat.
Proof.
  unfold count_digits. destruct text as [|c r]; [lia|].
  destruct c as [|p]; [lia|].
  repeat (destruct p as [p|p|]; try lia). cbn [List.length]. lia.
Qed.

(** A text [int.__repr__] has written is within the limit of [int]. *)
Lemma int_of_str_decimal (n : Z) (text : str) :
  int_repr n = Ok text -> int_of_str text = Ok n.
Proof.
  unfold int_repr, int_of_str.
  destruct (too_many_digits (List.length (decimal n))
              (count_digits (decimal n))) eqn:Hrepr; [discriminate|].
  intros H. injection H as <-.
  assert (Hparse : too_many_digits (count_digits (decimal n))
                     (count_digits (decimal n)) = false).
  { pose proof (count_digits_length (decimal n)) as Hlen.
    unfold too_many_digits in *.
    destruct (Nat.ltb_spec 640 (count_digits (decimal n))) as [Hlong|];
      [|reflexivity].
    destruct (Nat.ltb_spec 640 (List.length (decimal n))) as [|Hshort];
      [exact Hrepr | lia]. }
  rewrite Hparse, decimal_value_decimal. reflexivity.
Qed.

Lemma scan_once_int (fuel depth : nat) (n : Z) (text rest : str) :
  delimited rest = true -> int_repr n = Ok text ->
  scan_once (S fuel) depth (text ++ rest) = Ok (PyInt n, rest).
Proof.
  intros Hrest Hrepr.
  pose proof (int_repr_Ok _ Hrepr) as Htext.
  pose proof (@match_number_decimal n rest Hrest) as Hm.
  assert (Hhead : exists c r, decimal n = c :: r
                              /\ (c = 45 \/ is_digit c = true)).
  { destruct (decimal_cases n) as [->|[c [ds [[->| ->] [Hc Hds]]]]].
    - exists 48, []. split; [reflexivity|]. right. reflexivity.
    - exists c, ds. split; [reflexivity|]. right.
      apply andb_prop in Hc. destruct Hc as [H1 H2].
      apply N.leb_le in H1. unfold is_digit. rewrite H2.
      replace (N.leb 48 c) with true by (symmetry; apply N.leb_le; lia).
      reflexivity.
    - exists 45, (c :: ds). split; [reflexivity|]. left. reflexivity. }
  destruct Hhead as [c [r [Hdecimal Hc]]].
  subst text. rewrite Hdecimal in Hm |- *. cbn [app] in *.
  rewrite (@scan_once_number fuel depth c (r ++ rest) false (c :: r) rest Hc Hm).
  rewrite <- Hdecimal, (int_of_str_decimal _ Hrepr). reflexivity.
Qed.

Lemma scan_once_string (fuel depth : nat) (s rest : str) :
  forallb scalar s = true ->
  scan_once (S fuel) depth (encode_basestring_ascii s ++ rest) =
    Ok (PyStr s, rest).
Proof.
  intros Hs. unfold encode_basestring_ascii. cbn [app].
  rewrite <- List.app_assoc. cbn [app scan_once].
  change (N.eqb QUOTE QUOTE) with true. cbv iota.
  rewrite (@scanstring_at_scanned _ _ _ (@scanstring_encoded s rest [] Hs)). reflexivity.
Qed.

Lemma scan_once_list (fuel depth : nat) (c : N) (r : str) :
  is_ws c = false -> N.eqb c 93 = false ->
  scan_once (S fuel) (S depth) (91 :: c :: r) =
    ('(vs, r') <- parse_items fuel depth (c :: r) [] ;;
     Ok (PyList vs, r'))%result.
Proof.
  intros Hws Hclose. cbn [scan_once].
  change (N.eqb 91 QUOTE) with false. change (N.eqb 91 123) with false.
  change (N.eqb 91 91) with true. cbv iota.
  cbn [skip_ws]. rewrite Hws, Hclose. reflexivity.
Qed.

Lemma scan_once_dict (fuel depth : nat) (r : str) :
  scan_once (S fuel) (S depth) (123 :: QUOTE :: r) =
    ('(pairs, r') <- parse_pairs fuel depth r [] ;;
     Ok (PyDict (dict_of_pairs pairs), r'))%result.
Proof. reflexivity. Qed.

Lemma skip_ws_head (c : N) (r : str) :
  is_ws c = false -> skip_ws (c :: r) = c :: r.
Proof. intros H. cbn [skip_ws]. rewrite H. reflexivity. Qed.

Lemma opens_value_closed (c : N) (r : str) :
  is_ws c = false -> N.eqb c 93 = false -> opens_value (c :: r).
Proof. intros H1 H2. exists c, r. repeat split; assumption. Qed.

Lemma encode_opens_value (v : value) (depth : nat) (s : str) :
  plain v = true -> encode depth v = Ok s -> opens_value s.
Proof.
  destruct v as [ | b | n | x | s0 | l | l | d | t ]; cbn [plain encode];
    intros Hplain H; try discriminate.
  - injection H as <-. apply opens_value_closed; reflexivity.
  - destruct b; injection H as <-; apply opens_value_closed; reflexivity.
  - apply int_repr_Ok in H. subst s.
    destruct (decimal_cases n) as [->|[c [ds [[->| ->] [Hc Hds]]]]].
    + apply opens_value_closed; reflexivity.
    + apply andb_prop in Hc. destruct Hc as [H1 H2].
      apply N.leb_le in H1. apply N.leb_le in H2.
      apply opens_value_closed; unfold is_ws;
        repeat match goal with
        | |- context [N.eqb c ?k] =>
            replace (N.eqb c k) with false by (symmetry; apply N.eqb_neq; lia)
        end; reflexivity.
    + apply opens_value_closed; reflexivity.
  - injection H as <-. apply opens_value_closed; reflexivity.
  - destruct depth as [|depth]; [discriminate|].
    destruct l as [|v l'];
      [injection H as <-; apply opens_value_closed; reflexivity|].
    destruct (result_map (encode depth) (v :: l')) as [ss|e]; cbn [rbind] in H;
      [|discriminate].
    injection H as <-. apply opens_value_closed; reflexivity.
  - destruct depth as [|depth]; [discriminate|].
    destruct d as [|kv d'];
      [injection H as <-; apply opens_value_closed; reflexivity|].
    match type of H with
    | rbind ?m _ = _ => destruct m as [ss|e]; cbn [rbind] in H; [|discriminate]
    end.
    injection H as <-. apply opens_value_closed; reflexivity.
Qed.

Lemma join_cons (sep s : str) (ss : list str) :
  join sep (s :: ss) =
    match ss with
    | [] => s
    | _ :: _ => s ++ sep ++ join sep ss
    end.
Proof. destruct ss; reflexivity. Qed.

(** The decoding of the elements of an encoded list, up to the closing
    bracket. *)
Lemma parse_items_encoded (l : list value) :
  Forall (fun v => plain v = true ->
            forall depth s, encode depth v = Ok s ->
            forall fuel rest, delimited rest = true ->
              (2 * List.length (s ++ rest) < fuel)%nat ->
              scan_once fuel depth (s ++ rest) = Ok (v, rest)) l ->
  forallb plain l = true ->
  l <> [] ->
  forall depth ss, result_map (encode depth) l = Ok ss ->
  forall fuel acc rest,
    (2 * List.length (join (py ", ") ss ++ 93 :: rest)%N + 1 < fuel)%nat ->
    parse_items fuel depth (join (py ", ") ss ++ 93 :: rest) acc =
      Ok (rev acc ++ l, rest).
Proof.
  induction 1 as [|v l Hv Hl IH];
    intros Hplain Hne depth ss Hss fuel acc rest Hfuel; [congruence|].
  cbn [forallb] in Hplain. apply andb_prop in Hplain.
  destruct Hplain as [Hpv Hpl].
  cbn [result_map] in Hss.
  destruct (encode depth v) as [s1|] eqn:Hs1; cbn [rbind] in Hss;
    [|discriminate].
  destruct (result_map (encode depth) l) as [ss'|] eqn:Hss'; cbn [rbind] in Hss;
    [|discriminate].
  injection Hss as <-.
  destruct fuel as [|fuel]; [lia|].
  cbn [parse_items]. rewrite join_cons in Hfuel |- *.
  destruct l as [|v2 l'].
  - (* the last element *)
    cbn [result_map] in Hss'. injection Hss' as <-.
    rewrite (Hv Hpv depth s1 Hs1 fuel (93 :: rest) eq_refl) by lia.
    cbn [rbind].
    change (skip_ws (93 :: rest)) with (93 :: rest).
    change (N.eqb 93 93) with true. cbv iota.
    cbn [rev]. reflexivity.
  - assert (Hnext : exists s2 ss'', ss' = s2 :: ss''
                                    /\ encode depth v2 = Ok s2).
    { cbn [result_map] in Hss'.
      destruct (encode depth v2) as [s2|]; cbn [rbind] in Hss'; [|discriminate].
      destruct (result_map (encode depth) l') as [ss''|]; cbn [rbind] in Hss';
        [|discriminate].
      injection Hss' as <-. eauto. }
    destruct Hnext as [s2 [ss'' [-> Hs2]]].
    pose proof Hpl as Hpv2.
    cbn [forallb] in Hpv2. apply andb_prop in Hpv2. destruct Hpv2 as [Hpv2 _].
    destruct (@encode_opens_value v2 depth s2 Hpv2 Hs2) as [c [r [-> [Hws _]]]].
    assert (Hjoin : exists r', join (py ", ") ((c :: r) :: ss'') = c :: r').
    { rewrite join_cons. destruct ss''; cbn [app]; eauto. }
    match goal with
    | |- context [join ?sep ?x] =>
        change (exists r', join sep x = c :: r') in Hjoin
    end.
    destruct Hjoin as [r' Hjoin].
    specialize (IH Hpl ltac:(discriminate) depth _ Hss' fuel (v :: acc) rest).
    rewrite Hjoin in IH, Hfuel |- *.
    change (py ", ") with [44; 32] in Hfuel |- *.
    rewrite <- !List.app_assoc in Hfuel |- *. cbn [app] in Hfuel, IH |- *.
    assert (Hlen : (List.length (s1 ++ 44 :: 32 :: c :: r' ++ 93 :: rest)%N =
                    List.length s1 + 2 +
                    List.length (c :: r' ++ 93 :: rest)%N)%nat).
    { rewrite List.length_app. cbn [List.length]. lia. }
    rewrite (Hv Hpv depth s1 Hs1 fuel (44 :: 32 :: c :: r' ++ 93 :: rest)
               eq_refl) by lia.
    cbn [rbind].
    change (skip_ws (44 :: 32 :: c :: r' ++ 93 :: rest))
      with (44 :: 32 :: c :: r' ++ 93 :: rest).
    change (N.eqb 44 93) with false. change (N.eqb 44 44) with true. cbv iota.
    change (skip_ws (32 :: c :: r' ++ 93 :: rest))
      with (skip_ws (c :: r' ++ 93 :: rest)).
    rewrite (@skip_ws_head c _ Hws).
    rewrite IH by lia.
    cbn [rev]. rewrite <- List.app_assoc. reflexivity.
Qed.

Lemma parse_pairs_encoded (d : list (value * value)) :
  Forall (fun kv => plain (snd kv) = true ->
            forall depth s, encode depth (snd kv) = Ok s ->
            forall fuel rest, delimited rest = true ->
              (2 * List.length (s ++ rest) < fuel)%nat ->
              scan_once fuel depth (s ++ rest) = Ok (snd kv, rest)) d ->
  forallb (fun kv =>
             match fst kv with
             | PyStr k => forallb scalar k
             | _ => false
             end && plain (snd kv)) d = true ->
  d <> [] ->
  forall depth ss, result_map (encode_item depth) d = Ok ss ->
  exists body,
    join (py ", ") ss = QUOTE :: body
    /\ forall fuel acc rest,
         (2 * List.length (body ++ 125 :: rest)%N < fuel)%nat ->
         parse_pairs fuel depth (body ++ 125 :: rest) acc =
           Ok (rev acc ++ map (fun kv => (key_text (fst kv), snd kv)) d, rest).
Proof.
  induction 1 as [|[k0 v] d Hv Hd IH]; intros Hplain Hne depth ss Hss;
    [congruence|].
  cbn [forallb fst snd] in Hplain. apply andb_prop in Hplain.
  destruct Hplain as [Hhead Hpd]. apply andb_prop in Hhead.
  destruct Hhead as [Hk Hpv].
  destruct k0 as [ | | | | k | | | | ]; try discriminate.
  cbn [result_map] in Hss. unfold encode_item at 1 in Hss.
  cbn [fst snd encode_key rbind] in Hss, Hv.
  destruct (encode depth v) as [vs|] eqn:Hvs; cbn [rbind] in Hss;
    [|discriminate].
  destruct (result_map (encode_item depth) d) as [ss'|] eqn:Hss';
    cbn [rbind] in Hss; [|discriminate].
  injection Hss as <-.
  destruct (@encode_opens_value v depth vs Hpv Hvs) as [c [r [-> [Hws _]]]].
  rewrite join_cons. unfold encode_basestring_ascii.
  change (py ": ") with [58; 32].
  destruct d as [|kv2 d'].
  - cbn [result_map] in Hss'. injection Hss' as <-.
    eexists. split; [cbn [app]; reflexivity|].
    intros fuel acc rest Hfuel.
    destruct fuel as [|fuel]; [lia|].
    revert Hfuel.
    cbn [parse_pairs]. repeat (rewrite <- List.app_assoc || cbn [app]).
    intros Hfuel.
    assert (Hlen : (List.length
                      (flat_map escape_ascii k ++
                       QUOTE :: 58 :: 32 :: c :: r ++ 125 :: rest)%N =
                    List.length (flat_map escape_ascii k) + 3 +
                    List.length (c :: r ++ 125 :: rest)%N)%nat).
    { rewrite List.length_app. cbn [List.length]. lia. }
    rewrite (@scanstring_at_scanned _ _ _ (@scanstring_encoded k _ [] Hk)). cbn [rbind rev app].
    match goal with
    | |- context [skip_ws (58 :: ?x)] =>
        change (skip_ws (58 :: x)) with (58 :: x)
    end.
    change (N.eqb 58 58) with true. cbv iota.
    match goal with
    | |- context [skip_ws (32 :: ?x)] =>
        change (skip_ws (32 :: x)) with (skip_ws x)
    end.
    rewrite (@skip_ws_head c _ Hws).
    pose proof (Hv Hpv depth (c :: r) Hvs fuel (125 :: rest) eq_refl) as Hread.
    cbn [app] in Hread. rewrite Hread by lia. cbn [rbind].
    change (skip_ws (125 :: rest)) with (125 :: rest).
    change (N.eqb 125 125) with true. cbv iota.
    cbn [map fst snd key_text rev]. reflexivity.
  - destruct (IH Hpd ltac:(discriminate) depth ss' Hss') as [body [Hjoin Hrest]].
    assert (Hss'ne : exists s2 ss'', ss' = s2 :: ss'').
    { cbn [result_map] in Hss'.
      destruct (encode_item depth kv2); cbn [rbind] in Hss'; [|discriminate].
      destruct (result_map (encode_item depth) d'); cbn [rbind] in Hss';
        [|discriminate].
      injection Hss' as <-. eauto. }
    destruct Hss'ne as [s2 [ss'' ->]].
    rewrite Hjoin. change (py ", ") with [44; 32].
    eexists. split; [cbn [app]; reflexivity|].
    intros fuel acc rest Hfuel.
    destruct fuel as [|fuel]; [lia|].
    revert Hfuel.
    cbn [parse_pairs]. repeat (rewrite <- List.app_assoc || cbn [app]).
    intros Hfuel.
    assert (Hlen : (List.length
                      (flat_map escape_ascii k ++
                       QUOTE :: 58 :: 32 :: c :: r ++
                       44 :: 32 :: QUOTE :: body ++ 125 :: rest)%N =
                    List.length (flat_map escape_ascii k) + 3 +
                    List.length (c :: r ++
                       44 :: 32 :: QUOTE :: body ++ 125 :: rest)%N)%nat).
    { rewrite List.length_app. cbn [List.length]. lia. }
    assert (Hlen2 : (List.length (c :: r ++
                       44 :: 32 :: QUOTE :: body ++ 125 :: rest)%N =
                     List.length (c :: r) + 3 +
                     List.length (body ++ 125 :: rest)%N)%nat).
    { change (c :: r ++ 44 :: 32 :: QUOTE :: body ++ 125 :: rest)
        with ((c :: r) ++ 44 :: 32 :: QUOTE :: body ++ 125 :: rest).
      rewrite List.length_app. cbn [List.length]. lia. }
    rewrite (@scanstring_at_scanned _ _ _ (@scanstring_encoded k _ [] Hk)). cbn [rbind rev app].
    match goal with
    | |- context [skip_ws (58 :: ?x)] =>
        change (skip_ws (58 :: x)) with (58 :: x)
    end.
    change (N.eqb 58 58) with true. cbv iota.
    match goal with
    | |- context [skip_ws (32 :: ?x)] =>
        change (skip_ws (32 :: x)) with (skip_ws x)
    end.
    rewrite (@skip_ws_head c _ Hws).
    pose proof (Hv Hpv depth (c :: r) Hvs fuel
                  (44 :: 32 :: QUOTE :: body ++ 125 :: rest) eq_refl) as Hread.
    cbn [app] in Hread. rewrite Hread by lia. cbn [rbind].
    match goal with
    | |- context [skip_ws (44 :: ?x)] =>
        change (skip_ws (44 :: x)) with (44 :: x)
    end.
    change (N.eqb 44 125) with false. change (N.eqb 44 44) with true. cbv iota.
    match goal with
    | |- context [skip_ws (32 :: QUOTE :: ?x)] =>
        change (skip_ws (32 :: QUOTE :: x)) with (QUOTE :: x)
    end.
    change (N.eqb QUOTE QUOTE) with true. cbv iota.
    rewrite (Hrest fuel ((k, v) :: acc) rest) by (cbn [List.length] in *; lia).
    cbn [rev map fst snd key_text]. rewrite <- List.app_assoc. reflexivity.
Qed.

(** Decoding the text of a plain value gives the value back and stops
    right after it: the decoder has the room the encoder had. *)
Lemma scan_once_encoded (v : value) :
  plain v = true ->
  forall depth s, encode depth v = Ok s ->
  forall fuel rest, delimited rest = true ->
    (2 * List.length (s ++ rest) < fuel)%nat ->
    scan_once fuel depth (s ++ rest) = Ok (v, rest).
Proof.
  induction v as [ | b | n | x | s0 | l IH | l IH | d IH | t ] using value_ind;
    intros Hplain depth s Hs fuel rest Hrest Hfuel; cbn [plain] in Hplain;
    try discriminate;
    (destruct fuel as [|fuel]; [lia|]).
  - cbn [encode] in Hs. injection Hs as <-. reflexivity.
  - destruct b; cbn [encode] in Hs; injection Hs as <-; reflexivity.
  - cbn [encode] in Hs. apply scan_once_int; assumption.
  - cbn [encode] in Hs. injection Hs as <-. apply scan_once_string.
    exact Hplain.
  - (* a list *)
    cbn [encode] in Hs. destruct depth as [|depth]; [discriminate|].
    destruct l as [|v l']; [injection Hs as <-; reflexivity|].
    destruct (result_map (encode depth) (v :: l')) as [ss|] eqn:Hss;
      cbn [rbind] in Hs; [|discriminate].
    injection Hs as <-.
    pose proof (@parse_items_encoded (v :: l') IH Hplain ltac:(discriminate)
                  depth ss Hss fuel [] rest) as Hitems.
    assert (Hhead : exists c r, join (py ", ") ss = c :: r
                                /\ is_ws c = false /\ N.eqb c 93 = false).
    { cbn [result_map] in Hss.
      destruct (encode depth v) as [s1|] eqn:Hs1; cbn [rbind] in Hss;
        [|discriminate].
      destruct (result_map (encode depth) l') as [ss'|]; cbn [rbind] in Hss;
        [|discriminate].
      injection Hss as <-.
      cbn [forallb] in Hplain. apply andb_prop in Hplain.
      destruct Hplain as [Hpv _].
      destruct (@encode_opens_value v depth s1 Hpv Hs1)
        as [c [r [-> [Hws Hc]]]].
      rewrite join_cons. destruct ss'; cbn [app]; eauto. }
    destruct Hhead as [c [r [Hjoin [Hws Hc]]]].
    rewrite Hjoin in Hitems, Hfuel |- *.
    change (py "[") with [91] in Hfuel |- *.
    change (py "]") with [93] in Hfuel |- *.
    revert Hfuel. cbn [app]. rewrite <- List.app_assoc. cbn [app].
    intros Hfuel. cbn [List.length] in Hfuel.
    rewrite (@scan_once_list fuel depth c _ Hws Hc).
    cbn [app] in Hitems. rewrite Hitems by (cbn [List.length]; lia).
    reflexivity.
  - (* a dictionary *)
    apply andb_prop in Hplain. destruct Hplain as [Hitems Hdistinct].
    cbn [encode] in Hs. destruct depth as [|depth]; [discriminate|].
    destruct d as [|kv d']; [injection Hs as <-; reflexivity|].
    change (result_map _ (kv :: d'))
      with (result_map (encode_item depth) (kv :: d')) in Hs.
    destruct (result_map (encode_item depth) (kv :: d')) as [ss|] eqn:Hss;
      cbn [rbind] in Hs; [|discriminate].
    injection Hs as <-.
    destruct (@parse_pairs_encoded (kv :: d') IH Hitems ltac:(discriminate)
                depth ss Hss) as [body [Hjoin Hpairs]].
    rewrite Hjoin in Hfuel |- *.
    change (py "{") with [123] in Hfuel |- *.
    change (py "}") with [125] in Hfuel |- *.
    revert Hfuel. cbn [app]. rewrite <- List.app_assoc. cbn [app].
    intros Hfuel. cbn [List.length] in Hfuel.
    rewrite scan_once_dict.
    rewrite (Hpairs fuel [] rest) by lia. cbn [rbind].
    cbn [rev app]. rewrite dict_of_pairs_items; [reflexivity | | exact Hdistinct].
    rewrite forallb_forall in Hitems. apply Forall_forall.
    intros [k0 v0] Hin. specialize (Hitems _ Hin). cbn [fst snd] in *.
    destruct k0; try discriminate. eauto.
Qed.

(** [json.loads(json.dumps(v)) == v] for a plain value, also with
    whitespace after the text. *)
Lemma json_loads_encoded (v : value) (s trail : str) :
  plain v = true -> json_dumps v = Ok s ->
  Forall (fun c => is_ws c = true) trail ->
  json_loads (s ++ trail) = Ok v.
Proof.
  intros Hplain Hs Htrail. unfold json_dumps in Hs.
  destruct (@encode_opens_value v _ s Hplain Hs) as [c [r [Hsr [Hws _]]]].
  assert (Hdelim : delimited trail = true).
  { destruct Htrail as [|t trail Ht _]; [reflexivity|].
    unfold delimited. rewrite Ht. rewrite !orb_true_r. reflexivity. }
  pose proof (@scan_once_encoded v Hplain _ s Hs
                (2 * List.length (s ++ trail) + 1) trail Hdelim
                ltac:(lia)) as Hread.
  subst s. cbn [app] in *. rewrite json_loads_unfold.
  rewrite (@skip_ws_head c _ Hws). rewrite Hread. cbn [rbind].
  rewrite (skip_ws_blank Htrail). reflexivity.
Qed.

End RoundTripValues.

(** ** Commands and replies *)

Section RoundTrip.
Context {runtime : PyRuntime}.

Local Opaque json_loads json_dumps.

Lemma envelope_plain (action : str) (args : value) :
  forallb scalar action = true ->
  plain (py_or args (PyDict [])) = true ->
  plain (envelope action args) = true.
Proof.
  intros Haction Hargs. unfold envelope.
  cbn [plain forallb fst snd distinct_keys existsb key_text key_is].
  rewrite Haction, Hargs. reflexivity.
Qed.

(** The line a call delivers to the child is one JSON text, and decoding
    it gives the envelope back: the action and the arguments arrive as they
    were given, for arguments made of [None], booleans, integers, strings
    of scalar values, lists and dictionaries with string keys that
    [json.dumps] has encoded. *)
Theorem delivered_line_decodes_to_the_envelope :
  forall (action : str) (args : value) (h : Hive) (command : str),
    alive h -> writable h ->
    stdin_pending (process h) = [] ->
    forallb scalar action = true ->
    plain (py_or args (PyDict [])) = true ->
    json_dumps (envelope action args) = Ok command ->
    stdin_data (process (snd (_send_command action args h))) =
      stdin_data (process h) ++ command ++ [LF]
    /\ json_loads (command ++ [LF]) = Ok (envelope action args).
Proof.
  intros action args h command Halive Hwritable Hpending Haction Hargs Hdumps.
  pose proof (envelope_plain action args Haction Hargs) as Hplain.
  destruct (@send_command_delivers _ action args h command Halive Hwritable
              Hdumps) as [Hdata _].
  split.
  - rewrite Hdata, Hpending. reflexivity.
  - apply json_loads_encoded; [exact Hplain | exact Hdumps |].
    repeat constructor.
Qed.

(** A reply that is the JSON text of a dictionary with the one key
    ["data"] makes the call return the value under that key, as it was
    before it was turned into text. *)
Theorem data_reply_is_returned :
  forall (action : str) (args data : value) (h : Hive) (command reply : str),
    alive h -> writable h ->
    json_dumps (envelope action args) = Ok command ->
    plain data = true ->
    json_dumps (PyDict [(PyStr (py "data"), data)]) = Ok reply ->
    fst (stdout_readline (process h)) = Return (reply ++ [LF]) ->
    fst (_send_command action args h) = Return data.
Proof.
  intros action args data h command reply Halive Hwritable Hdumps Hdata Hreply
         Hline.
  rewrite (send_command_reads action args Halive Hwritable Hdumps Hline).
  assert (Hplain : plain (PyDict [(PyStr (py "data"), data)]) = true).
  { cbn [plain forallb fst snd distinct_keys existsb key_text].
    rewrite Hdata. reflexivity. }
  assert (Hloads : json_loads (reply ++ [LF]) =
                   Ok (PyDict [(PyStr (py "data"), data)])).
  { apply json_loads_encoded; [exact Hplain | exact Hreply |].
    repeat constructor. }
  destruct (reply ++ [LF]) as [|c line] eqn:Hne;
    [destruct reply; discriminate|].
  rewrite Hloads. reflexivity.
Qed.

End RoundTrip.

(* ================================================================= *)
(** * The further properties at work on closed examples *)

Lemma broken_pipe_raises_and_reads_nothing_witness :
  let h := example_hive_deaf in
  (alive h /\ pipe_broken (process h) = true)
  /\ fst (@init example_runtime PyNone h) =
       Raise (RuntimeError (py "Hive Node.js process pipe broken."))
  /\ stdin_data (process (snd (@init example_runtime PyNone h))) = []
  /\ stdin_pending (process (snd (@init example_runtime PyNone h))) =
       jsn "{'action': 'init', 'args': {}}" ++ [LF].
Proof.
  intros h. split; [repeat split|].
  destruct (@broken_pipe_raises_and_reads_nothing example_runtime (py "init")
              PyNone h (jsn "{'action': 'init', 'args': {}}"))
    as [Hraise [_ [Hdata Hpending]]].
  - split; reflexivity.
  - reflexivity.
  - reflexivity.
  - vm_compute. reflexivity.
  - split; [exact Hraise|]. split; [exact Hdata | exact Hpending].
Defined.

Lemma close_after_broken_pipe_raises_witness :
  let h := example_hive_deaf in
  let h' := snd (@init example_runtime PyNone h) in
  fst (close h') = Raise BrokenPipeError
  /\ stdin_closed (process (snd (close h'))) = true
  /\ returncode (process (snd (close h'))) = None.
Proof.
  intros h h'.
  apply (@close_after_broken_pipe_raises example_runtime (py "init") PyNone h
           (jsn "{'action': 'init', 'args': {}}")).
  - split; reflexivity.
  - reflexivity.
  - reflexivity.
  - vm_compute. reflexivity.
Defined.

Lemma closed_stdin_raises_ValueError_witness :
  let h := example_hive_stdin_closed in
  alive h
  /\ @insert_one example_runtime (PyDict []) h = (Raise ValueError, h).
Proof.
  intros h. split; [split; reflexivity|].
  apply (@closed_stdin_raises_ValueError example_runtime (py "insertOne")
           (PyDict [(PyStr (py "entry"), PyDict [])]) h
           (jsn "{'action': 'insertOne', 'args': {'entry': {}}}")).
  - split; reflexivity.
  - reflexivity.
  - vm_compute. reflexivity.
Defined.

Lemma non_object_reply_raises_AttributeError_witness :
  let h := example_hive (jsn "[1, 2]" ++ [LF]) in
  json_loads (runtime := example_runtime) (jsn "[1, 2]" ++ [LF]) =
    Ok (PyList [PyInt 1; PyInt 2])
  /\ fst (@init example_runtime PyNone h) = Raise AttributeError.
Proof.
  intros h. split; [vm_compute; reflexivity|].
  apply (@non_object_reply_raises_AttributeError example_runtime (py "init")
           PyNone h (jsn "{'action': 'init', 'args': {}}")
           (jsn "[1, 2]" ++ [LF]) (PyList [PyInt 1; PyInt 2])).
  - split; reflexivity.
  - split; reflexivity.
  - vm_compute. reflexivity.
  - vm_compute. reflexivity.
  - vm_compute. reflexivity.
  - intros d. discriminate.
Defined.

Lemma object_reply_fails_iff_error_is_true_witness :
  let h0 := example_hive (jsn "{'error': 0, 'data': 5}" ++ [LF]) in
  let h1 := example_hive (jsn "{'error': 404, 'data': 5}" ++ [LF]) in
  fst (@init example_runtime PyNone h0) = Return (PyInt 5)
  /\ fst (@init example_runtime PyNone h1) =
       Raise (RuntimeError (py "Hive Error: 404")).
Proof.
  intros h0 h1. split.
  - apply (@object_reply_fails_iff_error_is_true example_runtime (py "init")
             PyNone h0 (jsn "{'action': 'init', 'args': {}}")
             (jsn "{'error': 0, 'data': 5}" ++ [LF])
             [(PyStr (py "error"), PyInt 0); (PyStr (py "data"), PyInt 5)]).
    + split; reflexivity.
    + split; reflexivity.
    + vm_compute. reflexivity.
    + vm_compute. reflexivity.
    + vm_compute. reflexivity.
  - apply (@object_reply_fails_iff_error_is_true example_runtime (py "init")
             PyNone h1 (jsn "{'action': 'init', 'args': {}}")
             (jsn "{'error': 404, 'data': 5}" ++ [LF])
             [(PyStr (py "error"), PyInt 404); (PyStr (py "data"), PyInt 5)]).
    + split; reflexivity.
    + split; reflexivity.
    + vm_compute. reflexivity.
    + vm_compute. reflexivity.
    + vm_compute. reflexivity.
Defined.

Lemma blank_line_is_a_decode_failure_witness :
  let h := example_hive ([LF] ++ jsn "{'data': 1}" ++ [LF]) in
  fst (stdout_readline (process h)) = Return [LF]
  /\ fst (@init example_runtime PyNone h) =
       Raise (RuntimeError (py "Failed to decode response from Hive: " ++ [LF])).
Proof.
  intros h. split; [vm_compute; reflexivity|].
  apply (@blank_line_is_a_decode_failure example_runtime (py "init") PyNone h
           (jsn "{'action': 'init', 'args': {}}") [LF]).
  - split; reflexivity.
  - split; reflexivity.
  - vm_compute. reflexivity.
  - vm_compute. reflexivity.
  - discriminate.
  - repeat constructor.
Defined.

Lemma silent_child_blocks_the_call_witness :
  let h := example_hive (jsn "{'data': 1") in
  fst (@init example_runtime PyNone h) = Hang
  /\ stdin_data (process (snd (@init example_runtime PyNone h))) =
       jsn "{'action': 'init', 'args': {}}" ++ [LF].
Proof.
  intros h.
  destruct (@silent_child_blocks_the_call example_runtime (py "init") PyNone h
              (jsn "{'action': 'init', 'args': {}}")) as [Hhang [Hdata _]].
  - split; reflexivity.
  - split; reflexivity.
  - vm_compute. reflexivity.
  - vm_compute. reflexivity.
  - reflexivity.
  - split; [exact Hhang | exact Hdata].
Defined.

Lemma call_consumes_one_line_witness :
  let h := example_hive (py "oops" ++ [LF] ++ jsn "{'data': 1}" ++ [LF]) in
  stdout_data (process (snd (@init example_runtime PyNone h))) =
    jsn "{'data': 1}" ++ [LF]
  /\ fst (@init example_runtime PyNone h) <> Hang.
Proof.
  intros h.
  destruct (@call_consumes_one_line example_runtime (py "init") PyNone h
              (jsn "{'action': 'init', 'args': {}}")
              (py "oops" ++ [LF]) (jsn "{'data': 1}" ++ [LF]))
    as [Hstate Hends].
  - split; reflexivity.
  - split; reflexivity.
  - vm_compute. reflexivity.
  - vm_compute. reflexivity.
  - split; [|exact Hends].
    change (@init example_runtime PyNone h)
      with (@_send_command example_runtime (py "init") PyNone h).
    rewrite Hstate. reflexivity.
Defined.

Lemma call_raises_only_witness :
  let h := example_hive (jsn "{'error': 'not found'}" ++ [LF]) in
  fst (@init example_runtime PyNone h) =
    Raise (RuntimeError (py "Hive Error: not found"))
  /\ exists error,
       RuntimeError (py "Hive Error: not found") =
       RuntimeError (py "Hive Error: " ++ @py_format example_runtime error).
Proof.
  intros h. split; [vm_compute; reflexivity|].
  destruct (@call_raises_only example_runtime (py "init") PyNone h
              (RuntimeError (py "Hive Error: not found")))
    as [H|[H|[H|[H|[H|[H|[H|[[line H]|H]]]]]]]];
    try discriminate.
  - vm_compute. reflexivity.
  - exact H.
Defined.

Lemma close_records_the_exit_status_witness :
  let h := example_hive (jsn "{'data': 1}" ++ [LF]) in
  let h' := snd (close h) in
  close h = (Return tt, h')
  /\ stdin_closed (process h') = true
  /\ returncode (process h') = exit_status (process h')
  /\ stdout_data (process h') = jsn "{'data': 1}" ++ [LF].
Proof.
  intros h h'. split; [reflexivity|].
  destruct (@close_records_the_exit_status h h' eq_refl)
    as [Hclosed [_ [Hstatus [_ Hout]]]].
  split; [exact Hclosed|]. split; [exact (Hstatus eq_refl) | exact Hout].
Defined.

Lemma init_spawns_one_child_witness :
  fst (@__init__ (py "node") None example_os) = Return (example_hive [])
  /\ spawned (snd (@__init__ (py "node") None example_os)) =
       [[py "node"; py "/opt/hive/hive_cli.js"]].
Proof.
  apply (@init_spawns_one_child example_os (py "node") None
           (py "/opt/hive/hive_cli.js") (process (example_hive []))).
  - vm_compute. reflexivity.
  - vm_compute. reflexivity.
  - vm_compute. reflexivity.
Defined.

Lemma init_translates_only_FileNotFoundError_witness :
  @__init__ (py "nodejs") (Some (py "/opt/hive/hive_cli.js")) example_os =
    (Raise (FileNotFoundError
       (py "Node.js executable not found at 'nodejs'. Please ensure Node.js is installed.")),
     example_os).
Proof.
  apply (@init_translates_only_FileNotFoundError example_os (py "nodejs")
           (Some (py "/opt/hive/hive_cli.js")) (py "/opt/hive/hive_cli.js")
           (FileNotFoundError (py "[Errno 2] No such file or directory"))).
  - reflexivity.
  - vm_compute. reflexivity.
  - vm_compute. reflexivity.
Defined.

Lemma command_is_printable_ascii_witness :
  let args := PyDict [(PyStr (py "input"), PyStr [233%N; LF; 128512%N]);
                      (PyStr (py "type"), PyStr (py "text"))] in
  let command :=
    jsn "{'action': 'embed', 'args': {'input': '\u00e9\n\ud83d\ude00', 'type': 'text'}}" in
  json_dumps (runtime := example_runtime) (envelope (py "embed") args) = Ok command
  /\ ascii_text command.
Proof.
  intros args command. split; [vm_compute; reflexivity|].
  apply (@command_is_printable_ascii example_runtime) with (action := py "embed")
                                                          (args := args).
  - intros x. cbn. repeat constructor; discriminate.
  - vm_compute. reflexivity.
Defined.

Lemma operations_write_their_commands_witness :
  let h := example_hive [] in
  stdin_data (process (snd (@delete_one example_runtime (PyStr (py "x")) h))) =
    jsn "{'action': 'deleteOne', 'args': {'id': 'x'}}" ++ [LF]
  /\ stdin_data (process (snd (@add_file example_runtime (py "/data/a.txt") h))) =
    jsn "{'action': 'addFile', 'args': {'filePath': '/data/a.txt'}}" ++ [LF].
Proof.
  intros h.
  pose proof (@operations_write_their_commands example_runtime h
                (conj eq_refl eq_refl) (conj eq_refl eq_refl) eq_refl) as H.
  cbv zeta in H. destruct H as [Hadd [_ [_ [_ [Hdelete _]]]]].
  split.
  - exact (Hdelete (PyStr (py "x")) (jsn "'x'") eq_refl).
  - exact (Hadd (py "/data/a.txt")).
Defined.

Lemma delivered_line_decodes_to_the_envelope_witness :
  let args := PyDict [(PyStr (py "query"), PyDict [(PyStr (py "id"), PyInt (-7))]);
                      (PyStr (py "entry"),
                       PyDict [(PyStr (py "tags"),
                                PyList [PyStr [233%N; 128512%N]; PyNone;
                                        PyBool true])])] in
  let command :=
    jsn "{'action': 'updateOne', 'args': {'query': {'id': -7}, 'entry': {'tags': ['\u00e9\ud83d\ude00', null, true]}}}" in
  stdin_data (process (snd (@_send_command example_runtime (py "updateOne") args
                              (example_hive [])))) = command ++ [LF]
  /\ json_loads (runtime := example_runtime) (command ++ [LF]) =
       Ok (envelope (py "updateOne") args).
Proof.
  intros args command.
  apply (@delivered_line_decodes_to_the_envelope example_runtime
           (py "updateOne") args (example_hive []) command).
  - split; reflexivity.
  - split; reflexivity.
  - reflexivity.
  - vm_compute. reflexivity.
  - vm_compute. reflexivity.
  - vm_compute. reflexivity.
Defined.

Lemma data_reply_is_returned_witness :
  let data := PyList [PyDict [(PyStr (py "id"), PyStr (py "a"));
                              (PyStr (py "rank"), PyInt 1)]] in
  let h := example_hive (jsn "{'data': [{'id': 'a', 'rank': 1}]}" ++ [LF]) in
  fst (@find example_runtime (PyList [PyInt 1; PyInt 0]) (PyInt 10) h) =
    Return data.
Proof.
  intros data h.
  apply (@data_reply_is_returned example_runtime (py "find")
           (PyDict [(PyStr (py "queryVector"), PyList [PyInt 1; PyInt 0]);
                    (PyStr (py "topK"), PyInt 10)])
           data h
           (jsn "{'action': 'find', 'args': {'queryVector': [1, 0], 'topK': 10}}")
           (jsn "{'data': [{'id': 'a', 'rank': 1}]}")).
  - split; reflexivity.
  - split; reflexivity.
  - vm_compute. reflexivity.
  - vm_compute. reflexivity.
  - vm_compute. reflexivity.
  - vm_compute. reflexivity.
Defined.
